(** * Collaborative LLM refinement: the orchestration engine, embedded in Rocq

    A shallow embedding of [backend/llm-client.js], [backend/prompt-refiner.js]
    and the refinement orchestrator (class [RefinementOrchestrator]), followed
    by the properties of the engine that the specification states.

    Conventions of the embedding.
    - A JavaScript string is a [string]: a sequence of code units below 256.
    - [undefined] and [null] are [None]; a value that may be either a string
      or [undefined]/[null] is an [option string].
    - An [async] method is a computation in the monad [M] below: it threads
      the engine state and either returns a value or throws an [Error] whose
      [message] is kept.  Each [await] runs to completion before the next
      statement, as in a single pipeline.
    - [console.log] output is not part of the state. *)

From Stdlib Require Import ZArith Lia Ascii String List Bool Arith.
From Stdlib Require Import Floats Uint63.
From stdpp Require Import base option list strings gmap fin_maps pretty.

Set Default Proof Using "Type".

(* ===================================================================== *)
(** * JavaScript string primitives *)
(* ===================================================================== *)

Module Js.

Definition chars (s : string) : list ascii := list_ascii_of_string s.
Definition str (l : list ascii) : string := string_of_list_ascii l.

Definition code (c : ascii) : nat := nat_of_ascii c.

(** The quotation mark and the line feed, which the templates embed. *)
Definition dq : string := String (ascii_of_nat 34) EmptyString.
Definition nl : string := String (ascii_of_nat 10) EmptyString.
Definition lf : ascii := ascii_of_nat 10.

(** [\s]: the white space and line terminator code units below 256. *)
Definition is_space (c : ascii) : bool :=
  let n := code c in
  (9 <=? n) && (n <=? 13) || (n =? 32) || (n =? 160).

(** [\d]. *)
Definition is_digit (c : ascii) : bool :=
  let n := code c in (48 <=? n) && (n <=? 57).

Definition is_upper (c : ascii) : bool :=
  let n := code c in (65 <=? n) && (n <=? 90).

Definition lower (c : ascii) : ascii :=
  if is_upper c then ascii_of_nat (code c + 32) else c.

Definition toLowerCase (s : string) : string := str (map lower (chars s)).

Fixpoint trimStartL (l : list ascii) : list ascii :=
  match l with
  | c :: l' => if is_space c then trimStartL l' else l
  | [] => []
  end.

Definition trimL (l : list ascii) : list ascii :=
  rev (trimStartL (rev (trimStartL l))).

(** [String.prototype.trim]. *)
Definition trim (s : string) : string := str (trimL (chars s)).

Fixpoint prefixL (p l : list ascii) : bool :=
  match p, l with
  | [], _ => true
  | a :: p', b :: l' => Ascii.eqb a b && prefixL p' l'
  | _ :: _, [] => false
  end.

(** [String.prototype.startsWith]. *)
Definition startsWith (s p : string) : bool := prefixL (chars p) (chars s).

Fixpoint includesL (p l : list ascii) : bool :=
  prefixL p l || match l with [] => false | _ :: l' => includesL p l' end.

(** [String.prototype.includes]. *)
Definition includes (s p : string) : bool := includesL (chars p) (chars s).

(** [s.substring(0, n)]. *)
Definition substring0 (n : nat) (s : string) : string := str (firstn n (chars s)).

(** [Array.prototype.join]. *)
Fixpoint join (sep : string) (l : list string) : string :=
  match l with
  | [] => ""
  | [x] => x
  | x :: l' => x +:+ sep +:+ join sep l'
  end.

(** [s.split(sep)] for a separator matching exactly one code unit of the
    class [sep]; it always yields at least one piece. *)
Fixpoint splitL (sep : ascii -> bool) (cur : list ascii) (l : list ascii)
  : list (list ascii) :=
  match l with
  | [] => [rev cur]
  | c :: l' => if sep c then rev cur :: splitL sep [] l'
               else splitL sep (c :: cur) l'
  end.

Definition split (sep : ascii -> bool) (s : string) : list string :=
  map str (splitL sep [] (chars s)).

(** The values a string-typed variable of the program can hold. *)
Inductive value : Type := Undefined | Null | Str (s : string).

(** [!!v]: a string is falsy exactly when it is empty. *)
Definition truthy (v : value) : bool :=
  match v with
  | Str s => negb (String.eqb s "")
  | Undefined | Null => false
  end.

(** [a || b]. *)
Definition or_else (a b : value) : value := if truthy a then a else b.

(** A value interpolated in a template literal, or used as a property key. *)
Definition show (v : value) : string :=
  match v with Str s => s | Undefined => "undefined" | Null => "null" end.

(** [a === b] for a string [b]. *)
Definition is_str (v : value) (s : string) : bool :=
  match v with Str t => String.eqb t s | _ => false end.

(** [obj[key]] restricted to the own properties of an object literal. *)
Fixpoint own {A} (obj : list (string * A)) (key : string) : option A :=
  match obj with
  | [] => None
  | (k, a) :: obj' => if String.eqb k key then Some a else own obj' key
  end.

(** The property names every object literal inherits from
    [Object.prototype]; looking one of them up yields a function or an
    object, never [undefined]. *)
Definition inherited (key : string) : bool :=
  bool_decide (key ∈ ["constructor"; "toString"; "toLocaleString"; "valueOf";
    "hasOwnProperty"; "isPrototypeOf"; "propertyIsEnumerable"; "__proto__";
    "__defineGetter__"; "__defineSetter__"; "__lookupGetter__";
    "__lookupSetter__"]).

(** A non-negative integer interpolated in a template literal. *)
Definition num (n : nat) : string := pretty n.

(** The lines of a multi-line template literal. *)
Definition lines (l : list string) : string := join nl l.

End Js.

(* ===================================================================== *)
(** * Regular expressions *)
(* ===================================================================== *)

(** A backtracking matcher with the priorities of ECMAScript: the leftmost
    start, then the first alternative, greedy quantifiers longest first and
    lazy ones shortest first.  One capture group is enough for the patterns
    of the program. *)
Module Re.

Inductive regex : Type :=
| Eps
| Cls (p : ascii -> bool)
| Seq (r1 r2 : regex)
| Alt (r1 r2 : regex)
| Star (greedy : bool) (r : regex)
| Group (r : regex)
| Ahead (r : regex)
| Bol
| Eol.

Definition chr (c : ascii) : regex := Cls (Ascii.eqb c).
Definition chr_i (c : ascii) : regex :=
  Cls (fun d => Ascii.eqb (Js.lower c) (Js.lower d)).
Definition any : regex := Cls (fun _ => true).
Definition plus (greedy : bool) (r : regex) : regex := Seq r (Star greedy r).
Definition opt (r : regex) : regex := Alt r Eps.

Fixpoint lit (l : list ascii) : regex :=
  match l with
  | [] => Eps
  | c :: l' => Seq (chr c) (lit l')
  end.

Fixpoint lit_i (l : list ascii) : regex :=
  match l with
  | [] => Eps
  | c :: l' => Seq (chr_i c) (lit_i l')
  end.

Definition word (s : string) : regex := lit (Js.chars s).
Definition word_i (s : string) : regex := lit_i (Js.chars s).

Definition first_of {A} (a b : option A) : option A :=
  match a with Some _ => a | None => b end.

Section Matcher.
(** [total] is the length of the whole subject, for [^]. *)
Variable total : nat.
(** What a successful match reports: the rest of the subject after the
    match and the text of the capture group. *)
Definition answer : Type := list ascii * option (list ascii).
Definition cont : Type := list ascii -> option (list ascii) -> option answer.

Fixpoint run (r : regex) (s : list ascii) (cap : option (list ascii))
  (k : cont) {struct r} : option answer :=
  match r with
  | Eps => k s cap
  | Cls p =>
      match s with
      | c :: s' => if p c then k s' cap else None
      | [] => None
      end
  | Seq r1 r2 => run r1 s cap (fun s' cap' => run r2 s' cap' k)
  | Alt r1 r2 => first_of (run r1 s cap k) (run r2 s cap k)
  | Star greedy r' =>
      (fix loop (fuel : nat) (s : list ascii) (cap : option (list ascii))
         {struct fuel} : option answer :=
         match fuel with
         | 0 => k s cap
         | S fuel' =>
             let more :=
               run r' s cap (fun s' cap' =>
                 if length s' <? length s then loop fuel' s' cap' else None) in
             if greedy then first_of more (k s cap)
             else first_of (k s cap) more
         end) (length s) s cap
  | Group r' =>
      run r' s cap (fun s' _ => k s' (Some (firstn (length s - length s') s)))
  | Ahead r' =>
      match run r' s cap (fun s' cap' => Some (s', cap')) with
      | Some (_, cap') => k s cap'
      | None => None
      end
  | Bol => if length s =? total then k s cap else None
  | Eol => match s with [] => k s cap | _ :: _ => None end
  end.

Definition match_here (r : regex) (s : list ascii) : option answer :=
  run r s None (fun s' cap => Some (s', cap)).
End Matcher.

(** One match: the text before it, the matched text, the capture, the rest. *)
Record found : Type := Found {
  before : list ascii;
  matched : list ascii;
  capture : option (list ascii);
  after : list ascii
}.

(** The leftmost match at or after the current position ([pre] is the
    reversed text already skipped). *)
Fixpoint search_from (total : nat) (r : regex) (pre : list ascii)
  (s : list ascii) : option found :=
  match match_here total r s with
  | Some (rest, cap) =>
      Some (Found (rev pre) (firstn (length s - length rest) s) cap rest)
  | None =>
      match s with
      | [] => None
      | c :: s' => search_from total r (c :: pre) s'
      end
  end.

(** [str.match(re)] without the [g] flag. *)
Definition exec (r : regex) (s : string) : option found :=
  let l := Js.chars s in search_from (length l) r [] l.

(** The text of capture group 1 of [str.match(re)]. *)
Definition capture1 (r : regex) (s : string) : option string :=
  match exec r s with
  | Some f => Some (Js.str (default [] (capture f)))
  | None => None
  end.

(** [str.match(re)] with the [g] flag: every match, left to right; after an
    empty match the search resumes one code unit further. *)
Fixpoint all_from (fuel : nat) (total : nat) (r : regex) (s : list ascii)
  : list (list ascii) :=
  match fuel with
  | 0 => []
  | S fuel' =>
      match search_from total r [] s with
      | None => []
      | Some f =>
          matched f ::
          match matched f, after f with
          | [], [] => []
          | [], _ :: rest => all_from fuel' total r rest
          | _ :: _, rest => all_from fuel' total r rest
          end
      end
  end.

Definition match_all (r : regex) (s : string) : option (list string) :=
  let l := Js.chars s in
  match all_from (S (length l)) (length l) r l with
  | [] => None
  | ms => Some (map Js.str ms)
  end.

(** [str.replace(re, '')] without the [g] flag. *)
Definition remove_first (r : regex) (s : string) : string :=
  match exec r s with
  | Some f => Js.str (before f ++ after f)
  | None => s
  end.

End Re.

(* ===================================================================== *)
(** * Data model *)
(* ===================================================================== *)

Export Js (value, Undefined, Null, Str).

#[global] Instance value_eq_dec : EqDecision value.
Proof. solve_decision. Defined.

#[global] Instance value_countable : Countable value :=
  inj_countable'
    (fun v => match v with
              | Undefined => inl false | Null => inl true | Str s => inr s
              end)
    (fun x => match x with
              | inl false => Undefined | inl true => Null | inr s => Str s
              end)
    (fun v => match v with Undefined | Null | Str _ => eq_refl end).

Inductive provider : Type := OpenAI | Anthropic.
Inductive tier : Type := Premium | Advanced | Standard.

#[global] Instance provider_eq_dec : EqDecision provider.
Proof. solve_decision. Defined.
#[global] Instance tier_eq_dec : EqDecision tier.
Proof. solve_decision. Defined.

(** An entry of [LLMClient.modelConfig]; the temperature is in tenths. *)
Record config : Type := Config {
  cfg_provider : provider;
  modelName : string;
  maxTokens : N;
  temperature : nat;
  cfg_tier : tier;
  cfg_capabilities : list string
}.

(** An entry of [RefinementOrchestrator.availableModels]. *)
Record descriptor : Type := Descriptor {
  d_id : string;
  d_name : string;
  d_provider : provider;
  capabilities : list string
}.

(** The [apiKeys] object: a key per provider, absent when [undefined]. *)
Record credentials : Type := Credentials {
  openai : option string;
  anthropic : option string
}.

Definition key_of (k : credentials) (p : provider) : option string :=
  match p with OpenAI => openai k | Anthropic => anthropic k end.

(** The [options] argument of [generateResponse]. *)
Record options : Type := Options {
  opt_maxTokens : option N;
  opt_temperature : option nat
}.
Definition no_options : options := Options None None.

(** A clarification question [{id, question}]. *)
Record question : Type := Question {
  q_id : string;
  q_question : string
}.

(** An entry of the local [iterationHistory] of the pipeline. *)
Record entry : Type := Entry {
  h_iteration : nat;
  h_model : value;
  h_type : string;
  h_input : value;
  h_output : string;
  h_timestamp : Z
}.

(** A value of the [modelUsageStats] map. *)
Record usage : Type := Usage {
  u_model : value;
  operations : gmap string nat;
  totalUsage : nat
}.

(** An element of [session.steps], built by [generateProcessSteps]. *)
Record step : Type := Step {
  s_id : string;
  s_type : string;
  s_title : string;
  s_description : string;
  s_status : string;
  s_iteration : nat;
  s_modelId : option value
}.

(** The [models] argument of [startRefinementProcess]. *)
Record selection : Type := Selection {
  primaryModel : value;
  refinementModel : value;
  sel_finalReviewModel : value;
  sel_handoffStrategy : value
}.

(** The session object.  A progress callback is named by a number. *)
Record session : Type := Session {
  id : string;
  originalPrompt : string;
  refinedPrompt : value;
  models : selection;
  targetIterations : nat;
  currentIteration : nat;
  completedIterations : nat;
  steps : list step;
  startTime : Z;
  handoffStrategy : string;
  iterationHistory : list entry;
  modelUsageStats : gmap value usage;
  finalReviewModel : value;
  progressCallback : option nat;
  pendingClarifications : option (list question)
}.

(** The [result] object of a completed pipeline. *)
Record result : Type := Result {
  r_originalPrompt : string;
  r_refinedPrompt : value;
  finalOutput : string;
  r_iterationHistory : list entry;
  sessionDuration : Z;
  r_targetIterations : nat;
  r_completedIterations : nat;
  r_handoffStrategy : string;
  r_modelUsageStats : gmap value usage
}.

(** What the public operations return. *)
Inductive response : Type :=
| NeedsClarification (sessionId : string) (questions : list question)
| Complete (sessionId : string) (res : result)
| Failure (message : string).

(** A progress update delivered to a callback. *)
Record progress : Type := Progress {
  p_callback : nat;
  p_sessionId : string;
  p_timestamp : Z;
  p_phase : string;
  p_message : string;
  p_currentIteration : nat;
  p_totalIterations : nat;
  p_model : option value;
  p_completed : bool;
  p_result : option result
}.

(** The [updateData] argument of [sendProgressUpdate]. *)
Record update : Type := Update {
  up_phase : string;
  up_message : string;
  up_currentIteration : nat;
  up_totalIterations : nat;
  up_model : option value;
  up_completed : bool;
  up_result : option result
}.

(** Field assignments on a session. *)
Definition set_refinedPrompt (v : value) (s : session) : session :=
  Session (id s) (originalPrompt s) v (models s) (targetIterations s)
    (currentIteration s) (completedIterations s) (steps s) (startTime s)
    (handoffStrategy s) (iterationHistory s) (modelUsageStats s)
    (finalReviewModel s) (progressCallback s) (pendingClarifications s).

Definition set_currentIteration (v : nat) (s : session) : session :=
  Session (id s) (originalPrompt s) (refinedPrompt s) (models s)
    (targetIterations s) v (completedIterations s) (steps s) (startTime s)
    (handoffStrategy s) (iterationHistory s) (modelUsageStats s)
    (finalReviewModel s) (progressCallback s) (pendingClarifications s).

Definition set_completedIterations (v : nat) (s : session) : session :=
  Session (id s) (originalPrompt s) (refinedPrompt s) (models s)
    (targetIterations s) (currentIteration s) v (steps s) (startTime s)
    (handoffStrategy s) (iterationHistory s) (modelUsageStats s)
    (finalReviewModel s) (progressCallback s) (pendingClarifications s).

Definition set_steps (v : list step) (s : session) : session :=
  Session (id s) (originalPrompt s) (refinedPrompt s) (models s)
    (targetIterations s) (currentIteration s) (completedIterations s) v
    (startTime s) (handoffStrategy s) (iterationHistory s) (modelUsageStats s)
    (finalReviewModel s) (progressCallback s) (pendingClarifications s).

Definition set_modelUsageStats (v : gmap value usage) (s : session)
  : session :=
  Session (id s) (originalPrompt s) (refinedPrompt s) (models s)
    (targetIterations s) (currentIteration s) (completedIterations s) (steps s)
    (startTime s) (handoffStrategy s) (iterationHistory s) v
    (finalReviewModel s) (progressCallback s) (pendingClarifications s).

Definition set_progressCallback (v : option nat) (s : session) : session :=
  Session (id s) (originalPrompt s) (refinedPrompt s) (models s)
    (targetIterations s) (currentIteration s) (completedIterations s) (steps s)
    (startTime s) (handoffStrategy s) (iterationHistory s) (modelUsageStats s)
    (finalReviewModel s) v (pendingClarifications s).

Definition set_pendingClarifications (v : option (list question)) (s : session)
  : session :=
  Session (id s) (originalPrompt s) (refinedPrompt s) (models s)
    (targetIterations s) (currentIteration s) (completedIterations s) (steps s)
    (startTime s) (handoffStrategy s) (iterationHistory s) (modelUsageStats s)
    (finalReviewModel s) (progressCallback s) v.

(* ===================================================================== *)
(** * The engine state and its monad *)
(* ===================================================================== *)

(** The statement of the program that issues a [generateResponse] call.
    The label is not data of the program: it names the call site in the
    record of calls, so that properties can speak of "the critique call of
    iteration i". *)
Inductive site : Type :=
| AtAnalysis
| AtQuestions
| AtDirectRefinement
| AtClarifiedRefinement
| AtInitial
| AtCritique (i : nat)
| AtImprovement (i : nat)
| AtFinalReview.

#[global] Instance site_eq_dec : EqDecision site.
Proof. solve_decision. Defined.

(** The calls of the generation pipeline, as opposed to the prompt analyzer. *)
Definition pipeline_site (s : site) : bool :=
  match s with
  | AtInitial | AtCritique _ | AtImprovement _ | AtFinalReview => true
  | AtAnalysis | AtQuestions | AtDirectRefinement | AtClarifiedRefinement => false
  end.

(** The request handed to the SDK of a provider. *)
Record request : Type := Request {
  rq_model : string;
  rq_content : value;
  rq_max_tokens : N;
  rq_temperature : nat;
  rq_stream : bool
}.

(** What the provider does with a request: it rejects it (the SDK throws),
    or it answers with texts: the contents of the choices for OpenAI, the
    text deltas of the stream or the content blocks for Anthropic. *)
Inductive reply : Type :=
| Rejects (message : string)
| Replies (texts : list string).

Inductive outcome (A : Type) : Type :=
| Returns (a : A)
| Throws (message : string).
Arguments Returns {A} a.
Arguments Throws {A} message.

(** One invocation of [generateResponse]: who asked, with what, whether the
    provider was reached, and how the call ended. *)
Record call : Type := Call {
  c_site : site;
  c_model : value;
  c_prompt : value;
  c_request : option request;
  c_outcome : outcome string
}.

Definition failed (c : call) : bool :=
  match c_outcome c with Throws _ => true | Returns _ => false end.

(** The state of one [RefinementOrchestrator] with its [LLMClient], and the
    observable record of what it did. *)
Record world : Type := World {
  openaiClient : option string;
  anthropicClient : option string;
  apiKeys : credentials;
  enabledModels : option (list descriptor);
  activeSessions : gmap string session;
  calls : list call;
  events : list progress;
  ticks : nat
}.

Definition with_clients (o a : option string) (k : credentials) (w : world) : world :=
  World o a k (enabledModels w) (activeSessions w) (calls w) (events w) (ticks w).

Definition with_enabledModels (v : option (list descriptor)) (w : world) : world :=
  World (openaiClient w) (anthropicClient w) (apiKeys w) v (activeSessions w)
    (calls w) (events w) (ticks w).

Definition with_activeSessions (v : gmap string session) (w : world) : world :=
  World (openaiClient w) (anthropicClient w) (apiKeys w) (enabledModels w) v
    (calls w) (events w) (ticks w).

Definition with_calls (v : list call) (w : world) : world :=
  World (openaiClient w) (anthropicClient w) (apiKeys w) (enabledModels w)
    (activeSessions w) v (events w) (ticks w).

Definition with_events (v : list progress) (w : world) : world :=
  World (openaiClient w) (anthropicClient w) (apiKeys w) (enabledModels w)
    (activeSessions w) (calls w) v (ticks w).

Definition with_ticks (v : nat) (w : world) : world :=
  World (openaiClient w) (anthropicClient w) (apiKeys w) (enabledModels w)
    (activeSessions w) (calls w) (events w) v.

(** The state of a freshly constructed orchestrator. *)
Definition initial_world : world :=
  World None None (Credentials None None) None ∅ [] [] 0.

Definition M (A : Type) : Type := world -> outcome A * world.

Definition ret {A} (a : A) : M A := fun w => (Returns a, w).
Definition throw {A} (message : string) : M A := fun w => (Throws message, w).

Definition bind {A B} (m : M A) (k : A -> M B) : M B :=
  fun w =>
    match m w with
    | (Returns a, w') => k a w'
    | (Throws e, w') => (Throws e, w')
    end.

(** [try { m } catch (error) { h error.message }]. *)
Definition try_catch {A} (m : M A) (h : string -> M A) : M A :=
  fun w =>
    match m w with
    | (Returns a, w') => (Returns a, w')
    | (Throws e, w') => h e w'
    end.

(** [try { m } finally { c }]. *)
Definition try_finally {A} (m : M A) (c : M unit) : M A :=
  fun w =>
    match m w with
    | (o, w') =>
        match c w' with
        | (Returns _, w'') => (o, w'')
        | (Throws e, w'') => (Throws e, w'')
        end
    end.

Definition get : M world := fun w => (Returns w, w).

(** A computation that leaves the state alone: it returns or throws. *)
Definition lift {A} (o : outcome A) : M A := fun w => (o, w).
Definition modify (f : world -> world) : M unit := fun w => (Returns tt, f w).

Notation "x <~ m ;; k" := (bind m (fun x => k))
  (at level 100, m at next level, right associativity).
Notation "m ;;; k" := (bind m (fun _ => k))
  (at level 100, right associativity).

(** A stable sort with a JavaScript comparator ([Array.prototype.sort]). *)
Section Sort.
Context {A : Type} (cmp : A -> A -> Z).

Fixpoint insert_sorted (x : A) (l : list A) : list A :=
  match l with
  | [] => [x]
  | y :: l' => if (0 <? cmp y x)%Z then x :: y :: l'
               else y :: insert_sorted x l'
  end.

Definition stable_sort (l : list A) : list A :=
  fold_left (fun acc x => insert_sorted x acc) l [].
End Sort.

(* ===================================================================== *)
(** * [LLMClient] *)
(* ===================================================================== *)

(** [this.modelConfig], in the order of its keys. *)
Definition modelConfig : list (string * config) :=
  [ ("claude-sonnet-4",
      Config Anthropic "claude-sonnet-4-20250514" 60000 7 Premium
        ["comprehensive"; "detailed"; "analytical"; "thoughtful"; "advanced"]);
    ("gpt-4.1",
      Config OpenAI "gpt-4.1-2025-04-14" 32000 7 Premium
        ["advanced"; "nuanced"; "precise"; "technical"; "comprehensive"]);
    ("gpt-4o",
      Config OpenAI "gpt-4o" 8000 7 Advanced
        ["creative"; "analytical"; "technical"; "fast"]);
    ("gpt-4-turbo",
      Config OpenAI "gpt-4-turbo-preview" 4000 7 Advanced
        ["analytical"; "comprehensive"; "reliable"; "fast"]);
    ("claude-3-5-sonnet",
      Config Anthropic "claude-3-5-sonnet-20241022" 6000 7 Standard
        ["balanced"; "reliable"; "clear"]) ].

(** [a || b] on numbers: zero is falsy. *)
Definition num_or (a : option nat) (b : nat) : nat :=
  match a with
  | Some n => if n =? 0 then b else n
  | None => b
  end.

Definition num_or_N (a : option N) (b : N) : N :=
  match a with
  | Some n => if (n =? 0)%N then b else n
  | None => b
  end.

Section Engine.

(** The external text-generation capability: what the provider answers to
    the request of the [n]-th [generateResponse] call. *)
Variable external : nat -> request -> reply.

(** [Date.now()] at its [n]-th reading. *)
Variable now : nat -> Z.

(** [String(parseFloat(s))]: the text of the number read from [s]. *)
Variable parseFloat : string -> string.

(** [(ms / 1000).toFixed(1)]: a duration in seconds, with one decimal. *)
Variable seconds : Z -> string.

(** [`${Object.prototype[key]}`]: the text the engine gives, in a template
    literal, for the function or object that every object inherits under
    the name [key]. *)
Variable inheritedText : string -> string.

Definition date_now : M Z :=
  fun w => (Returns (now (ticks w)), with_ticks (S (ticks w)) w).

Definition generateOpenAIResponse (n : nat) (client : option string)
  (cfg : config) (prompt : value) (o : options)
  : outcome string * option request :=
  match client with
  | None => (Throws "OpenAI API key not configured", None)
  | Some _ =>
      let rq := Request (modelName cfg) prompt
                  (num_or_N (opt_maxTokens o) (maxTokens cfg))
                  (num_or (opt_temperature o) (temperature cfg)) false in
      (match external n rq with
       | Rejects e => Throws ("OpenAI API error: " +:+ e)
       | Replies [] =>
           Throws ("OpenAI API error: " +:+ "No response generated from OpenAI")
       | Replies (t :: _) => Returns (Js.trim t)
       end, Some rq)
  end.

Definition generateAnthropicResponse (n : nat) (client : option string)
  (cfg : config) (prompt : value) (o : options)
  : outcome string * option request :=
  match client with
  | None => (Throws "Anthropic API key not configured", None)
  | Some _ =>
      let maxT := num_or_N (opt_maxTokens o) (maxTokens cfg) in
      let shouldStream := (4000 <? maxT)%N in
      let rq := Request (modelName cfg) prompt maxT
                  (num_or (opt_temperature o) (temperature cfg)) shouldStream in
      let none := "Anthropic API error: " +:+ "No response generated from Anthropic" in
      (match external n rq with
       | Rejects e => Throws ("Anthropic API error: " +:+ e)
       | Replies texts =>
           if shouldStream then
             let responseText := Js.join "" texts in
             if String.eqb (Js.trim responseText) "" then Throws none
             else Returns (Js.trim responseText)
           else
             match texts with
             | [] => Throws none
             | t :: _ => Returns (Js.trim t)
             end
       end, Some rq)
  end.

(** How [generateResponse(modelId, prompt, options)] ends as its [n]-th
    call, and the request it hands to the provider, if it gets that far. *)
Definition respond (modelId : value) (prompt : value) (o : options)
  (w : world) : outcome string * option request :=
  let n := length (calls w) in
  match Js.own modelConfig (Js.show modelId) with
  | None =>
      if Js.inherited (Js.show modelId)
      then (Throws "Unknown provider: undefined", None)
      else (Throws ("Unknown model: " +:+ Js.show modelId), None)
  | Some cfg =>
      match cfg_provider cfg with
      | OpenAI => generateOpenAIResponse n (openaiClient w) cfg prompt o
      | Anthropic => generateAnthropicResponse n (anthropicClient w) cfg prompt o
      end
  end.

(** [generateResponse(modelId, prompt, options)], called from [at_]; the
    call is recorded. *)
Definition generateResponse (at_ : site) (modelId : value) (prompt : value)
  (o : options) : M string :=
  fun w =>
    let out := respond modelId prompt o w in
    (fst out,
     with_calls (calls w ++ [Call at_ modelId prompt (snd out) (fst out)]) w).

(** [LLMClient.setApiKeys]. *)
Definition client_setApiKeys (k : credentials) (w : world) : world :=
  let keep (key client : option string) :=
    match key with
    | Some s => if Js.truthy (Str s) then Some s else client
    | None => client
    end in
  with_clients (keep (openai k) (openaiClient w))
               (keep (anthropic k) (anthropicClient w)) k w.

Definition isModelAvailable (w : world) (modelId : string) : bool :=
  match Js.own modelConfig modelId with
  | None => false
  | Some cfg =>
      match cfg_provider cfg with
      | OpenAI => bool_decide (is_Some (openaiClient w))
      | Anthropic => bool_decide (is_Some (anthropicClient w))
      end
  end.

Definition tierOrder (t : tier) : Z :=
  match t with Premium => 0 | Advanced => 1 | Standard => 2 end.

Definition tier_of (modelId : string) : option tier :=
  cfg_tier <$> Js.own modelConfig modelId.

(** [LLMClient.getAvailableModels]: the configured models, by tier. *)
Definition client_getAvailableModels (w : world) : list string :=
  let availableModels := filter (fun m => isModelAvailable w m = true)
                           (map fst modelConfig) in
  stable_sort (fun a b =>
    (default 0 (tierOrder <$> tier_of a) - default 0 (tierOrder <$> tier_of b))%Z)
    availableModels.

Definition getFinalReviewModels (w : world) : list string :=
  let availableModels := client_getAvailableModels w in
  let of_tier t := filter (fun m => tier_of m = Some t) availableModels in
  of_tier Premium ++ of_tier Advanced ++ of_tier Standard.

Definition preferredOrder : list string :=
  ["claude-sonnet-4"; "gpt-4.1"; "gpt-4o"; "gpt-4-turbo"; "claude-3-5-sonnet"].

Definition getBestFinalReviewModel (w : world) : value :=
  let finalReviewModels := getFinalReviewModels w in
  match filter (fun p => p ∈ finalReviewModels) preferredOrder with
  | preferred :: _ => Str preferred
  | [] =>
      match finalReviewModels with
      | m :: _ => Js.or_else (Str m) Null
      | [] => Null
      end
  end.

(** [estimateTokenCount]: [Math.ceil(text.length / 4)]. *)
Definition estimateTokenCount (text : string) : N :=
  ((N.of_nat (String.length text) + 3) / 4)%N.

(** [validatePromptLength]: it throws when the estimate exceeds
    [config.maxTokens * 0.7].  Both sides are integers for the registry
    (the products are 42000, 22400, 5600, 2800 and 4200), so the comparison
    is made on tenths. *)
Definition validatePromptLength (modelId : string) (prompt : string)
  : outcome bool :=
  match Js.own modelConfig modelId with
  | None =>
      (* an inherited property has no [maxTokens]: the bound is [NaN] and
         no comparison with it holds *)
      if Js.inherited modelId then Returns true
      else Throws "Cannot read properties of undefined (reading 'maxTokens')"
  | Some cfg =>
      let estimatedTokens := estimateTokenCount prompt in
      if (maxTokens cfg * 7 <? estimatedTokens * 10)%N
      then Throws ("Prompt too long for " +:+ modelId +:+ ": "
                   +:+ pretty estimatedTokens +:+ " tokens "
                   +:+ "(max: " +:+ pretty (maxTokens cfg * 7 / 10)%N +:+ ")")
      else Returns true
  end.


(* ===================================================================== *)
(** * [PromptRefiner] *)
(* ===================================================================== *)

(** The [analysis] object; a score is kept as the text of its number. *)
Record analysis : Type := Analysis {
  clarityScore : string;
  completenessScore : string;
  specificityScore : string;
  overallScore : string;
  needsClarification : bool;
  missingElements : list string;
  potentialImprovements : list string;
  reasoning : string
}.

(** What [analyzeAndRefine] returns. *)
Inductive refinement : Type :=
| Clarify (questions : list question) (a : analysis)
| Refined (refinedPrompt : string) (a : analysis).

Definition buildAnalysisPrompt (initialPrompt : string) : string :=
  Js.lines [
    "You are an expert prompt analyst. Analyze the following user prompt for clarity, completeness, and specificity. Determine if clarification questions are needed to improve the prompt quality.";
    "";
    "USER PROMPT:";
    Js.dq +:+ initialPrompt +:+ Js.dq;
    "";
    "ANALYSIS CRITERIA:";
    "1. CLARITY: Is the request clear and unambiguous?";
    "2. COMPLETENESS: Are all necessary details provided?";
    "3. SPECIFICITY: Is the prompt specific enough to generate a high-quality response?";
    "4. CONTEXT: Is sufficient context provided for understanding the request?";
    "5. CONSTRAINTS: Are any important constraints or requirements specified?";
    "";
    "RESPOND IN THIS EXACT FORMAT:";
    "CLARITY_SCORE: [0.0-1.0]";
    "COMPLETENESS_SCORE: [0.0-1.0]";
    "SPECIFICITY_SCORE: [0.0-1.0]";
    "OVERALL_SCORE: [0.0-1.0]";
    "NEEDS_CLARIFICATION: [YES/NO]";
    "MISSING_ELEMENTS: [List specific elements that are unclear or missing]";
    "POTENTIAL_IMPROVEMENTS: [Suggest specific improvements]";
    "REASONING: [Brief explanation of the analysis]";
    "";
    "Be precise and objective in your scoring. A score below 0.6 in any major area should trigger clarification needs." ].

Definition spaces : Re.regex := Re.Star true (Re.Cls Js.is_space).
Definition digits1 : Re.regex := Re.plus true (Re.Cls Js.is_digit).

(** [/NAME:\s*([0-9.]+)/]. *)
Definition score_re (name : string) : Re.regex :=
  Re.Seq (Re.word (name +:+ ":"))
    (Re.Seq spaces
       (Re.Group (Re.plus true
          (Re.Cls (fun c => Js.is_digit c || Ascii.eqb c "."))))).

(** [/NEEDS_CLARIFICATION:\s*(YES|NO)/]. *)
Definition needs_re : Re.regex :=
  Re.Seq (Re.word "NEEDS_CLARIFICATION:")
    (Re.Seq spaces (Re.Group (Re.Alt (Re.word "YES") (Re.word "NO")))).

(** [/NAME:\s*(.+?)(?=\n[A-Z_]+:|$)/s]. *)
Definition section_re (name : string) : Re.regex :=
  Re.Seq (Re.word (name +:+ ":"))
    (Re.Seq spaces
       (Re.Seq (Re.Group (Re.plus false Re.any))
          (Re.Ahead
             (Re.Alt
                (Re.Seq (Re.chr Js.lf)
                   (Re.Seq (Re.plus true
                              (Re.Cls (fun c => Js.is_upper c || Ascii.eqb c "_")))
                      (Re.chr ":")))
                Re.Eol)))).

(** [/REASONING:\s*(.+?)$/s]. *)
Definition reasoning_re : Re.regex :=
  Re.Seq (Re.word "REASONING:")
    (Re.Seq spaces (Re.Seq (Re.Group (Re.plus false Re.any)) Re.Eol)).

(** [text.trim().split(/[,\n]/).map(item => item.trim())
         .filter(item => item.length > 0)]. *)
Definition items (text : string) : list string :=
  filter (fun item => 0 < String.length item)
    (map Js.trim
       (Js.split (fun c => Ascii.eqb c "," || Ascii.eqb c Js.lf) (Js.trim text))).

Definition parseAnalysisResult (analysisText : string) : analysis :=
  let score name :=
    match Re.capture1 (score_re name) analysisText with
    | Some m => parseFloat m
    | None => "0.5"
    end in
  let list_of name :=
    match Re.capture1 (section_re name) analysisText with
    | Some m => items m
    | None => []
    end in
  Analysis
    (score "CLARITY_SCORE")
    (score "COMPLETENESS_SCORE")
    (score "SPECIFICITY_SCORE")
    (score "OVERALL_SCORE")
    match Re.capture1 needs_re analysisText with
    | Some m => String.eqb m "YES"
    | None => true
    end
    (list_of "MISSING_ELEMENTS")
    (list_of "POTENTIAL_IMPROVEMENTS")
    match Re.capture1 reasoning_re analysisText with
    | Some m => Js.trim m
    | None => ""
    end.

(** [/QUESTION_\d+:\s*(.+?)(?=\nQUESTION_\d+:|$)/gs]. *)
Definition question_re : Re.regex :=
  Re.Seq (Re.word "QUESTION_")
    (Re.Seq digits1
       (Re.Seq (Re.chr ":")
          (Re.Seq spaces
             (Re.Seq (Re.Group (Re.plus false Re.any))
                (Re.Ahead
                   (Re.Alt
                      (Re.Seq (Re.chr Js.lf)
                         (Re.Seq (Re.word "QUESTION_")
                            (Re.Seq digits1 (Re.chr ":"))))
                      Re.Eol)))))).

(** [/QUESTION_\d+:\s*/]. *)
Definition question_label_re : Re.regex :=
  Re.Seq (Re.word "QUESTION_") (Re.Seq digits1 (Re.Seq (Re.chr ":") spaces)).

(** [/^QUESTION_?\d*:?\s*/i]. *)
Definition loose_label_re : Re.regex :=
  Re.Seq Re.Bol
    (Re.Seq (Re.word_i "QUESTION")
       (Re.Seq (Re.opt (Re.chr "_"))
          (Re.Seq (Re.Star true (Re.Cls Js.is_digit))
             (Re.Seq (Re.opt (Re.chr ":")) spaces)))).

(** The [forEach] over the matches of the primary pattern; [index] is the
    position of the match in the array of matches. *)
Fixpoint questions_of_matches (index : nat) (questionMatches : list string)
  : list question :=
  match questionMatches with
  | [] => []
  | m :: rest =>
      let questionText := Js.trim (Re.remove_first question_label_re m) in
      (if 0 <? String.length questionText
       then [Question ("q" +:+ Js.num (index + 1)) questionText]
       else [])
      ++ questions_of_matches (S index) rest
  end.

(** The fallback loop over the lines, which stops after four questions. *)
Fixpoint questions_of_lines (questionCount : nat) (lines : list string)
  : list question :=
  match lines with
  | [] => []
  | line :: rest =>
      let trimmed := Js.trim line in
      if (10 <? String.length trimmed)
         && (Js.includes trimmed "?"
             || Js.includes (Js.toLowerCase trimmed) "question")
      then
        let questionCount := S questionCount in
        Question ("q" +:+ Js.num questionCount)
          (Js.trim (Re.remove_first loose_label_re trimmed))
        :: (if 4 <=? questionCount then []
            else questions_of_lines questionCount rest)
      else questions_of_lines questionCount rest
  end.

Definition generic_question : question :=
  Question "q1"
    "Could you provide more specific details about what you want to achieve with this request?".

Definition parseClarificationQuestions (questionsText : string) : list question :=
  let questions :=
    match Re.match_all question_re questionsText with
    | Some questionMatches => questions_of_matches 0 questionMatches
    | None =>
        questions_of_lines 0 (Js.split (fun c => Ascii.eqb c Js.lf) questionsText)
    end in
  match questions with
  | [] => [generic_question]
  | _ :: _ => questions
  end.

Definition generateClarificationQuestions (initialPrompt : string)
  (a : analysis) (modelId : value) : M (list question) :=
  let clarificationPrompt := Js.lines [
    "Based on the analysis of this user prompt, generate 2-4 specific clarification questions that will help improve the prompt quality.";
    "";
    "ORIGINAL PROMPT:";
    Js.dq +:+ initialPrompt +:+ Js.dq;
    "";
    "ANALYSIS ISSUES:";
    "- Missing Elements: " +:+ Js.join ", " (missingElements a);
    "- Potential Improvements: " +:+ Js.join ", " (potentialImprovements a);
    "- Reasoning: " +:+ reasoning a;
    "";
    "GENERATE CLARIFICATION QUESTIONS:";
    "Create questions that are:";
    "1. Specific and actionable";
    "2. Help address the missing elements";
    "3. Improve clarity and completeness";
    "4. Are easy for the user to answer";
    "";
    "RESPOND IN THIS FORMAT:";
    "QUESTION_1: [Clear, specific question]";
    "QUESTION_2: [Clear, specific question]";
    "QUESTION_3: [Clear, specific question] (if needed)";
    "QUESTION_4: [Clear, specific question] (if needed)";
    "";
    "Each question should help gather essential missing information." ] in
  questionsText <~ generateResponse AtQuestions modelId (Str clarificationPrompt)
                     no_options ;;
  ret (parseClarificationQuestions questionsText).

Definition generateRefinedPrompt (originalPrompt : string) (a : analysis)
  (modelId : value) : M string :=
  let refinementPrompt := Js.lines [
    "You are tasked with making minor refinements to an already good prompt. The prompt has been analyzed and found to be mostly clear and complete, but could benefit from small improvements.";
    "";
    "ORIGINAL PROMPT:";
    Js.dq +:+ originalPrompt +:+ Js.dq;
    "";
    "ANALYSIS INSIGHTS:";
    "- Clarity Score: " +:+ clarityScore a;
    "- Completeness Score: " +:+ completenessScore a;
    "- Specificity Score: " +:+ specificityScore a;
    "- Potential Improvements: " +:+ Js.join ", " (potentialImprovements a);
    "";
    "REFINEMENT TASK:";
    "Make minimal, strategic improvements to enhance clarity and effectiveness while preserving the original intent. Only make changes that add significant value.";
    "";
    "If the prompt is already excellent, you may return it with only minor polish or unchanged.";
    "";
    "Refined prompt:" ] in
  generateResponse AtDirectRefinement modelId (Str refinementPrompt) no_options.

(** The first element of an array of strings, [undefined] when it is empty. *)
Definition first_model (l : list string) : value :=
  match l with m :: _ => Str m | [] => Undefined end.

(** [analyzeAndRefine(initialPrompt, llmClient)]. *)
Definition analyzeAndRefine (initialPrompt : string) : M refinement :=
  let analysisPrompt := buildAnalysisPrompt initialPrompt in
  w <~ get ;;
  let availableModels := client_getAvailableModels w in
  match availableModels with
  | [] => throw "No LLM models available for prompt analysis"
  | _ :: _ =>
      let analysisModel := first_model availableModels in
      analysisResult <~ generateResponse AtAnalysis analysisModel
                          (Str analysisPrompt) no_options ;;
      let a := parseAnalysisResult analysisResult in
      if needsClarification a then
        questions <~ generateClarificationQuestions initialPrompt a analysisModel ;;
        ret (Clarify questions a)
      else
        refinedPrompt <~ generateRefinedPrompt initialPrompt a analysisModel ;;
        ret (Refined refinedPrompt a)
  end.

(** The [answers] object maps question ids to the texts the user typed. *)
Definition answers : Type := list (string * string).

(** What [answers[id]] yields: the text the user typed under [id]; or,
    when the object has no such entry of its own, the function or object
    it inherits from [Object.prototype] under that name; or [undefined]. *)
Inductive lookup : Type :=
| Own (text : string)
| Inherited
| Missing.

(** [answers[id]]. *)
Definition answer_of (ans : answers) (id : string) : lookup :=
  match Js.own ans id with
  | Some s => Own s
  | None => if Js.inherited id then Inherited else Missing
  end.

(** [refineWithClarifications(originalPrompt, questions, answers, llmClient)]. *)
Definition refineWithClarifications (originalPrompt : string)
  (questions : list question) (ans : answers) : M string :=
  let clarificationDetails :=
    Js.join (Js.nl +:+ Js.nl)
      (map (fun q =>
              (* [answers[q.id] || '']: an inherited function or object is
                 truthy *)
              let answer :=
                match answer_of ans (q_id q) with
                | Own text => text
                | Inherited => inheritedText (q_id q)
                | Missing => ""
                end in
              "Q: " +:+ q_question q +:+ Js.nl +:+ "A: " +:+ answer)
         questions) in
  let refinementPrompt := Js.lines [
    "You are tasked with refining a user's prompt based on their answers to clarification questions. Create a comprehensive, clear, and specific prompt that incorporates all the provided information.";
    "";
    "ORIGINAL PROMPT:";
    Js.dq +:+ originalPrompt +:+ Js.dq;
    "";
    "CLARIFICATION Q&A:";
    clarificationDetails;
    "";
    "REFINED PROMPT REQUIREMENTS:";
    "1. Incorporate all relevant information from the Q&A";
    "2. Maintain the user's original intent";
    "3. Make the prompt clear, specific, and actionable";
    "4. Include all necessary context and constraints";
    "5. Ensure the refined prompt will generate high-quality responses";
    "";
    "Provide the refined prompt:" ] in
  w <~ get ;;
  let modelId := first_model (client_getAvailableModels w) in
  generateResponse AtClarifiedRefinement modelId (Str refinementPrompt) no_options.

(** The body of the loop of [validateClarificationAnswers] for one
    question: the message it pushes, if any.  An inherited function or
    object is truthy and has no [trim], so [answer.trim()] throws a
    [TypeError]. *)
Definition answer_error (ans : answers) (q : question)
  : outcome (option string) :=
  match answer_of ans (q_id q) with
  | Own answer =>
      Returns
        (if negb (Js.truthy (Str answer))
            || (String.length (Js.trim answer) =? 0)
         then Some ("Please answer: " +:+ q_question q)
         else if String.length (Js.trim answer) <? 3
         then Some ("Please provide a more detailed answer for: "
                    +:+ q_question q)
         else None)
  | Missing => Returns (Some ("Please answer: " +:+ q_question q))
  | Inherited => Throws "answer.trim is not a function"
  end.

(** [for (const question of questions) { ... errors.push(...) }]. *)
Fixpoint validation_loop (ans : answers) (questions : list question)
  (errors : list string) : outcome (list string) :=
  match questions with
  | [] => Returns errors
  | question :: rest =>
      match answer_error ans question with
      | Returns (Some message) => validation_loop ans rest (errors ++ [message])
      | Returns None => validation_loop ans rest errors
      | Throws e => Throws e
      end
  end.

(** [validateClarificationAnswers(questions, answers)]. *)
Definition validateClarificationAnswers (questions : list question)
  (ans : answers) : outcome (list string) :=
  validation_loop ans questions [].

(* ===================================================================== *)
(** * [RefinementOrchestrator]: models and handoff strategies *)
(* ===================================================================== *)

(** [this.availableModels]. *)
Definition availableModels : list descriptor :=
  [ Descriptor "gpt-4o" "GPT-4o" OpenAI ["creative"; "analytical"; "technical"];
    Descriptor "gpt-4-turbo" "GPT-4 Turbo" OpenAI
      ["analytical"; "comprehensive"; "fast"];
    Descriptor "gpt-4.1" "GPT-4.1" OpenAI ["advanced"; "nuanced"; "precise"];
    Descriptor "claude-sonnet-4" "Claude 4 Sonnet" Anthropic
      ["thoughtful"; "detailed"; "analytical"];
    Descriptor "claude-3-5-sonnet" "Claude 3.5 Sonnet" Anthropic
      ["balanced"; "reliable"; "clear"] ].

(** [updateAvailableModels(apiKeys)]. *)
Definition updateAvailableModels (k : credentials) (w : world) : world :=
  with_enabledModels
    (Some (filter (fun m => is_Some (key_of k (d_provider m))) availableModels)) w.

(** [getAvailableModels()]: [this.enabledModels || this.availableModels];
    an array, even an empty one, is truthy. *)
Definition getAvailableModels (w : world) : list descriptor :=
  match enabledModels w with
  | Some enabled => enabled
  | None => availableModels
  end.

(** The key of one provider as [setApiKeys] validates it. *)
Definition validated_key (key : option string) (prefix : string) : option string :=
  match key with
  | Some k =>
      if Js.truthy (Str k) && Js.startsWith (Js.trim k) prefix
      then Some (Js.trim k) else None
  | None => None
  end.

(** [setApiKeys(apiKeys)]; it returns the names of the enabled providers. *)
Definition setApiKeys (k : credentials) : M (list string) :=
  let validatedKeys :=
    Credentials (validated_key (openai k) "sk-")
                (validated_key (anthropic k) "sk-ant-") in
  modify (client_setApiKeys validatedKeys) ;;;
  modify (updateAvailableModels validatedKeys) ;;;
  ret ((if openai validatedKeys is Some _ then ["openai"] else [])
       ++ (if anthropic validatedKeys is Some _ then ["anthropic"] else [])).

(** [getModelById(modelId)]. *)
Definition getModelById (modelId : value) : option descriptor :=
  head (filter (fun m => Js.is_str modelId (d_id m) = true) availableModels).

(** [selectModelByCapabilities(requiredCapabilities, excludeModel)]. *)
Definition selectModelByCapabilities (w : world)
  (requiredCapabilities : list string) (excludeModel : value) : value :=
  let matching (m : descriptor) : list string :=
    filter (fun cap => cap ∈ capabilities m) requiredCapabilities in
  let candidateModels :=
    filter (fun m =>
              negb (Js.truthy excludeModel && Js.is_str excludeModel (d_id m))
              && negb (length (matching m) =? 0) = true)
      (getAvailableModels w) in
  match candidateModels with
  | [] =>
      let fallbackModels :=
        filter (fun m => Js.is_str excludeModel (d_id m) = false)
          (getAvailableModels w) in
      match fallbackModels with
      | m :: _ => Str (d_id m)
      | [] =>
          match getAvailableModels w with
          | m :: _ => Str (d_id m)
          | [] => Undefined
          end
      end
  | _ :: _ =>
      let scoredModels := map (fun m => (m, length (matching m))) candidateModels in
      match stable_sort (fun a b => (Z.of_nat (snd b) - Z.of_nat (snd a))%Z)
              scoredModels with
      | (m, _) :: _ => Str (d_id m)
      | [] => Undefined
      end
  end.

(** The entries of [this.handoffStrategies]. *)
Inductive strategy : Type :=
| cross_provider
| capability_progression
| model_specialization.

#[global] Instance strategy_eq_dec : EqDecision strategy.
Proof. solve_decision. Defined.

(** [this.handoffStrategies[name]]. *)
Definition handoffStrategies (name : string) : option strategy :=
  Js.own [ ("cross_provider", cross_provider);
           ("capability_progression", capability_progression);
           ("model_specialization", model_specialization) ] name.

(** [arr[i % arr.length]?.id]. *)
Definition pick (arr : list descriptor) (i : nat) : value :=
  match arr !! (i mod length arr) with
  | Some m => Str (d_id m)
  | None => Undefined
  end.

Definition phaseMap : list (string * list string) :=
  [ ("initial", ["creative"; "comprehensive"]);
    ("critique", ["analytical"; "thoughtful"]);
    ("improvement", ["precise"; "nuanced"]);
    ("final", ["detailed"; "reliable"]) ].

Definition specializationMap : list (string * string) :=
  [ ("creative_generation", "gpt-4o");
    ("analytical_critique", "claude-sonnet-4");
    ("technical_improvement", "gpt-4.1");
    ("comprehensive_review", "claude-sonnet-4") ].

Definition phaseToSpecialization : list (string * string) :=
  [ ("initial", "creative_generation");
    ("critique", "analytical_critique");
    ("improvement", "technical_improvement");
    ("final", "comprehensive_review") ].

(** [strategy.getNextModel(currentModel, iteration, totalIterations, phase)]. *)
Definition getNextModel (st : strategy) (w : world) (currentModel : value)
  (iteration totalIterations : nat) (phase : string) : value :=
  match st with
  | cross_provider =>
      let openaiModels :=
        filter (fun m => d_provider m = OpenAI) availableModels in
      let anthropicModels :=
        filter (fun m => d_provider m = Anthropic) availableModels in
      let currentProvider := d_provider <$> getModelById currentModel in
      if bool_decide (currentProvider = Some OpenAI)
      then pick anthropicModels iteration
      else pick openaiModels iteration
  | capability_progression =>
      (* [phaseMap[phase] || ['balanced']]; for an inherited property see
         [nextModel] below *)
      let requiredCapabilities := default ["balanced"] (Js.own phaseMap phase) in
      selectModelByCapabilities w requiredCapabilities currentModel
  | model_specialization =>
      (* [specializationMap[phaseToSpecialization[phase]] || currentModel];
         an inherited property of [phaseToSpecialization] is a function or
         an object, whose text is no key of [specializationMap] *)
      match Js.own phaseToSpecialization phase with
      | Some specialization =>
          Js.or_else
            (match Js.own specializationMap specialization with
             | Some m => Str m
             | None => Undefined
             end) currentModel
      | None => currentModel
      end
  end.

(** [handoffStrategy.getNextModel(...)] where [handoffStrategy] is
    [this.handoffStrategies[name]]: a name that is no strategy makes the
    call throw a [TypeError].  Under [capability_progression] a phase that
    names an inherited property makes [requiredCapabilities] a function or
    an object without [some]: the filter of [selectModelByCapabilities]
    throws at the first model it does not exclude, and selects as with no
    capability when there is none. *)
Definition nextModel (name : string) (currentModel : value)
  (iteration totalIterations : nat) (phase : string) : M value :=
  match handoffStrategies name with
  | Some st =>
      w <~ get ;;
      if bool_decide (st = capability_progression) && Js.inherited phase
      then
        if forallb (fun m => Js.truthy currentModel
                             && Js.is_str currentModel (d_id m))
             (getAvailableModels w)
        then ret (selectModelByCapabilities w [] currentModel)
        else throw "requiredCapabilities.some is not a function"
      else
        ret (getNextModel st w currentModel iteration totalIterations phase)
  | None =>
      if Js.inherited name
      then throw "handoffStrategy.getNextModel is not a function"
      else throw "Cannot read properties of undefined (reading 'getNextModel')"
  end.

(* ===================================================================== *)
(** * [RefinementOrchestrator]: the prompts of the pipeline *)
(* ===================================================================== *)

(** [${iteration-1}]. *)
Definition pred_text (iteration : nat) : string :=
  match iteration with
  | 0 => "-1"
  | S n => Js.num n
  end.

(** [iteration <= totalIterations/2]. *)
Definition first_half (iteration totalIterations : nat) : bool :=
  2 * iteration <=? totalIterations.

(** [buildCritiquePrompt(originalPrompt, currentResponse, iteration,
    totalIterations, iterationHistory)]. *)
Definition buildCritiquePrompt (originalPrompt : value) (currentResponse : string)
  (iteration totalIterations : nat) (history : list entry) : string :=
  let previousCritiques :=
    Js.join Js.nl
      (map (fun h => "Iteration " +:+ Js.num (h_iteration h) +:+ ": "
                     +:+ Js.substring0 200 (h_output h) +:+ "...")
         (filter (fun h => h_type h = "critique") history)) in
  Js.lines [
    "You are an expert content critic and improvement specialist conducting iteration "
      +:+ Js.num iteration +:+ " of " +:+ Js.num totalIterations
      +:+ " in a collaborative refinement process.";
    "";
    "**Original Request:**";
    Js.show originalPrompt;
    "";
    "**Current Response (After " +:+ pred_text iteration +:+ " iterations):**";
    currentResponse;
    "";
    (if Js.truthy (Str previousCritiques)
     then "**Previous Critique Themes:**" +:+ Js.nl +:+ previousCritiques +:+ Js.nl
     else "");
    "";
    "**Your Task for Iteration " +:+ Js.num iteration +:+ "/"
      +:+ Js.num totalIterations +:+ ":**";
    "1. Evaluate how well the response addresses the original request";
    "2. Identify specific areas for improvement not covered in previous iterations";
    "3. Focus on "
      +:+ (if first_half iteration totalIterations
           then "structural and content improvements"
           else "refinement and polish");
    "4. Suggest concrete changes to enhance quality, clarity, accuracy, and completeness";
    "5. Consider the target audience and purpose";
    "6. Prioritize the most impactful improvements for this iteration";
    "";
    "**Provide your critique in this format:**";
    "STRENGTHS: [What the response does well]";
    "AREAS FOR IMPROVEMENT: [Specific issues to address that haven't been covered before]";
    "CONCRETE SUGGESTIONS: [Actionable improvements to implement]";
    "PRIORITY: [Rank improvements by impact - focus on top 2-3]";
    "ITERATION FOCUS: [What should this iteration specifically achieve?]";
    "";
    "Be specific, constructive, and focus on improvements that will have the greatest positive impact while building on previous iterations." ].

(** [buildImprovementPrompt(originalPrompt, currentResponse, critique,
    iteration, totalIterations, iterationHistory)]. *)
Definition buildImprovementPrompt (originalPrompt : value)
  (currentResponse critique : string) (iteration totalIterations : nat)
  (history : list entry) : string :=
  let progressContext :=
    if first_half iteration totalIterations
    then "major structural and content improvements"
    else "refinement, polish, and final optimization" in
  Js.lines [
    "You are implementing iteration " +:+ Js.num iteration +:+ " of "
      +:+ Js.num totalIterations
      +:+ " in a collaborative refinement process. Focus on "
      +:+ progressContext +:+ ".";
    "";
    "**Original Request:**";
    Js.show originalPrompt;
    "";
    "**Current Response:**";
    currentResponse;
    "";
    "**Expert Feedback for Iteration " +:+ Js.num iteration +:+ ":**";
    critique;
    "";
    "**Iteration Context:**";
    "- This is iteration " +:+ Js.num iteration +:+ " of " +:+ Js.num totalIterations;
    "- " +:+ (if first_half iteration totalIterations
              then "Focus on major improvements and content development"
              else "Focus on refinement, clarity, and polish");
    "- Previous iterations have already addressed earlier feedback";
    "";
    "**Your Task:**";
    "1. Implement the suggested improvements from the expert feedback";
    "2. Maintain the strengths and positive aspects of the current response";
    "3. Ensure the improved response fully addresses the original request";
    "4. " +:+ (if iteration =? totalIterations
               then "Prepare for final review - ensure completeness"
               else "Set up for next iteration");
    "5. Make the content more engaging, clear, and valuable";
    "";
    "**Important Guidelines:**";
    "- Focus on the highest-priority improvements first";
    "- Maintain consistency in tone and style throughout";
    "- Ensure factual accuracy in any additions or changes";
    "- Keep the response well-organized and easy to follow";
    "- Build upon the work of previous iterations";
    "";
    "Provide the improved response:" ].

(** The keys of [modelSummary], in the order of their first use.  (A key
    that is the text of an array index would come first; no model id of the
    registry is one.) *)
Fixpoint summary_keys (seen : list string) (history : list entry) : list string :=
  match history with
  | [] => []
  | h :: rest =>
      let k := Js.show (h_model h) in
      if bool_decide (k ∈ seen) then summary_keys seen rest
      else k :: summary_keys (k :: seen) rest
  end.

(** [buildFinalReviewPrompt(originalPrompt, finalResponse,
    completedIterations, iterationHistory)]. *)
Definition buildFinalReviewPrompt (originalPrompt : value) (finalResponse : string)
  (completed : nat) (history : list entry) : string :=
  Js.lines [
    "You are conducting the final quality review of a collaboratively refined response that has undergone "
      +:+ Js.num completed +:+ " iterations of improvement.";
    "";
    "**Original Request:**";
    Js.show originalPrompt;
    "";
    "**Final Response After " +:+ Js.num completed +:+ " Iterations:**";
    finalResponse;
    "";
    "**Collaborative Process Summary:**";
    "- Models involved: " +:+ Js.join ", " (summary_keys [] history);
    "- Total refinement steps: " +:+ Js.num (length history);
    "- Completed iterations: " +:+ Js.num completed;
    "";
    "**Your Task:**";
    "Provide the final, polished version that:";
    "1. Fully addresses all aspects of the original request";
    "2. Is clear, engaging, and well-structured";
    "3. Contains accurate and valuable information";
    "4. Uses appropriate tone and style";
    "5. Is free of errors and inconsistencies";
    "6. Represents the best possible outcome from collaborative refinement";
    "";
    "**Quality Standards:**";
    "- Professional-grade output ready for immediate use";
    "- Incorporates insights from all previous iterations";
    "- Demonstrates clear improvement over the original response";
    "- Meets or exceeds user expectations";
    "";
    "If the response is already excellent, you may make only minor polish improvements. If significant issues remain despite the iterations, provide a corrected version with explanation.";
    "";
    "Final Response:" ].

(* ===================================================================== *)
(** * [RefinementOrchestrator]: sessions and the pipeline *)
(* ===================================================================== *)

(** [sendProgressUpdate(session, updateData)]. *)
Definition sendProgressUpdate (s : session) (u : update) : M unit :=
  match progressCallback s with
  | Some callback =>
      timestamp <~ date_now ;;
      modify (fun w =>
        with_events
          (events w ++
           [Progress callback (id s) timestamp (up_phase u) (up_message u)
              (up_currentIteration u) (up_totalIterations u) (up_model u)
              (up_completed u) (up_result u)]) w)
  | None => ret tt
  end.

(** [trackModelUsage(session, modelId, operationType)]. *)
Definition trackModelUsage (s : session) (modelId : value)
  (operationType : string) : session :=
  let stats :=
    match modelUsageStats s !! modelId with
    | Some stats => stats
    | None => Usage modelId ∅ 0
    end in
  let stats' :=
    Usage (u_model stats)
      (<[operationType := default 0 (operations stats !! operationType) + 1]>
         (operations stats))
      (totalUsage stats + 1) in
  set_modelUsageStats (<[modelId := stats']> (modelUsageStats s)) s.

(** The two steps [generateProcessSteps] pushes for each iteration. *)
Fixpoint iteration_steps (s : session) (count i : nat) : M (list step) :=
  match count with
  | 0 => ret []
  | S count' =>
      next <~ nextModel (handoffStrategy s) (primaryModel (models s)) i
                (targetIterations s) "critique" ;;
      let critiqueModel := Js.or_else next (refinementModel (models s)) in
      next' <~ nextModel (handoffStrategy s) critiqueModel i
                 (targetIterations s) "improvement" ;;
      let improvementModel := Js.or_else next' (primaryModel (models s)) in
      let of_n := Js.num i +:+ "/" +:+ Js.num (targetIterations s) in
      rest <~ iteration_steps s count' (S i) ;;
      ret (Step ("iteration-" +:+ Js.num i +:+ "-critique") "critique"
             ("Iteration " +:+ of_n +:+ ": Critique ("
              +:+ Js.show critiqueModel +:+ ")")
             ("Analyzing the response and identifying improvements using "
              +:+ Js.show critiqueModel)
             "pending" i (Some critiqueModel)
           :: Step ("iteration-" +:+ Js.num i +:+ "-improve") "iterate"
                ("Iteration " +:+ of_n +:+ ": Improve ("
                 +:+ Js.show improvementModel +:+ ")")
                ("Implementing the suggested improvements using "
                 +:+ Js.show improvementModel)
                "pending" i (Some improvementModel)
           :: rest)
  end.

(** [generateProcessSteps(session)]. *)
Definition generateProcessSteps (s : session) : M (list step) :=
  let initial :=
    Step "initial-generation" "generate"
      ("Generate Initial Response (" +:+ Js.show (primaryModel (models s)) +:+ ")")
      "Creating the first response using the primary model" "pending" 0 None in
  middle <~ iteration_steps s (targetIterations s) 1 ;;
  w <~ get ;;
  let finalModel := selectModelByCapabilities w ["detailed"; "comprehensive"] Null in
  ret (initial :: middle ++
       [Step "final-review" "refine"
          ("Final Quality Review (" +:+ Js.show finalModel +:+ ")")
          "Ensuring the output meets all requirements with comprehensive review"
          "pending" (targetIterations s + 1) (Some finalModel)]).

(** The variables of [executeCollaborativeProcess] that its loop updates:
    the session object, [currentResponse] and the local [iterationHistory]. *)
Record progress_state : Type := State {
  st_session : session;
  st_response : string;
  st_history : list entry
}.

(** The body of the loop of [executeCollaborativeProcess]. *)
Definition iteration (i : nat) (st : progress_state) : M progress_state :=
  let s := set_currentIteration i (st_session st) in
  let total := targetIterations s in
  sendProgressUpdate s
    (Update "iteration_start"
       ("Starting iteration " +:+ Js.num i +:+ " of " +:+ Js.num total)
       i total None false None) ;;;
  next <~ nextModel (handoffStrategy s) (primaryModel (models s)) i total
            "critique" ;;
  let critiqueModel := Js.or_else next (refinementModel (models s)) in
  sendProgressUpdate s
    (Update "critique" ("Analyzing response with " +:+ Js.show critiqueModel)
       i total (Some critiqueModel) false None) ;;;
  let critiquePrompt :=
    buildCritiquePrompt (refinedPrompt s) (st_response st) i total
      (st_history st) in
  critique <~ generateResponse (AtCritique i) critiqueModel (Str critiquePrompt)
                no_options ;;
  let s := trackModelUsage s critiqueModel "critique" in
  timestamp <~ date_now ;;
  let history :=
    st_history st ++
    [Entry i critiqueModel "critique" (Str critiquePrompt) critique timestamp] in
  next' <~ nextModel (handoffStrategy s) critiqueModel i total "improvement" ;;
  let improvementModel := Js.or_else next' (primaryModel (models s)) in
  sendProgressUpdate s
    (Update "improvement"
       ("Implementing improvements with " +:+ Js.show improvementModel)
       i total (Some improvementModel) false None) ;;;
  let improvementPrompt :=
    buildImprovementPrompt (refinedPrompt s) (st_response st) critique i total
      history in
  currentResponse <~ generateResponse (AtImprovement i) improvementModel
                        (Str improvementPrompt) no_options ;;
  let s := trackModelUsage s improvementModel "improvement" in
  timestamp' <~ date_now ;;
  let history :=
    history ++
    [Entry i improvementModel "improvement" (Str improvementPrompt)
       currentResponse timestamp'] in
  ret (State (set_completedIterations i s) currentResponse history).

(** [for (let i = first; i <= session.targetIterations; i++)], with [count]
    the number of iterations left. *)
Fixpoint iterations (count i : nat) (st : progress_state) : M progress_state :=
  match count with
  | 0 => ret st
  | S count' => st' <~ iteration i st ;; iterations count' (S i) st'
  end.

(** The [try] block of [executeCollaborativeProcess]; besides the result it
    hands back the session object as the block leaves it. *)
Definition collaborate (s : session) : M (result * session) :=
  let total := targetIterations s in
  let primary := primaryModel (models s) in
  sendProgressUpdate s
    (Update "starting"
       ("Starting " +:+ Js.num total +:+ " iterations with "
        +:+ handoffStrategy s +:+ " strategy")
       0 total None false None) ;;;
  sendProgressUpdate s
    (Update "initial_generation"
       ("Generating initial response with " +:+ Js.show primary)
       0 total (Some primary) false None) ;;;
  currentResponse <~ generateResponse AtInitial primary (refinedPrompt s)
                        no_options ;;
  let s := trackModelUsage s primary "initial_generation" in
  timestamp <~ date_now ;;
  let history :=
    [Entry 0 primary "initial_generation" (refinedPrompt s) currentResponse
       timestamp] in
  st <~ iterations total 1 (State s currentResponse history) ;;
  let s := st_session st in
  w <~ get ;;
  let finalModel := Js.or_else (finalReviewModel s) (getBestFinalReviewModel w) in
  sendProgressUpdate s
    (Update "final_review"
       ("Performing final review with " +:+ Js.show finalModel)
       (targetIterations s + 1) (targetIterations s) (Some finalModel)
       false None) ;;;
  let finalReviewPrompt :=
    buildFinalReviewPrompt (refinedPrompt s) (st_response st)
      (completedIterations s) (st_history st) in
  finalResponse <~ generateResponse AtFinalReview finalModel
                      (Str finalReviewPrompt) no_options ;;
  let s := trackModelUsage s finalModel "final_review" in
  finished <~ date_now ;;
  let res :=
    Result (originalPrompt s) (refinedPrompt s) finalResponse (st_history st)
      (finished - startTime s)%Z (targetIterations s) (completedIterations s)
      (handoffStrategy s) (modelUsageStats s) in
  sendProgressUpdate s
    (Update "completed"
       ("Refinement completed in " +:+ seconds (sessionDuration res) +:+ "s")
       (completedIterations s) (targetIterations s) None true (Some res)) ;;;
  ret (res, s).

(** [this.activeSessions.delete(id)]. *)
Definition forget (sessionId : string) : M unit :=
  modify (fun w => with_activeSessions (delete sessionId (activeSessions w)) w).

(** A field assignment on the session object stored under [sessionId]. *)
Definition assign (sessionId : string) (f : session -> session) : M unit :=
  modify (fun w => with_activeSessions (alter f sessionId (activeSessions w)) w).

(** [executeCollaborativeProcess(session)].  It works on the session object
    it is given and removes the entry of its id when it ends, whatever the
    outcome; nothing reads that entry in between. *)
Definition executeCollaborativeProcess (s : session) : M result :=
  try_finally
    (try_catch (rs <~ collaborate s ;; ret (fst rs)) (fun e => throw e))
    (forget (id s)).

(** [startCollaborativeGeneration(sessionId)]. *)
Definition startCollaborativeGeneration (sessionId : string) : M response :=
  w <~ get ;;
  match activeSessions w !! sessionId with
  | None => ret (Failure "Session not found")
  | Some s =>
      try_catch
        (steps <~ generateProcessSteps s ;;
         assign sessionId (set_steps steps) ;;;
         res <~ executeCollaborativeProcess (set_steps steps s) ;;
         ret (Complete sessionId res))
        (fun e => forget sessionId ;;; ret (Failure e))
  end.

(** The session object [startRefinementProcess] creates; [final] is the
    final review model, chosen by the caller or selected automatically. *)
Definition new_session (sessionId : string) (initialPrompt : string)
  (sel : selection) (final : value) (iterations : nat) (started : Z)
  (callback : option nat) : session :=
  Session sessionId initialPrompt Null
    (Selection (primaryModel sel) (refinementModel sel) final
       (sel_handoffStrategy sel))
    iterations 0 0 [] started
    (Js.show (Js.or_else (sel_handoffStrategy sel) (Str "model_specialization")))
    [] ∅ final callback None.

(** [startRefinementProcess(initialPrompt, models, iterations,
    progressCallback)]; [sessionId] is what [uuidv4()] yields. *)
Definition startRefinementProcess (sessionId : string) (initialPrompt : string)
  (sel : selection) (iterations : nat) (callback : option nat) : M response :=
  w <~ get ;;
  let final :=
    if Js.truthy (sel_finalReviewModel sel) then sel_finalReviewModel sel
    else getBestFinalReviewModel w in
  started <~ date_now ;;
  let s := new_session sessionId initialPrompt sel final iterations started
             callback in
  modify (fun w => with_activeSessions (<[sessionId := s]> (activeSessions w)) w) ;;;
  try_catch
    (refinementResult <~ analyzeAndRefine initialPrompt ;;
     match refinementResult with
     | Clarify questions _ =>
         assign sessionId (set_pendingClarifications (Some questions)) ;;;
         ret (NeedsClarification sessionId questions)
     | Refined refined _ =>
         assign sessionId (set_refinedPrompt (Str refined)) ;;;
         startCollaborativeGeneration sessionId
     end)
    (fun e => forget sessionId ;;; ret (Failure e)).

(** [submitClarification(sessionId, answers, progressCallback)]. *)
Definition submitClarification (sessionId : string) (ans : answers)
  (callback : option nat) : M response :=
  w <~ get ;;
  match activeSessions w !! sessionId with
  | None => ret (Failure "Session not found")
  | Some s0 =>
      match pendingClarifications s0 with
      | None => ret (Failure "No pending clarifications for this session")
      | Some pending =>
          try_catch
            (let s :=
               match callback with
               | Some _ => set_progressCallback callback s0
               | None => s0
               end in
             match callback with
             | Some _ => assign sessionId (set_progressCallback callback)
             | None => ret tt
             end ;;;
             sendProgressUpdate s
               (Update "processing_clarifications"
                  "Processing your clarification answers" 0
                  (targetIterations s) None false None) ;;;
             validationErrors <~ lift (validateClarificationAnswers pending ans) ;;
             match validationErrors with
             | _ :: _ =>
                 ret (Failure ("Validation errors: "
                               +:+ Js.join ", " validationErrors))
             | [] =>
                 refined <~ refineWithClarifications (originalPrompt s) pending ans ;;
                 assign sessionId
                   (fun s => set_pendingClarifications None
                               (set_refinedPrompt (Str refined) s)) ;;;
                 startCollaborativeGeneration sessionId
             end)
            (fun e => ret (Failure e))
      end
  end.

(* ===================================================================== *)
(** * Reasoning about computations *)
(* ===================================================================== *)

(** [post m w P Q]: run from [w], [m] either returns a value and a state
    that satisfy [P], or throws a message in a state that satisfy [Q]. *)
Definition post {A} (m : M A) (w : world)
  (P : A -> world -> Prop) (Q : string -> world -> Prop) : Prop :=
  match m w with
  | (Returns a, w') => P a w'
  | (Throws e, w') => Q e w'
  end.

Lemma post_ret {A} (a : A) w P Q : P a w -> post (ret a) w P Q.
Proof. trivial. Qed.

Lemma post_throw {A} e w (P : A -> world -> Prop) Q :
  Q e w -> post (throw e) w P Q.
Proof. trivial. Qed.

Lemma post_bind {A B} (m : M A) (k : A -> M B) w P Q :
  post m w (fun a w' => post (k a) w' P Q) Q -> post (bind m k) w P Q.
Proof.
  unfold post, bind. destruct (m w) as [[a|e] w']; trivial.
Qed.

Lemma post_mono {A} (m : M A) w (P P' : A -> world -> Prop)
  (Q Q' : string -> world -> Prop) :
  post m w P Q ->
  (forall a w', P a w' -> P' a w') ->
  (forall e w', Q e w' -> Q' e w') ->
  post m w P' Q'.
Proof.
  unfold post. destruct (m w) as [[a|e] w']; auto.
Qed.

Lemma post_try_catch {A} (m : M A) (h : string -> M A) w P Q :
  post m w P (fun e w' => post (h e) w' P Q) -> post (try_catch m h) w P Q.
Proof.
  unfold post, try_catch. destruct (m w) as [[a|e] w']; trivial.
Qed.

Lemma post_try_finally {A} (m : M A) (c : M unit) w P Q :
  post m w (fun a w' => post c w' (fun _ => P a) Q)
           (fun e w' => post c w' (fun _ => Q e) Q) ->
  post (try_finally m c) w P Q.
Proof.
  unfold post, try_finally. destruct (m w) as [[a|e] w'];
    destruct (c w') as [[[]|e'] w'']; trivial.
Qed.

Lemma post_get w (P : world -> world -> Prop) Q : P w w -> post get w P Q.
Proof. trivial. Qed.

Lemma post_lift {A} (o : outcome A) w (P : A -> world -> Prop) Q :
  match o with Returns a => P a w | Throws e => Q e w end -> post (lift o) w P Q.
Proof. unfold post, lift. now destruct o. Qed.

Lemma post_modify f w (P : unit -> world -> Prop) Q :
  P tt (f w) -> post (modify f) w P Q.
Proof. trivial. Qed.

Lemma post_elim {A} (m : M A) w P Q a w' :
  post m w P Q -> m w = (Returns a, w') -> P a w'.
Proof. unfold post. intros H E. now rewrite E in H. Qed.

Lemma post_elim_throw {A} (m : M A) w P Q e w' :
  post m w P Q -> m w = (Throws e, w') -> Q e w'.
Proof. unfold post. intros H E. now rewrite E in H. Qed.

(** Two states that differ at most in the progress updates delivered and
    in the readings of the clock. *)
Definition quiet (w w' : world) : Prop :=
  openaiClient w' = openaiClient w /\
  anthropicClient w' = anthropicClient w /\
  apiKeys w' = apiKeys w /\
  enabledModels w' = enabledModels w /\
  activeSessions w' = activeSessions w /\
  calls w' = calls w.

Lemma quiet_refl w : quiet w w.
Proof. repeat split. Qed.

Lemma quiet_trans w1 w2 w3 : quiet w1 w2 -> quiet w2 w3 -> quiet w1 w3.
Proof. unfold quiet. intuition congruence. Qed.

Lemma post_date_now w (P : Z -> world -> Prop) Q :
  (forall t w', quiet w w' -> P t w') -> post date_now w P Q.
Proof. intros H. apply H. repeat split. Qed.

Lemma post_sendProgressUpdate s u w (P : unit -> world -> Prop) Q :
  (forall w', quiet w w' -> P tt w') -> post (sendProgressUpdate s u) w P Q.
Proof.
  intros H. unfold sendProgressUpdate. destruct (progressCallback s).
  - apply post_bind, post_date_now. intros t w' Hq. apply post_modify.
    apply H. destruct Hq as (?&?&?&?&?&?). repeat split; assumption.
  - apply post_ret, H, quiet_refl.
Qed.

(** Choosing a model reads the state and leaves it as it is. *)
Lemma post_nextModel name current i n phase w (P : value -> world -> Prop) Q :
  (forall v, P v w) -> (forall e, Q e w) ->
  post (nextModel name current i n phase) w P Q.
Proof.
  intros HP HQ. unfold nextModel.
  destruct (handoffStrategies name).
  - apply post_bind, post_get.
    destruct (_ && _); [destruct (forallb _ _)|]; (apply post_ret || apply post_throw); auto.
  - destruct (Js.inherited name); apply post_throw; auto.
Qed.

(** The state after a call of the generation service that ended as [c]
    records. *)
Definition record (c : call) (w : world) : world := with_calls (calls w ++ [c]) w.

Lemma post_generateResponse at_ modelId prompt o w (P : string -> world -> Prop) Q :
  (forall c a, c_site c = at_ -> c_model c = modelId -> c_prompt c = prompt ->
               c_outcome c = Returns a -> P a (record c w)) ->
  (forall c e, c_site c = at_ -> c_model c = modelId -> c_prompt c = prompt ->
               c_outcome c = Throws e -> Q e (record c w)) ->
  post (generateResponse at_ modelId prompt o) w P Q.
Proof.
  intros HP HQ. unfold post, generateResponse.
  destruct (respond modelId prompt o w) as [[a|e] rq]; simpl.
  - now apply HP.
  - now apply HQ.
Qed.

(** What a run adds to the record of calls. *)
Definition added (w w' : world) (l : list call) : Prop :=
  calls w' = calls w ++ l.

Lemma added_nil w w' : quiet w w' -> added w w' [].
Proof. unfold added. intros (?&?&?&?&?&->). now rewrite app_nil_r. Qed.

Lemma added_quiet w w1 w2 l : added w w1 l -> quiet w1 w2 -> added w w2 l.
Proof. unfold added. intros H (?&?&?&?&?&->). exact H. Qed.

Lemma quiet_added w w1 w2 l : quiet w w1 -> added w1 w2 l -> added w w2 l.
Proof. unfold added. intros (?&?&?&?&?&E) ->. now rewrite E. Qed.

Lemma added_record w w1 l c : added w w1 l -> added w (record c w1) (l ++ [c]).
Proof. unfold added, record. simpl. intros ->. now rewrite app_assoc. Qed.

Lemma added_app w w1 w2 l1 l2 :
  added w w1 l1 -> added w1 w2 l2 -> added w w2 (l1 ++ l2).
Proof. unfold added. intros -> ->. now rewrite app_assoc. Qed.

(** A run that stopped at its first failed call: no call follows a failed
    one. *)
Definition stopped (l : list call) : Prop :=
  forall pre c post, l = pre ++ c :: post -> failed c = true -> post = [].

Definition succeeded (c : call) : Prop := failed c = false.

Lemma stopped_succeeded l : Forall succeeded l -> stopped l.
Proof.
  intros H pre c post -> Hc. apply Forall_app in H as [_ H].
  inversion H; subst. unfold succeeded in *. congruence.
Qed.

Lemma stopped_snoc l c : Forall succeeded l -> stopped (l ++ [c]).
Proof.
  intros H pre d post E Hd.
  destruct post as [|x post] using rev_ind; [reflexivity|clear IHpost].
  exfalso. rewrite app_comm_cons, app_assoc in E.
  apply app_inj_tail in E as [-> _].
  apply Forall_app in H as [_ H]. inversion H; subst.
  unfold succeeded in *. congruence.
Qed.

Lemma stopped_app l1 l2 : Forall succeeded l1 -> stopped l2 -> stopped (l1 ++ l2).
Proof.
  intros H1 H2 pre c post E Hc.
  revert pre E. induction H1 as [|x l1 Hx H1 IH]; intros pre E; simpl in E.
  - eapply H2; eauto.
  - destruct pre as [|y pre]; simpl in E; injection E as -> E.
    + unfold succeeded in Hx. congruence.
    + eapply IH; eauto.
Qed.

(** Everything but the record of calls, the progress updates and the clock
    is as before. *)
Definition steady (w w' : world) : Prop :=
  openaiClient w' = openaiClient w /\
  anthropicClient w' = anthropicClient w /\
  apiKeys w' = apiKeys w /\
  enabledModels w' = enabledModels w /\
  activeSessions w' = activeSessions w.

Lemma steady_refl w : steady w w.
Proof. repeat split. Qed.

Lemma steady_trans w1 w2 w3 : steady w1 w2 -> steady w2 w3 -> steady w1 w3.
Proof. unfold steady. intuition congruence. Qed.

Lemma quiet_steady w w' : quiet w w' -> steady w w'.
Proof. unfold quiet, steady. intuition. Qed.

Lemma steady_record c w : steady w (record c w).
Proof. repeat split. Qed.

(** [trail w w' l]: the run from [w] to [w'] made the calls [l] and
    touched nothing else that matters. *)
Definition trail (w w' : world) (l : list call) : Prop :=
  added w w' l /\ steady w w'.

Lemma trail_refl w : trail w w [].
Proof. split; [apply added_nil, quiet_refl|apply steady_refl]. Qed.

Lemma trail_quiet w w1 w2 l : trail w w1 l -> quiet w1 w2 -> trail w w2 l.
Proof.
  intros [Ha Hs] Hq. split.
  - eapply added_quiet; eauto.
  - eapply steady_trans; eauto using quiet_steady.
Qed.

Lemma trail_record c w w1 l : trail w w1 l -> trail w (record c w1) (l ++ [c]).
Proof.
  intros [Ha Hs]. split.
  - now apply added_record.
  - eapply steady_trans; eauto using steady_record.
Qed.

Lemma trail_app w w1 w2 l1 l2 :
  trail w w1 l1 -> trail w1 w2 l2 -> trail w w2 (l1 ++ l2).
Proof.
  intros [Ha Hs] [Ha' Hs']. split.
  - eapply added_app; eauto.
  - eapply steady_trans; eauto.
Qed.

Create HintDb engine.
#[local] Hint Resolve steady_refl quiet_refl quiet_steady steady_record
  trail_refl : engine.

Ltac wp_rule :=
  lazymatch goal with
  | |- post (bind _ _) _ _ _ => apply post_bind
  | |- post (sendProgressUpdate _ _) _ _ _ =>
      apply post_sendProgressUpdate; intros ? ?
  | |- post date_now _ _ _ => apply post_date_now; intros ? ? ?
  | |- post (nextModel _ _ _ _ _) _ _ _ =>
      apply post_nextModel; [intros ?|intros ?]
  | |- post (generateResponse _ _ _ _) _ _ _ =>
      apply post_generateResponse; intros ? ? ? ? ? ?
  | |- post (ret _) _ _ _ => apply post_ret
  | |- post (throw _) _ _ _ => apply post_throw
  | |- post get _ _ _ => apply post_get
  | |- post (modify _) _ _ _ => apply post_modify
  end.

(** Keep the one [trail] of the context up to date with the last step. *)
Ltac follow :=
  try match goal with
  | T : trail ?w ?w1 ?l, Hq : quiet ?w1 ?w2 |- _ =>
      let T' := fresh "T" in
      pose proof (trail_quiet _ _ _ _ T Hq) as T'; clear T Hq
  | T : trail ?w ?w1 ?l |- context [record ?c ?w1] =>
      let T' := fresh "T" in
      pose proof (trail_record c _ _ _ T) as T'; clear T; simpl app in T'
  end.

Ltac wp := wp_rule; follow.

(** The total of the usage counters of a session. *)
Definition usage_total (m : gmap value usage) : nat :=
  map_fold (fun _ u acc => totalUsage u + acc) 0 m.

Lemma usage_total_insert m k u :
  usage_total (<[k := u]> m)
  = totalUsage u + usage_total (delete k m).
Proof.
  unfold usage_total. rewrite <- insert_delete_eq.
  rewrite map_fold_insert_L; [reflexivity| |apply lookup_delete_eq].
  intros. lia.
Qed.

Lemma usage_total_lookup m k u :
  m !! k = Some u -> usage_total m = totalUsage u + usage_total (delete k m).
Proof.
  intros H. rewrite <- (insert_id m k u H) at 1. apply usage_total_insert.
Qed.

Lemma usage_total_absent m k : m !! k = None -> usage_total (delete k m) = usage_total m.
Proof. intros H. now rewrite delete_id. Qed.

(** Each [trackModelUsage] adds one to the total. *)
Lemma usage_total_track s modelId operationType :
  usage_total (modelUsageStats (trackModelUsage s modelId operationType))
  = S (usage_total (modelUsageStats s)).
Proof.
  unfold trackModelUsage. destruct s; simpl.
  rewrite usage_total_insert. simpl.
  destruct (_ !! modelId) as [u|] eqn:E; simpl.
  - rewrite (usage_total_lookup _ _ _ E). lia.
  - rewrite (usage_total_absent _ _ E). lia.
Qed.

(** The session with the fields the pipeline updates blanked: what stays
    of it is fixed for the whole run. *)
Definition setup (s : session) : session :=
  set_modelUsageStats ∅ (set_currentIteration 0 (set_completedIterations 0 s)).

Lemma setup_track s m o : setup (trackModelUsage s m o) = setup s.
Proof. reflexivity. Qed.

Lemma setup_currentIteration i s : setup (set_currentIteration i s) = setup s.
Proof. reflexivity. Qed.

Lemma setup_completedIterations i s : setup (set_completedIterations i s) = setup s.
Proof. reflexivity. Qed.

Lemma usage_completedIterations i s :
  modelUsageStats (set_completedIterations i s) = modelUsageStats s.
Proof. reflexivity. Qed.

Lemma completed_track s m o :
  completedIterations (trackModelUsage s m o) = completedIterations s.
Proof. reflexivity. Qed.

Lemma setup_targetIterations s s' :
  setup s' = setup s -> targetIterations s' = targetIterations s.
Proof. intros H. exact (f_equal targetIterations H). Qed.

Lemma setup_id s s' : setup s' = setup s -> id s' = id s.
Proof. intros H. exact (f_equal id H). Qed.

(** What one completed iteration has done. *)
Definition iterated (i : nat) (st : progress_state) (w : world)
  (st' : progress_state) (w' : world) : Prop :=
  exists c1 c2,
    trail w w' [c1; c2] /\
    c_site c1 = AtCritique i /\ c_site c2 = AtImprovement i /\
    succeeded c1 /\ succeeded c2 /\
    setup (st_session st') = setup (st_session st) /\
    completedIterations (st_session st') = i /\
    usage_total (modelUsageStats (st_session st'))
    = 2 + usage_total (modelUsageStats (st_session st)).

(** What an abandoned run has done: its calls follow the order [sites] and
    stop at the first failed one. *)
Definition aborted (sites : list site) (w : world) (w' : world) : Prop :=
  exists l, added w w' l /\ stopped l /\ steady w w' /\
            map c_site l `prefix_of` sites.

Lemma aborted_weaken sites sites' w w' :
  sites `prefix_of` sites' -> aborted sites w w' -> aborted sites' w w'.
Proof.
  intros Hp (l & Ha & Hs & Hst & Hl). exists l.
  split; [|split; [|split]]; try assumption.
  now transitivity (sites).
Qed.

Lemma aborted_after sites w w1 w2 l :
  trail w w1 l -> Forall succeeded l -> aborted sites w1 w2 ->
  aborted (map c_site l ++ sites) w w2.
Proof.
  intros T Hl (l' & Ha & Hs & Hst & Hp).
  exists (l ++ l'). split; [|split; [|split]].
  - eapply added_app; [apply T|exact Ha].
  - now apply stopped_app.
  - eapply steady_trans; [apply T|exact Hst].
  - rewrite map_app. now apply prefix_app.
Qed.

Lemma succeeded_returns c a : c_outcome c = Returns a -> succeeded c.
Proof. unfold succeeded, failed. now intros ->. Qed.

Ltac all_succeeded :=
  repeat constructor; eapply succeeded_returns; eassumption.

Ltac split_last l :=
  lazymatch l with
  | [?c] => constr:((@nil call, c))
  | ?x :: ?r =>
      let p := split_last r in
      lazymatch p with (?pre, ?c) => constr:((x :: pre, c)) end
  end.

Ltac solve_stopped :=
  lazymatch goal with
  | |- stopped [] => apply stopped_succeeded; constructor
  | |- stopped ?l =>
      first
        [ apply stopped_succeeded; all_succeeded
        | let p := split_last l in
          lazymatch p with
          | (?pre, ?c) => apply (stopped_snoc pre c); all_succeeded
          end ]
  end.

Ltac solve_prefix :=
  simpl;
  repeat match goal with
         | H : c_site ?c = _ |- context [c_site ?c] => rewrite H
         end;
  repeat apply prefix_cons; apply prefix_nil.

Ltac solve_aborted :=
  lazymatch goal with
  | T : trail ?w ?w' ?l |- aborted _ ?w ?w' =>
      exists l; destruct T;
      split; [assumption|split; [solve_stopped|split; [assumption|solve_prefix]]]
  end.

Lemma iteration_post i st w :
  post (iteration i st) w (iterated i st w)
    (fun _ => aborted [AtCritique i; AtImprovement i] w).
Proof.
  pose proof (trail_refl w) as T.
  unfold iteration.
  repeat (wp; try solve_aborted).
  exists c, c0.
  repeat split; try assumption; try (eapply succeeded_returns; eassumption);
    try apply T0.
  cbn [st_session]. rewrite usage_completedIterations, !usage_total_track.
  reflexivity.
Qed.

(** The call sites of the iterations [first], ..., [first + count - 1]. *)
Definition iteration_sites (first count : nat) : list site :=
  flat_map (fun k => [AtCritique k; AtImprovement k]) (seq first count).

Lemma iteration_sites_length first count :
  length (iteration_sites first count) = 2 * count.
Proof.
  unfold iteration_sites. revert first.
  induction count as [|count IH]; intros first; simpl; [reflexivity|].
  rewrite IH. lia.
Qed.

(** What [count] completed iterations, starting with number [i], have done. *)
Definition iterated_all (count i : nat) (st : progress_state) (w : world)
  (st' : progress_state) (w' : world) : Prop :=
  exists l,
    trail w w' l /\
    map c_site l = iteration_sites i count /\
    Forall succeeded l /\
    setup (st_session st') = setup (st_session st) /\
    completedIterations (st_session st')
    = match count with
      | 0 => completedIterations (st_session st)
      | S n => i + n
      end /\
    usage_total (modelUsageStats (st_session st'))
    = 2 * count + usage_total (modelUsageStats (st_session st)).

Lemma iterations_post count : forall i st w,
  post (iterations count i st) w (iterated_all count i st w)
    (fun _ => aborted (iteration_sites i count) w).
Proof.
  induction count as [|count IH]; intros i st w; simpl.
  - apply post_ret. exists []. repeat split; auto with engine; apply trail_refl.
  - apply post_bind.
    eapply post_mono; [apply iteration_post| |].
    2:{ intros e w1. apply aborted_weaken. unfold iteration_sites. simpl.
        do 2 apply prefix_cons. apply prefix_nil. }
    intros st1 w1 (c1 & c2 & T & Hs1 & Hs2 & Hc1 & Hc2 & Hset & Hdone & Huse).
    eapply post_mono; [apply IH| |].
    + intros st2 w2 (l & T' & Hsites & Hl & Hset' & Hdone' & Huse').
      exists ([c1; c2] ++ l). split; [|split; [|split; [|split; [|split]]]].
      * eapply trail_app; eassumption.
      * simpl. unfold iteration_sites in *. simpl. now rewrite Hs1, Hs2, Hsites.
      * repeat constructor; assumption.
      * congruence.
      * rewrite Hdone'. destruct count; [rewrite Hdone|]; lia.
      * rewrite Huse', Huse. lia.
    + intros e w2 Hab.
      assert (Hall : Forall succeeded [c1; c2]) by (repeat constructor; assumption).
      pose proof (aborted_after _ _ _ _ _ T Hall Hab) as H.
      simpl in H. rewrite Hs1, Hs2 in H. exact H.
Qed.

(** The call sites of a whole run of the pipeline with [n] iterations. *)
Definition pipeline_sites (n : nat) : list site :=
  AtInitial :: iteration_sites 1 n ++ [AtFinalReview].

Lemma pipeline_sites_length n : length (pipeline_sites n) = 1 + 2 * n + 1.
Proof.
  unfold pipeline_sites. simpl. rewrite length_app, iteration_sites_length.
  simpl. lia.
Qed.

(** What a completed run of the [try] block of the pipeline has done. *)
Definition collaborated (s : session) (w : world) (rs : result * session)
  (w' : world) : Prop :=
  exists first l last,
    trail w w' (first :: l ++ [last]) /\
    c_site first = AtInitial /\
    c_model first = primaryModel (models s) /\
    c_prompt first = refinedPrompt s /\
    map c_site l = iteration_sites 1 (targetIterations s) /\
    c_site last = AtFinalReview /\
    Forall succeeded (first :: l ++ [last]) /\
    setup (snd rs) = setup s /\
    completedIterations (snd rs)
    = match targetIterations s with
      | 0 => completedIterations s
      | S n => S n
      end /\
    r_completedIterations (fst rs) = completedIterations (snd rs) /\
    r_targetIterations (fst rs) = targetIterations s /\
    r_modelUsageStats (fst rs) = modelUsageStats (snd rs) /\
    usage_total (modelUsageStats (snd rs))
    = 2 * targetIterations s + 2 + usage_total (modelUsageStats s).

Lemma collaborate_post s w :
  post (collaborate s) w (collaborated s w)
    (fun _ => aborted (pipeline_sites (targetIterations s)) w).
Proof.
  pose proof (trail_refl w) as T.
  unfold collaborate, pipeline_sites.
  do 9 (wp; try solve_aborted).
  eapply post_mono; [apply iterations_post| |].
  2:{ intros e w2 Hab.
      assert (Hall : Forall succeeded [c]) by all_succeeded.
      pose proof (aborted_after _ _ _ _ _ T Hall Hab) as H'.
      simpl in H'. rewrite H in H'. revert H'. apply aborted_weaken.
      apply prefix_cons, prefix_app_r. reflexivity. }
  intros st w2 (l & T' & Hsites & Hl & Hset & Hdone & Huse).
  cbn [st_session] in Hset, Hdone, Huse.
  rewrite setup_track in Hset. rewrite usage_total_track in Huse.
  pose proof (trail_app _ _ _ _ _ T T') as T1. clear T T'.
  assert (Hall : Forall succeeded ([c] ++ l)).
  { constructor; [eapply succeeded_returns; eassumption|assumption]. }
  do 6 wp.
  2:{ destruct T0 as [Ha Hst]. exists (([c] ++ l) ++ [c0]).
      split; [|split; [|split]]; auto.
      - now apply stopped_snoc.
      - simpl. rewrite map_app. simpl.
        rewrite H, Hsites, H3. reflexivity. }
  do 5 wp.
  exists c, l, c0. cbn [fst snd].
  split; [exact T0|].
  do 5 (split; [assumption|]).
  split. { constructor; [eapply succeeded_returns; eassumption|].
           apply Forall_app. split; [exact Hl|all_succeeded]. }
  split. { now rewrite setup_track. }
  split. { rewrite completed_track, Hdone.
           destruct (targetIterations s); reflexivity. }
  split. { reflexivity. }
  split. { exact (setup_targetIterations _ _ Hset). }
  split. { reflexivity. }
  rewrite usage_total_track, Huse. lia.
Qed.

(** A computation that reads the state and leaves it as it is. *)
Definition inert {A} (m : M A) : Prop := forall w, snd (m w) = w.

Lemma inert_ret {A} (a : A) : inert (ret a).
Proof. intros w. reflexivity. Qed.

Lemma inert_throw {A} e : inert (@throw A e).
Proof. intros w. reflexivity. Qed.

Lemma inert_get : inert get.
Proof. intros w. reflexivity. Qed.

Lemma inert_bind {A B} (m : M A) (k : A -> M B) :
  inert m -> (forall a, inert (k a)) -> inert (bind m k).
Proof.
  intros Hm Hk w. unfold bind. specialize (Hm w).
  destruct (m w) as [[a|e] w1]; simpl in *; subst; [apply Hk|reflexivity].
Qed.

Lemma inert_nextModel name current i n phase :
  inert (nextModel name current i n phase).
Proof.
  unfold nextModel. destruct (handoffStrategies name).
  - apply inert_bind; [apply inert_get|]. intros w.
    destruct (_ && _); [destruct (forallb _ _)|];
      (apply inert_ret || apply inert_throw).
  - destruct (Js.inherited name); apply inert_throw.
Qed.

Lemma inert_iteration_steps s count : forall i, inert (iteration_steps s count i).
Proof.
  induction count as [|count IH]; intros i; simpl.
  - apply inert_ret.
  - repeat (apply inert_bind; [first [apply inert_nextModel|apply IH]|intros ?]).
    apply inert_ret.
Qed.

Lemma inert_generateProcessSteps s : inert (generateProcessSteps s).
Proof.
  unfold generateProcessSteps.
  apply inert_bind; [apply inert_iteration_steps|intros ?].
  apply inert_bind; [apply inert_get|intros ?]. apply inert_ret.
Qed.

Lemma post_inert {A} (m : M A) w (P : A -> world -> Prop) Q :
  inert m -> (forall a, P a w) -> (forall e, Q e w) -> post m w P Q.
Proof.
  intros Hm HP HQ. unfold post. specialize (Hm w).
  destruct (m w) as [[a|e] w1]; simpl in Hm; subst; auto.
Qed.

(** The state once the entry of [sessionId] is removed. *)
Definition without (sessionId : string) (w : world) : world :=
  with_activeSessions (delete sessionId (activeSessions w)) w.

(** What a completed [executeCollaborativeProcess] has done. *)
Definition executed (s : session) (w : world) (res : result) (w' : world) : Prop :=
  exists s' w1,
    collaborate s w = (Returns (res, s'), w1) /\
    collaborated s w (res, s') w1 /\
    w' = without (id s) w1.

(** What a failed [executeCollaborativeProcess] has done. *)
Definition abandoned (s : session) (w : world) (w' : world) : Prop :=
  exists w1,
    aborted (pipeline_sites (targetIterations s)) w w1 /\
    w' = without (id s) w1.

Lemma executeCollaborativeProcess_post s w :
  post (executeCollaborativeProcess s) w (executed s w) (fun _ => abandoned s w).
Proof.
  pose proof (collaborate_post s w) as H.
  unfold post, executeCollaborativeProcess, try_finally, try_catch, bind in *.
  destruct (collaborate s w) as [[[res s']|e] w1] eqn:E; simpl.
  - exists s', w1. auto.
  - exists w1. auto.
Qed.

(** The credentials, clients and enabled models are as before. *)
Definition same_config (w w' : world) : Prop :=
  openaiClient w' = openaiClient w /\
  anthropicClient w' = anthropicClient w /\
  apiKeys w' = apiKeys w /\
  enabledModels w' = enabledModels w.

Lemma steady_same_config w w' : steady w w' -> same_config w w'.
Proof. unfold steady, same_config. intuition. Qed.

(** What [startCollaborativeGeneration] has done, for a session [s] stored
    under [sessionId], when it returns [r]. *)
Definition generated (sessionId : string) (s : session) (w : world)
  (r : response) (w' : world) : Prop :=
  exists l,
    added w w' l /\
    same_config w w' /\
    (forall k, k <> sessionId -> k <> id s ->
               activeSessions w' !! k = activeSessions w !! k) /\
    map c_site l `prefix_of` pipeline_sites (targetIterations s) /\
    stopped l /\
    match r with
    | Complete sid res =>
        sid = sessionId /\
        Forall succeeded l /\
        map c_site l = pipeline_sites (targetIterations s) /\
        activeSessions w' !! id s = None /\
        r_completedIterations res
        = match targetIterations s with
          | 0 => completedIterations s
          | S n => S n
          end /\
        usage_total (r_modelUsageStats res)
        = 2 * targetIterations s + 2 + usage_total (modelUsageStats s)
    | Failure e => activeSessions w' !! sessionId = None
    | NeedsClarification _ _ => False
    end.

Lemma lookup_without_ne k sid w :
  k <> sid -> activeSessions (without sid w) !! k = activeSessions w !! k.
Proof. intros H. simpl. now apply lookup_delete_ne. Qed.

Lemma lookup_without_eq sid w : activeSessions (without sid w) !! sid = None.
Proof. simpl. apply lookup_delete_eq. Qed.

Lemma startCollaborativeGeneration_post sessionId s w :
  activeSessions w !! sessionId = Some s ->
  post (startCollaborativeGeneration sessionId) w
    (generated sessionId s w) (fun _ _ => False).
Proof.
  intros Hs. unfold startCollaborativeGeneration.
  apply post_bind, post_get. rewrite Hs.
  apply post_try_catch, post_bind.
  apply post_inert; [apply inert_generateProcessSteps| |].
  - intros steps. apply post_bind, post_modify, post_bind.
    set (w0 := with_activeSessions _ w).
    assert (Hw0 : forall k, k <> sessionId ->
                            activeSessions w0 !! k = activeSessions w !! k).
    { intros k Hk. subst w0. simpl. now apply lookup_alter_ne. }
    eapply post_mono; [apply executeCollaborativeProcess_post| |].
    + intros res w' (s' & w1 & E & C & ->). apply post_ret.
      destruct C as (first & l & last & [Ha Hst] & Hf & _ & _ & Hl & Hla & Hall
                     & Hset & Hdone & Hr1 & Hr2 & Hr3 & Huse).
      cbn [fst snd] in *.
      assert (Hsites : map c_site (first :: l ++ [last])
                       = pipeline_sites (targetIterations s)).
      { unfold pipeline_sites. simpl. rewrite map_app. simpl.
        now rewrite Hf, Hl, Hla. }
      exists (first :: l ++ [last]).
      split; [exact Ha|].
      split. { apply steady_same_config in Hst. exact Hst. }
      split. { intros k Hk Hk'. rewrite lookup_without_ne by exact Hk'.
               destruct Hst as (_ & _ & _ & _ & ->). now apply Hw0. }
      split. { now rewrite Hsites. }
      split. { now apply stopped_succeeded. }
      split; [reflexivity|]. split; [exact Hall|]. split; [exact Hsites|].
      split. { apply lookup_without_eq. }
      split. { now rewrite Hr1, Hdone. }
      now rewrite Hr3, Huse.
    + intros e w' (w1 & (l & Ha & Hstop & Hst & Hp) & ->).
      apply post_bind, post_modify, post_ret.
      exists l.
      split. { exact Ha. }
      split. { apply steady_same_config in Hst. exact Hst. }
      split. { intros k Hk Hk'. simpl. rewrite lookup_delete_ne by congruence.
               rewrite lookup_delete_ne by congruence.
               destruct Hst as (_ & _ & _ & _ & ->). now apply Hw0. }
      split; [exact Hp|]. split; [exact Hstop|].
      simpl. apply lookup_delete_eq.
  - intros e. apply post_bind, post_modify, post_ret.
    exists []. split; [unfold added; simpl; now rewrite app_nil_r|].
    split; [repeat split|].
    split. { intros k Hk _. simpl. now apply lookup_delete_ne. }
    split; [apply prefix_nil|].
    split. { apply stopped_succeeded. constructor. }
    simpl. apply lookup_delete_eq.
Qed.

(* ===================================================================== *)
(** * Properties of the pipeline *)
(* ===================================================================== *)

Lemma prefix_snoc_cases {A} (p b : list A) (x y : A) :
  (p ++ [x]) `prefix_of` (b ++ [y]) ->
  (p = b /\ x = y) \/ (p ++ [x]) `prefix_of` b.
Proof.
  intros [k E]. destruct k as [|z k _] using rev_ind.
  - rewrite app_nil_r in E. apply app_inj_tail in E. now left.
  - right. rewrite app_assoc in E. apply app_inj_tail in E as [E _].
    exists k. now symmetry.
Qed.

Lemma final_review_not_in_iterations first count :
  AtFinalReview ∉ iteration_sites first count.
Proof.
  unfold iteration_sites. intros H. apply list_elem_of_In, in_flat_map in H.
  destruct H as (k & _ & [H|[H|[]]]); discriminate.
Qed.

(** In a run that follows the order of the pipeline, the final review can
    only be the last call made. *)
Lemma final_review_is_last n (l : list call) c :
  map c_site (l ++ [c]) `prefix_of` pipeline_sites n ->
  c_site c <> AtFinalReview ->
  AtFinalReview ∉ map c_site (l ++ [c]).
Proof.
  unfold pipeline_sites. rewrite map_app. simpl.
  change (AtInitial :: iteration_sites 1 n ++ [AtFinalReview])
    with ((AtInitial :: iteration_sites 1 n) ++ [AtFinalReview]).
  intros Hp Hc Hin. apply prefix_snoc_cases in Hp as [[_ E]|[k E]].
  - contradiction.
  - assert (Hb : AtFinalReview ∈ AtInitial :: iteration_sites 1 n).
    { rewrite E. apply elem_of_app. now left. }
    apply elem_of_cons in Hb as [Hb|Hb]; [discriminate|].
    now apply final_review_not_in_iterations in Hb.
Qed.

(** C1. For every number N >= 1 of target iterations, a successful run of
    the pipeline ([executeCollaborativeProcess]) on a session whose refined
    prompt is set makes exactly 1 + 2N + 1 calls of the generation service,
    all of which succeed: the initial generation, with the primary model and
    the refined prompt; then, for i = 1..N in this order, the critique call
    of iteration i followed by its improvement call; then the final review.
    The session object ends with [completedIterations = N], which is also
    what the result reports. *)
Theorem pipeline_makes_2n_plus_2_calls s prompt w res w' :
  1 <= targetIterations s ->
  refinedPrompt s = Str prompt ->
  executeCollaborativeProcess s w = (Returns res, w') ->
  exists first middle last s' w1,
    calls w' = calls w ++ first :: middle ++ [last] /\
    length (first :: middle ++ [last]) = 1 + 2 * targetIterations s + 1 /\
    c_site first = AtInitial /\
    c_model first = primaryModel (models s) /\
    c_prompt first = Str prompt /\
    map c_site middle = iteration_sites 1 (targetIterations s) /\
    c_site last = AtFinalReview /\
    Forall succeeded (first :: middle ++ [last]) /\
    collaborate s w = (Returns (res, s'), w1) /\
    completedIterations s' = targetIterations s /\
    r_completedIterations res = targetIterations s.
Proof.
  intros HN Hp E.
  pose proof (post_elim _ _ _ _ _ _ (executeCollaborativeProcess_post s w) E)
    as (s' & w1 & Ec & C & ->).
  destruct C as (first & l & last & [Ha _] & Hf & Hm & Hpr & Hl & Hla & Hall
                 & _ & Hdone & Hr1 & _).
  cbn [fst snd] in *.
  exists first, l, last, s', w1.
  assert (Hd : completedIterations s' = targetIterations s).
  { rewrite Hdone. destruct (targetIterations s); [lia|reflexivity]. }
  repeat split; try assumption; try congruence.
  simpl. rewrite length_app, <- (length_map c_site l), Hl, iteration_sites_length.
  simpl. lia.
Qed.

(** C2. Whenever a call of the generation service made by the pipeline
    fails (the initial generation, a critique, an improvement or the final
    review), the pipeline started by [startCollaborativeGeneration] stops
    there: the failed call is the last call made, so a failed call of an
    iteration is followed by no final review; the session is no longer in
    [activeSessions]; and the caller receives an error result. *)
Theorem failed_call_aborts_pipeline sessionId s w r w' :
  activeSessions w !! sessionId = Some s ->
  startCollaborativeGeneration sessionId w = (r, w') ->
  exists l,
    calls w' = calls w ++ l /\
    map c_site l `prefix_of` pipeline_sites (targetIterations s) /\
    forall pre c post,
      l = pre ++ c :: post -> failed c = true ->
      post = [] /\
      (c_site c <> AtFinalReview -> AtFinalReview ∉ map c_site l) /\
      activeSessions w' !! sessionId = None /\
      exists e, r = Returns (Failure e).
Proof.
  intros Hs E.
  pose proof (startCollaborativeGeneration_post sessionId s w Hs) as H.
  unfold post in H. rewrite E in H. destruct r as [r|e]; [|contradiction].
  destruct H as (l & Ha & _ & _ & Hp & Hstop & Hr).
  exists l. split; [exact Ha|]. split; [exact Hp|].
  intros pre c post -> Hc.
  assert (post = []) as -> by (eapply Hstop; eauto).
  split; [reflexivity|].
  split. { intros Hsite. eapply final_review_is_last; eauto. }
  destruct r as [| sid res | e]; [contradiction| |].
  - exfalso. destruct Hr as (_ & Hall & _).
    apply Forall_app in Hall as [_ Hall]. inversion Hall; subst.
    unfold succeeded in *. congruence.
  - split; [exact Hr|]. now exists e.
Qed.

(* ===================================================================== *)
(** * Properties of the prompt analyzer and of the public operations *)
(* ===================================================================== *)

(** A call made for the prompt analyzer, not by the pipeline. *)
Definition analyzer_call (c : call) : Prop := pipeline_site (c_site c) = false.

Definition analyzed (w : world) (r : refinement) (w' : world) : Prop :=
  exists l, trail w w' l /\ Forall analyzer_call l /\ Forall succeeded l /\
            length l = 2.

Definition analysis_failed (w : world) (w' : world) : Prop :=
  exists l, trail w w' l /\ Forall analyzer_call l.

Ltac analyzer_calls :=
  repeat constructor; unfold analyzer_call;
  match goal with H : c_site ?c = _ |- context [c_site ?c] => now rewrite H end.

Lemma analyzeAndRefine_post initialPrompt w :
  post (analyzeAndRefine initialPrompt) w (analyzed w) (fun _ => analysis_failed w).
Proof.
  pose proof (trail_refl w) as T.
  unfold analyzeAndRefine. do 2 wp.
  destruct (client_getAvailableModels w) as [|m ms].
  { wp. exists []. split; [exact T|constructor]. }
  do 2 wp.
  2:{ eexists. split; [exact T0|]. analyzer_calls. }
  destruct (needsClarification _).
  - unfold generateClarificationQuestions. do 3 wp.
    + eexists. split; [exact T|].
      split; [analyzer_calls|split; [all_succeeded|reflexivity]].
    + eexists. split; [exact T|]. analyzer_calls.
  - unfold generateRefinedPrompt. do 2 wp.
    + eexists. split; [exact T|].
      split; [analyzer_calls|split; [all_succeeded|reflexivity]].
    + eexists. split; [exact T|]. analyzer_calls.
Qed.

(** Two states in which the generation service behaves alike: the same
    clients and the same record of calls. *)
Definition agree (w w0 : world) : Prop :=
  openaiClient w0 = openaiClient w /\
  anthropicClient w0 = anthropicClient w /\
  calls w0 = calls w.

(** A computation that only calls the generation service: run from a state
    that agrees with [w], it ends as from [w] and adds the same calls. *)
Definition calls_only {A} (m : M A) : Prop :=
  forall w w0, agree w w0 ->
    m w0 = (fst (m w), with_calls (calls (snd (m w))) w0).

Lemma agree_refl w : agree w w.
Proof. repeat split. Qed.

Lemma with_calls_same w : with_calls (calls w) w = w.
Proof. now destruct w. Qed.

Lemma calls_only_agree {A} (m : M A) w w0 :
  calls_only m -> agree w w0 -> agree (snd (m w)) (snd (m w0)).
Proof.
  intros Hm Hag. rewrite (Hm w w0 Hag). simpl.
  pose proof (Hm w w (agree_refl w)) as E.
  destruct Hag as (Ho & Ha & Hc).
  destruct (m w) as [o w1]. simpl in *. injection E as E.
  rewrite E. simpl. repeat split; assumption.
Qed.

Lemma calls_only_ret {A} (a : A) : calls_only (ret a).
Proof.
  intros w w0 (_ & _ & Hc). unfold ret. simpl. rewrite <- Hc.
  now rewrite with_calls_same.
Qed.

Lemma calls_only_throw {A} e : calls_only (@throw A e).
Proof.
  intros w w0 (_ & _ & Hc). unfold throw. simpl. rewrite <- Hc.
  now rewrite with_calls_same.
Qed.

Lemma calls_only_bind {A B} (m : M A) (k : A -> M B) :
  calls_only m -> (forall a, calls_only (k a)) -> calls_only (bind m k).
Proof.
  intros Hm Hk w w0 Hag. unfold bind.
  pose proof (calls_only_agree m w w0 Hm Hag) as Hag'.
  rewrite (Hm w w0 Hag) in *. simpl in Hag'.
  destruct (m w) as [[a|e] w1]; simpl in *.
  - now rewrite (Hk a w1 _ Hag').
  - reflexivity.
Qed.

Lemma respond_agree modelId prompt o w w0 :
  agree w w0 -> respond modelId prompt o w0 = respond modelId prompt o w.
Proof.
  intros (Ho & Ha & Hc). unfold respond. now rewrite Ho, Ha, Hc.
Qed.

Lemma calls_only_generateResponse at_ modelId prompt o :
  calls_only (generateResponse at_ modelId prompt o).
Proof.
  intros w w0 Hag. unfold generateResponse.
  rewrite (respond_agree _ _ _ _ _ Hag). simpl.
  destruct Hag as (_ & _ & ->). reflexivity.
Qed.

Lemma client_getAvailableModels_agree w w0 :
  agree w w0 -> client_getAvailableModels w0 = client_getAvailableModels w.
Proof.
  intros (Ho & Ha & _). unfold client_getAvailableModels, isModelAvailable.
  now rewrite Ho, Ha.
Qed.

Lemma calls_only_get_bind {A} (k : world -> M A) :
  (forall w, calls_only (k w)) ->
  (forall w w0, agree w w0 -> k w0 = k w) ->
  calls_only (bind get k).
Proof.
  intros Hk He w w0 Hag. unfold bind, get.
  rewrite (He w w0 Hag). now apply Hk.
Qed.

Lemma calls_only_analyzeAndRefine initialPrompt :
  calls_only (analyzeAndRefine initialPrompt).
Proof.
  unfold analyzeAndRefine. apply calls_only_get_bind.
  - intros w. destruct (client_getAvailableModels w) as [|m ms].
    { apply calls_only_throw. }
    apply calls_only_bind; [apply calls_only_generateResponse|]. intros a.
    destruct (needsClarification _).
    + apply calls_only_bind; [|intros ?; apply calls_only_ret].
      apply calls_only_bind; [apply calls_only_generateResponse|].
      intros ?; apply calls_only_ret.
    + apply calls_only_bind; [|intros ?; apply calls_only_ret].
      apply calls_only_generateResponse.
  - intros w w0 Hag. now rewrite (client_getAvailableModels_agree _ _ Hag).
Qed.

(** What [refineWithClarifications] has done when it returns [refined]. *)
Definition clarified (w : world) (refined : string) (w' : world) : Prop :=
  exists c, trail w w' [c] /\ c_site c = AtClarifiedRefinement /\
            c_outcome c = Returns refined.

Definition not_clarified (w : world) (e : string) (w' : world) : Prop :=
  exists c, trail w w' [c] /\ c_site c = AtClarifiedRefinement /\
            c_outcome c = Throws e.

Lemma refineWithClarifications_post originalPrompt questions ans w :
  post (refineWithClarifications originalPrompt questions ans) w
    (clarified w) (not_clarified w).
Proof.
  pose proof (trail_refl w) as T.
  unfold refineWithClarifications. do 3 wp.
  - exists c. auto.
  - exists c. auto.
Qed.

(** What [startRefinementProcess] has done when it returns [r]. *)
Definition started (sessionId : string) (initialPrompt : string)
  (iterations : nat) (w : world) (r : response) (w' : world) : Prop :=
  exists l,
    added w w' l /\
    same_config w w' /\
    (forall k, k <> sessionId -> activeSessions w' !! k = activeSessions w !! k) /\
    (forall questions a,
       fst (analyzeAndRefine initialPrompt w) = Returns (Clarify questions a) ->
       r = NeedsClarification sessionId questions) /\
    match r with
    | NeedsClarification sid questions =>
        sid = sessionId /\
        Forall analyzer_call l /\
        exists s,
          activeSessions w' !! sessionId = Some s /\
          id s = sessionId /\
          pendingClarifications s = Some questions /\
          refinedPrompt s = Null /\
          targetIterations s = iterations /\
          modelUsageStats s = ∅
    | Complete sid res =>
        sid = sessionId /\
        activeSessions w' !! sessionId = None /\
        exists l1 l2,
          l = l1 ++ l2 /\
          Forall analyzer_call l1 /\
          length l1 = 2 /\
          Forall succeeded l /\
          map c_site l2 = pipeline_sites iterations /\
          r_completedIterations res = iterations /\
          usage_total (r_modelUsageStats res) = length l2
    | Failure e => activeSessions w' !! sessionId = None
    end.

Lemma usage_total_empty : usage_total ∅ = 0.
Proof. reflexivity. Qed.

Lemma startRefinementProcess_post sessionId initialPrompt sel iterations callback w :
  post (startRefinementProcess sessionId initialPrompt sel iterations callback) w
    (started sessionId initialPrompt iterations w) (fun _ _ => False).
Proof.
  unfold startRefinementProcess.
  apply post_bind, post_get, post_bind, post_date_now. intros t w0 Hq.
  apply post_bind, post_modify.
  set (final := if Js.truthy _ then _ else _).
  set (s := new_session _ _ _ _ _ _ _).
  set (w1 := with_activeSessions _ w0).
  assert (Hag : agree w w1).
  { destruct Hq as (?&?&?&?&?&?). repeat split; assumption. }
  assert (Hcfg : same_config w w1).
  { destruct Hq as (?&?&?&?&?&?). repeat split; assumption. }
  assert (Hmap : activeSessions w1 = <[sessionId := s]> (activeSessions w)).
  { destruct Hq as (_&_&_&_&E&_). subst w1. simpl. now rewrite E. }
  clearbody w1. clear Hq w0.
  apply post_try_catch, post_bind. unfold post at 1.
  rewrite (calls_only_analyzeAndRefine initialPrompt w w1 Hag).
  pose proof (analyzeAndRefine_post initialPrompt w) as HA. unfold post in HA.
  destruct (analyzeAndRefine initialPrompt w)
    as [[[questions a|refined a]|e] w2] eqn:EA; cbn [fst snd].
  - (* the analyzer asks for clarification *)
    destruct HA as (l & [Ha _] & Hl & _).
    apply post_bind, post_modify, post_ret.
    exists l. split; [exact Ha|]. split; [exact Hcfg|].
    split. { intros k Hk. simpl. rewrite lookup_alter_ne by congruence.
             rewrite Hmap. now apply lookup_insert_ne. }
    split. { intros q' a' E. rewrite EA in E. now injection E as -> _. }
    split; [reflexivity|]. split; [exact Hl|].
    exists (set_pendingClarifications (Some questions) s).
    split. { simpl. rewrite lookup_alter_eq, Hmap, lookup_insert_eq. reflexivity. }
    repeat split.
  - (* the analyzer refined the prompt: the pipeline runs *)
    destruct HA as (l & [Ha _] & Hl & Hok & Hlen).
    apply post_bind, post_modify.
    set (w3 := with_activeSessions _ _).
    assert (Hs : activeSessions w3 !! sessionId
                 = Some (set_refinedPrompt (Str refined) s)).
    { subst w3. simpl. now rewrite lookup_alter_eq, Hmap, lookup_insert_eq. }
    eapply post_mono;
      [apply (startCollaborativeGeneration_post _ _ _ Hs)| |contradiction].
    intros r w' (l2 & Ha2 & Hcfg2 & Hother & Hp & Hstop & Hr).
    assert (Ha3 : added w w3 l) by exact Ha.
    exists (l ++ l2). split; [eapply added_app; eassumption|].
    split. { destruct Hcfg as (?&?&?&?), Hcfg2 as (?&?&?&?).
             repeat split; simpl in *; congruence. }
    split. { intros k Hk. rewrite Hother by (simpl; congruence).
             subst w3. simpl. rewrite lookup_alter_ne by congruence.
             rewrite Hmap. now apply lookup_insert_ne. }
    split. { intros q' a' E. rewrite EA in E. discriminate. }
    destruct r as [| sid res | e]; [contradiction| |exact Hr].
    destruct Hr as (-> & Hall & Hsites & Hgone & Hdone & Huse).
    split; [reflexivity|]. split; [exact Hgone|].
    exists l, l2. split; [reflexivity|]. split; [exact Hl|].
    split; [exact Hlen|].
    split. { apply Forall_app. now split. }
    split; [exact Hsites|].
    simpl in Hdone, Huse. split.
    + rewrite Hdone. now destruct iterations.
    + rewrite Huse, usage_total_empty, <- (length_map c_site l2), Hsites,
        pipeline_sites_length. simpl. lia.
  - (* the analyzer failed *)
    destruct HA as (l & [Ha _] & Hl).
    apply post_bind, post_modify, post_ret.
    exists l. split; [exact Ha|]. split; [exact Hcfg|].
    split. { intros k Hk. simpl. rewrite lookup_delete_ne by congruence.
             rewrite Hmap. now apply lookup_insert_ne. }
    split. { intros q' a' E. rewrite EA in E. discriminate. }
    simpl. apply lookup_delete_eq.
Qed.

(** The sessions after [submitClarification] has replaced the progress
    callback of the session [sessionId], if it was given one. *)
Definition with_callback (sessionId : string) (callback : option nat)
  (m : gmap string session) : gmap string session :=
  match callback with
  | Some _ => alter (set_progressCallback callback) sessionId m
  | None => m
  end.

(** What [submitClarification] has done for a session [s] that waits for
    the answers to [pending], when it returns [r]. *)
Definition submitted (sessionId : string) (s : session)
  (pending : list question) (ans : answers) (callback : option nat)
  (w : world) (r : response) (w' : world) : Prop :=
  exists l,
    added w w' l /\
    same_config w w' /\
    (forall k, k <> sessionId -> k <> id s ->
               activeSessions w' !! k = activeSessions w !! k) /\
    match validateClarificationAnswers pending ans with
    | Throws e =>
        l = [] /\ r = Failure e /\
        activeSessions w' = with_callback sessionId callback (activeSessions w)
    | Returns ((_ :: _) as validationErrors) =>
        l = [] /\
        r = Failure ("Validation errors: " +:+ Js.join ", " validationErrors) /\
        activeSessions w' = with_callback sessionId callback (activeSessions w)
    | Returns [] =>
        exists c l2,
          l = c :: l2 /\ c_site c = AtClarifiedRefinement /\
          match c_outcome c with
          | Throws e =>
              l2 = [] /\ r = Failure e /\
              activeSessions w' = with_callback sessionId callback (activeSessions w)
          | Returns refined =>
              map c_site l2 `prefix_of` pipeline_sites (targetIterations s) /\
              stopped l2 /\
              match r with
              | Complete sid res =>
                  sid = sessionId /\
                  Forall succeeded l2 /\
                  map c_site l2 = pipeline_sites (targetIterations s) /\
                  activeSessions w' !! id s = None /\
                  usage_total (r_modelUsageStats res)
                  = 2 * targetIterations s + 2 + usage_total (modelUsageStats s)
              | Failure e => activeSessions w' !! sessionId = None
              | NeedsClarification _ _ => False
              end
          end
    end.

Lemma with_callback_lookup_ne sessionId callback m k :
  k <> sessionId -> with_callback sessionId callback m !! k = m !! k.
Proof.
  intros H. destruct callback; simpl; [|reflexivity].
  apply lookup_alter_ne. congruence.
Qed.

Lemma submitClarification_post sessionId s pending ans callback w :
  activeSessions w !! sessionId = Some s ->
  pendingClarifications s = Some pending ->
  post (submitClarification sessionId ans callback) w
    (submitted sessionId s pending ans callback w) (fun _ _ => False).
Proof.
  intros Hs Hpending. unfold submitClarification.
  apply post_bind, post_get. rewrite Hs, Hpending.
  apply post_try_catch, post_bind.
  set (s1 := match callback with Some _ => _ | None => s end).
  assert (H1 : exists w1,
             (match callback with
              | Some _ => assign sessionId (set_progressCallback callback)
              | None => ret tt
              end) w = (Returns tt, w1) /\
             added w w1 [] /\ same_config w w1 /\
             activeSessions w1 = with_callback sessionId callback (activeSessions w)).
  { destruct callback; eexists; (split; [reflexivity|]);
      (split; [unfold added; simpl; now rewrite app_nil_r|]); repeat split. }
  destruct H1 as (w1 & E1 & Ha1 & Hc1 & Hm1).
  unfold post at 1. rewrite E1.
  assert (Hs1 : activeSessions w1 !! sessionId = Some s1).
  { rewrite Hm1. subst s1. destruct callback; simpl; [|exact Hs].
    now rewrite lookup_alter_eq, Hs. }
  apply post_bind, post_sendProgressUpdate. intros w2 Hq.
  assert (Ha2 : added w w2 []) by (eapply added_quiet; eassumption).
  assert (Hc2 : same_config w w2).
  { destruct Hc1 as (?&?&?&?), Hq as (?&?&?&?&?&?). repeat split; congruence. }
  assert (Hm2 : activeSessions w2 = with_callback sessionId callback (activeSessions w)).
  { destruct Hq as (_&_&_&_&->&_). exact Hm1. }
  assert (Hs2 : activeSessions w2 !! sessionId = Some s1) by (now rewrite Hm2, <- Hm1).
  clear E1 Ha1 Hc1 Hm1 Hs1 Hq w1.
  unfold submitted.
  apply post_bind, post_lift.
  destruct (validateClarificationAnswers pending ans) as [[|err errs]|e].
  2:{ apply post_ret. exists []. split; [exact Ha2|]. split; [exact Hc2|].
      split. { intros k Hk _. rewrite Hm2. now apply with_callback_lookup_ne. }
      split; [reflexivity|]. split; [reflexivity|exact Hm2]. }
  2:{ apply post_ret. exists []. split; [exact Ha2|]. split; [exact Hc2|].
      split. { intros k Hk _. rewrite Hm2. now apply with_callback_lookup_ne. }
      split; [reflexivity|]. split; [reflexivity|exact Hm2]. }
  apply post_bind.
  eapply post_mono; [apply refineWithClarifications_post| |].
  2:{ intros e w3 (c & [Ha3 Hst3] & Hsite & Hfail). apply post_ret.
      exists [c]. split; [eapply (added_app _ _ _ []); eassumption|].
      split. { apply steady_same_config in Hst3.
               destruct Hc2 as (?&?&?&?), Hst3 as (?&?&?&?).
               repeat split; congruence. }
      split. { intros k Hk _. destruct Hst3 as (_&_&_&_&->). rewrite Hm2.
               now apply with_callback_lookup_ne. }
      exists c, []. split; [reflexivity|]. split; [exact Hsite|].
      rewrite Hfail. split; [reflexivity|]. split; [reflexivity|].
      destruct Hst3 as (_&_&_&_&->). exact Hm2. }
  intros refined w3 (c & [Ha3 Hst3] & Hsite & Hout).
  apply post_bind, post_modify.
  set (s2 := set_pendingClarifications None (set_refinedPrompt (Str refined) s1)).
  set (w4 := with_activeSessions _ w3).
  assert (Hs4 : activeSessions w4 !! sessionId = Some s2).
  { subst w4. simpl. rewrite lookup_alter_eq.
    destruct Hst3 as (_&_&_&_&->). now rewrite Hs2. }
  assert (Hids : id s2 = id s) by (subst s2 s1; now destruct callback).
  assert (Hn : targetIterations s2 = targetIterations s)
    by (subst s2 s1; now destruct callback).
  assert (Hu : modelUsageStats s2 = modelUsageStats s)
    by (subst s2 s1; now destruct callback).
  eapply post_mono;
    [apply (startCollaborativeGeneration_post _ _ _ Hs4)| |contradiction].
  intros r w' (l2 & Ha4 & Hcfg4 & Hother & Hp & Hstop & Hr).
  rewrite Hn in *. rewrite Hids in *. rewrite Hu in *.
  exists ([c] ++ l2). split.
  { eapply added_app; [|exact Ha4].
    eapply (added_app _ _ _ []); [exact Ha2|exact Ha3]. }
  split. { apply steady_same_config in Hst3.
           destruct Hc2 as (?&?&?&?), Hst3 as (?&?&?&?), Hcfg4 as (?&?&?&?).
           repeat split; simpl in *; congruence. }
  split. { intros k Hk Hk'. rewrite Hother by assumption.
           subst w4. simpl. rewrite lookup_alter_ne by congruence.
           destruct Hst3 as (_&_&_&_&->). rewrite Hm2.
           now apply with_callback_lookup_ne. }
  exists c, l2. split; [reflexivity|]. split; [exact Hsite|].
  rewrite Hout. split; [exact Hp|]. split; [exact Hstop|].
  destruct r as [| sid res | e]; [contradiction| |exact Hr].
  destruct Hr as (-> & Hall & Hsites & Hgone & _ & Huse). auto.
Qed.

(** A caller that answers the questions of one session again and again:
    the state after the submissions [subs], made in this order. *)
Fixpoint resubmit (sessionId : string) (subs : list (answers * option nat))
  (w : world) : world :=
  match subs with
  | [] => w
  | (ans, callback) :: rest =>
      resubmit sessionId rest (snd (submitClarification sessionId ans callback w))
  end.

(** The session [sessionId] waits for the answers to [questions]. *)
Definition parked (sessionId : string) (questions : list question)
  (w : world) : Prop :=
  exists s,
    activeSessions w !! sessionId = Some s /\
    id s = sessionId /\
    pendingClarifications s = Some questions /\
    refinedPrompt s = Null.

(** Since the state [w0], some submission had its answers refined into a
    prompt. *)
Definition clarified_since (w0 w : world) : Prop :=
  exists pre c post,
    calls w = calls w0 ++ pre ++ c :: post /\
    c_site c = AtClarifiedRefinement /\ succeeded c.

Lemma submitClarification_absent sessionId ans callback w :
  activeSessions w !! sessionId = None ->
  submitClarification sessionId ans callback w
  = (Returns (Failure "Session not found"), w).
Proof. intros H. unfold submitClarification, bind, get. now rewrite H. Qed.

Lemma resubmit_gate sessionId questions w0 subs : forall w,
  (exists l, calls w = calls w0 ++ l) ->
  parked sessionId questions w \/
  (activeSessions w !! sessionId = None /\ clarified_since w0 w) ->
  parked sessionId questions (resubmit sessionId subs w) \/
  (activeSessions (resubmit sessionId subs w) !! sessionId = None /\
   clarified_since w0 (resubmit sessionId subs w)).
Proof.
  induction subs as [|[ans callback] subs IH]; intros w [l0 Hl0] H; simpl;
    [exact H|].
  destruct H as [(s & Hs & Hid & Hpend & Hnull)|[Hnone Hsince]].
  2:{ rewrite (submitClarification_absent _ _ _ _ Hnone). simpl.
      apply IH; eauto. }
  pose proof (submitClarification_post sessionId s questions ans callback w
                Hs Hpend) as H.
  unfold post in H.
  destruct (submitClarification sessionId ans callback w) as [[r|e] w1];
    [|contradiction].
  destruct H as (l & Ha & _ & _ & H). simpl.
  assert (Hl1 : exists l1, calls w1 = calls w0 ++ l1).
  { exists (l0 ++ l). unfold added in Ha. now rewrite Ha, Hl0, app_assoc. }
  assert (Hkeep : activeSessions w1 = with_callback sessionId callback (activeSessions w)
                  -> parked sessionId questions w1).
  { intros E. unfold parked. rewrite E.
    destruct callback; simpl.
    - rewrite lookup_alter_eq, Hs. simpl. eauto.
    - eauto. }
  apply IH; [exact Hl1|].
  destruct (validateClarificationAnswers questions ans) as [[|err errs]|e].
  2,3: destruct H as (_ & _ & E); left; auto.
  destruct H as (c & l2 & -> & Hsite & H).
  destruct (c_outcome c) as [refined|e] eqn:Hout.
  - right. destruct H as (_ & _ & H). split.
    + destruct r as [| sid res | e]; [contradiction| |exact H].
      destruct H as (_ & _ & _ & H & _). now rewrite Hid in H.
    + exists l0, c, l2. split; [|split; [exact Hsite|]].
      * unfold added in Ha. now rewrite Ha, Hl0, app_assoc.
      * eapply succeeded_returns; eassumption.
  - left. destruct H as (_ & _ & E). auto.
Qed.

(** C3. If the prompt analyzer asks for clarification, [startRefinementProcess]
    returns the session id with the list of questions; every call of the
    generation service it made is a call of the analyzer, none of the
    pipeline; the session is in [activeSessions] with these questions as
    [pendingClarifications] and with [refinedPrompt] null.  Whatever answers
    are then submitted for this session, and however often, the session
    stays so, with [refinedPrompt] null, as long as it is active; and it
    leaves [activeSessions] only once a submission had its answers refined
    into a prompt. *)
Theorem clarification_gate sessionId initialPrompt sel iterations callback w
    questions a :
  fst (analyzeAndRefine initialPrompt w) = Returns (Clarify questions a) ->
  exists w' l s,
    startRefinementProcess sessionId initialPrompt sel iterations callback w
    = (Returns (NeedsClarification sessionId questions), w') /\
    calls w' = calls w ++ l /\
    Forall analyzer_call l /\
    activeSessions w' !! sessionId = Some s /\
    pendingClarifications s = Some questions /\
    refinedPrompt s = Null /\
    forall subs,
      match activeSessions (resubmit sessionId subs w') !! sessionId with
      | Some s' =>
          pendingClarifications s' = Some questions /\ refinedPrompt s' = Null
      | None => clarified_since w' (resubmit sessionId subs w')
      end.
Proof.
  intros HA.
  pose proof (startRefinementProcess_post sessionId initialPrompt sel iterations
                callback w) as H.
  unfold post in H.
  destruct (startRefinementProcess _ _ _ _ _ w) as [[r|e] w'] eqn:E;
    [|contradiction].
  destruct H as (l & Ha & _ & _ & Hr & H).
  rewrite (Hr _ _ HA) in *.
  destruct H as (_ & Hl & s & Hs & Hid & Hpend & Hnull & _).
  exists w', l, s. repeat split; try assumption.
  intros subs.
  destruct (resubmit_gate sessionId questions w' subs w') as [P|[Hnone Hsince]].
  - exists []. now rewrite app_nil_r.
  - left. exists s. auto.
  - destruct P as (s' & -> & _ & ? & ?). auto.
  - now rewrite Hnone.
Qed.

(** The errors are pushed in the order of the questions, after those the
    loop of [validateClarificationAnswers] started with. *)
Lemma validation_loop_app ans questions : forall errors,
  validation_loop ans questions errors
  = match validation_loop ans questions [] with
    | Returns more => Returns (errors ++ more)
    | Throws e => Throws e
    end.
Proof.
  induction questions as [|q questions IH]; intros errors; simpl.
  - now rewrite app_nil_r.
  - destruct (answer_error ans q) as [[message|]|e]; [|apply IH|reflexivity].
    rewrite (IH (errors ++ [message])), (IH [message]).
    destruct (validation_loop ans questions []); [|reflexivity].
    now rewrite <- app_assoc.
Qed.

Lemma validateClarificationAnswers_cons q questions ans :
  validateClarificationAnswers (q :: questions) ans
  = match answer_error ans q with
    | Returns message =>
        match validateClarificationAnswers questions ans with
        | Returns errors =>
            Returns (match message with
                     | Some m => m :: errors
                     | None => errors
                     end)
        | Throws e => Throws e
        end
    | Throws e => Throws e
    end.
Proof.
  unfold validateClarificationAnswers. simpl.
  destruct (answer_error ans q) as [[message|]|e]; [| |reflexivity].
  - rewrite validation_loop_app.
    now destruct (validation_loop ans questions []).
  - now destruct (validation_loop ans questions []).
Qed.

(** The answer to [q] is absent, or has fewer than three code units once
    trimmed (a blank answer has none). *)
Definition too_short (ans : answers) (q : question) : Prop :=
  match Js.own ans (q_id q) with
  | Some answer => String.length (Js.trim answer) < 3
  | None => True
  end.

(** The answers have no entry of their own for [q], whose id names a member
    that every object inherits. *)
Definition reads_inherited (ans : answers) (q : question) : Prop :=
  Js.own ans (q_id q) = None /\ Js.inherited (q_id q) = true.

Lemma answer_error_spec ans q :
  match answer_error ans q with
  | Returns message =>
      ~ reads_inherited ans q /\ (is_Some message <-> too_short ans q)
  | Throws e => e = "answer.trim is not a function" /\ reads_inherited ans q
  end.
Proof.
  unfold answer_error, answer_of, reads_inherited, too_short.
  destruct (Js.own ans (q_id q)) as [answer|].
  2:{ destruct (Js.inherited (q_id q)).
      - split; [reflexivity|split; reflexivity].
      - split; [intros [_ H]; discriminate|]. split; eauto. }
  split; [intros [H _]; discriminate|].
  destruct answer as [|c answer].
  { simpl. split; [intros _; vm_compute; lia|eauto]. }
  cbn [Js.truthy String.eqb negb orb].
  destruct (String.length (Js.trim (String c answer)) =? 0) eqn:E0.
  { apply Nat.eqb_eq in E0. split; [intros _; lia|eauto]. }
  destruct (String.length (Js.trim (String c answer)) <? 3) eqn:E3.
  { apply Nat.ltb_lt in E3. split; [intros _; exact E3|eauto]. }
  apply Nat.ltb_ge in E3. split; [intros [x Hx]; discriminate|lia].
Qed.

(** X25. [validateClarificationAnswers] throws the [TypeError]
    [answer.trim is not a function] exactly when the answers have no entry
    of their own for some question whose id names a member that every
    object inherits ([constructor], [toString], ...).  Otherwise it returns
    its list of errors, and it reports an error exactly when the answer to
    some question is absent, or has fewer than three code units once
    trimmed (a blank answer has none). *)
Lemma validation_rejects_exactly pending ans :
  match validateClarificationAnswers pending ans with
  | Throws e =>
      e = "answer.trim is not a function" /\
      exists q, q ∈ pending /\
                Js.own ans (q_id q) = None /\ Js.inherited (q_id q) = true
  | Returns errors =>
      (forall q, q ∈ pending -> Js.own ans (q_id q) = None ->
                 Js.inherited (q_id q) = false) /\
      (errors <> [] <->
       exists q, q ∈ pending /\
                 match Js.own ans (q_id q) with
                 | Some answer => String.length (Js.trim answer) < 3
                 | None => True
                 end)
  end.
Proof.
  induction pending as [|q pending IH].
  - split; [intros q Hq; inversion Hq|].
    split; [congruence|]. intros (q & Hq & _). inversion Hq.
  - rewrite validateClarificationAnswers_cons.
    pose proof (answer_error_spec ans q) as Hq.
    destruct (answer_error ans q) as [message|e].
    2:{ destruct Hq as [-> Hq]. split; [reflexivity|].
        exists q. split; [left|exact Hq]. }
    destruct Hq as [Hown Hq].
    destruct (validateClarificationAnswers pending ans) as [errors|e].
    2:{ destruct IH as [-> (q' & Hq' & H)]. split; [reflexivity|].
        exists q'. split; [now right|exact H]. }
    destruct IH as [Hnone IH]. split.
    { intros q' Hq' E. apply elem_of_cons in Hq' as [->|Hq'].
      - destruct (Js.inherited (q_id q)) eqn:Ei; [|reflexivity].
        exfalso. apply Hown. split; assumption.
      - now apply Hnone. }
    destruct message as [m|].
    + split; [|discriminate]. intros _. exists q. split; [left|].
      apply Hq. eauto.
    + rewrite IH. split.
      * intros (q' & Hq' & H). exists q'. split; [now right|exact H].
      * intros (q' & Hq' & H). apply elem_of_cons in Hq' as [->|Hq'].
        -- apply Hq in H. destruct H; discriminate.
        -- exists q'. auto.
Qed.

(** C9. When [submitClarification] rejects the answers of a waiting session
    with a validation error, it has called no model and has left the
    session in [activeSessions], with its [pendingClarifications] and its
    null [refinedPrompt]: the sessions are as before, but for the progress
    callback of this one, which is replaced when the call supplies one.  A
    later [submitClarification] on the same id with valid answers therefore
    passes the checks and asks the model for the refined prompt.  The same
    holds when the validation itself throws: the result then carries the
    message of the exception. *)
Theorem validation_error_keeps_session sessionId s pending ans callback w :
  activeSessions w !! sessionId = Some s ->
  pendingClarifications s = Some pending ->
  refinedPrompt s = Null ->
  validateClarificationAnswers pending ans <> Returns [] ->
  exists w' s',
    submitClarification sessionId ans callback w
    = (Returns (Failure
                  match validateClarificationAnswers pending ans with
                  | Returns validationErrors =>
                      "Validation errors: " +:+ Js.join ", " validationErrors
                  | Throws e => e
                  end),
       w') /\
    calls w' = calls w /\
    activeSessions w' = with_callback sessionId callback (activeSessions w) /\
    activeSessions w' !! sessionId = Some s' /\
    set_progressCallback None s' = set_progressCallback None s /\
    pendingClarifications s' = Some pending /\
    refinedPrompt s' = Null /\
    forall ans' callback',
      validateClarificationAnswers pending ans' = Returns [] ->
      exists r w'' c l,
        submitClarification sessionId ans' callback' w' = (Returns r, w'') /\
        calls w'' = calls w' ++ c :: l /\
        c_site c = AtClarifiedRefinement.
Proof.
  intros Hs Hpend Hnull Hbad.
  pose proof (submitClarification_post sessionId s pending ans callback w
                Hs Hpend) as H.
  unfold post in H.
  destruct (submitClarification sessionId ans callback w) as [[r|e] w'];
    [|contradiction].
  destruct H as (l & Ha & _ & _ & H).
  assert (H' : l = [] /\
               r = Failure
                     match validateClarificationAnswers pending ans with
                     | Returns validationErrors =>
                         "Validation errors: " +:+ Js.join ", " validationErrors
                     | Throws e => e
                     end /\
               activeSessions w'
               = with_callback sessionId callback (activeSessions w)).
  { destruct (validateClarificationAnswers pending ans) as [[|err errs]|e];
      [contradiction|exact H..]. }
  clear H. destruct H' as (-> & -> & Hm).
  set (s' := match callback with
             | Some _ => set_progressCallback callback s
             | None => s
             end).
  assert (Hs' : activeSessions w' !! sessionId = Some s').
  { rewrite Hm. subst s'. destruct callback; simpl; [|exact Hs].
    now rewrite lookup_alter_eq, Hs. }
  assert (Hpend' : pendingClarifications s' = Some pending)
    by (subst s'; now destruct callback).
  exists w', s'. split; [reflexivity|].
  split. { unfold added in Ha. now rewrite app_nil_r in Ha. }
  split; [exact Hm|]. split; [exact Hs'|].
  split. { subst s'. now destruct callback. }
  split; [exact Hpend'|].
  split. { subst s'. now destruct callback. }
  intros ans' callback' Hv.
  pose proof (submitClarification_post sessionId s' pending ans' callback' w'
                Hs' Hpend') as H.
  unfold post in H.
  destruct (submitClarification sessionId ans' callback' w') as [[r|e] w''];
    [|contradiction].
  destruct H as (l & Ha' & _ & _ & H). rewrite Hv in H.
  destruct H as (c & l2 & -> & Hsite & H).
  exists r, w'', c, l2. split; [reflexivity|]. split; [exact Ha'|].
  exact Hsite.
Qed.

(** The calls of the pipeline among the calls [l]. *)
Definition pipeline_calls (l : list call) : list call :=
  filter (fun c => pipeline_site (c_site c) = true) l.

Lemma pipeline_calls_analyzer l : Forall analyzer_call l -> pipeline_calls l = [].
Proof.
  unfold pipeline_calls. induction 1 as [|c l Hc _ IH]; [reflexivity|].
  rewrite filter_cons, IH. unfold analyzer_call in Hc.
  destruct (decide _) as [E|_]; [congruence|reflexivity].
Qed.

Lemma pipeline_sites_are_pipeline n :
  Forall (fun st => pipeline_site st = true) (pipeline_sites n).
Proof.
  unfold pipeline_sites. constructor; [reflexivity|].
  apply Forall_app. split; [|repeat constructor].
  unfold iteration_sites. apply Forall_forall. intros st H.
  apply list_elem_of_In, in_flat_map in H.
  destruct H as (k & _ & [<-|[<-|[]]]); reflexivity.
Qed.

Lemma pipeline_calls_all n l :
  map c_site l = pipeline_sites n -> pipeline_calls l = l.
Proof.
  intros E. pose proof (pipeline_sites_are_pipeline n) as H. rewrite <- E in H.
  clear E. unfold pipeline_calls. induction l as [|c l IH]; [reflexivity|].
  simpl in H. inversion H as [|? ? Hc Hl]; subst.
  rewrite filter_cons, IH by assumption.
  destruct (decide _); [reflexivity|contradiction].
Qed.

Lemma pipeline_calls_app l1 l2 :
  pipeline_calls (l1 ++ l2) = pipeline_calls l1 ++ pipeline_calls l2.
Proof. apply filter_app. Qed.

(** C5, as the code has it.  When a session completes, whether straight
    from [startRefinementProcess] or after [submitClarification], the totals
    of [modelUsageStats], summed over the models, count the calls of the
    generation service that the pipeline made in the session, 1 + 2N + 1 of
    them: the calls the prompt analyzer made in the same session (analysis,
    questions, refinement of the prompt) are not counted. *)
Theorem usage_counts_pipeline_calls :
  (forall sessionId initialPrompt sel iterations callback w sid res w',
     startRefinementProcess sessionId initialPrompt sel iterations callback w
     = (Returns (Complete sid res), w') ->
     exists l,
       calls w' = calls w ++ l /\
       usage_total (r_modelUsageStats res) = length (pipeline_calls l) /\
       length (pipeline_calls l) = 1 + 2 * iterations + 1 /\
       length (pipeline_calls l) < length l) /\
  (forall sessionId s pending ans callback w sid res w',
     activeSessions w !! sessionId = Some s ->
     pendingClarifications s = Some pending ->
     modelUsageStats s = ∅ ->
     submitClarification sessionId ans callback w
     = (Returns (Complete sid res), w') ->
     exists l,
       calls w' = calls w ++ l /\
       usage_total (r_modelUsageStats res) = length (pipeline_calls l) /\
       length (pipeline_calls l) = 1 + 2 * targetIterations s + 1 /\
       length (pipeline_calls l) < length l).
Proof.
  split.
  - intros sessionId initialPrompt sel iterations callback w sid res w' E.
    pose proof (post_elim _ _ _ _ _ _
                  (startRefinementProcess_post sessionId initialPrompt sel
                     iterations callback w) E) as (l & Ha & _ & _ & Hq & H).
    destruct H as (_ & _ & l1 & l2 & -> & Hl1 & Hlen & _ & Hsites & _ & Huse).
    exists (l1 ++ l2). split; [exact Ha|].
    rewrite pipeline_calls_app, (pipeline_calls_analyzer _ Hl1),
      (pipeline_calls_all _ _ Hsites). simpl.
    split; [exact Huse|].
    split. { now rewrite <- (length_map c_site l2), Hsites, pipeline_sites_length. }
    rewrite length_app. lia.
  - intros sessionId s pending ans callback w sid res w' Hs Hpend Hu E.
    pose proof (post_elim _ _ _ _ _ _
                  (submitClarification_post sessionId s pending ans callback w
                     Hs Hpend) E) as (l & Ha & _ & _ & H).
    destruct (validateClarificationAnswers pending ans) as [[|err errs]|e].
    2,3: destruct H as (_ & H & _); discriminate.
    destruct H as (c & l2 & -> & Hsite & H).
    destruct (c_outcome c).
    2:{ destruct H as (_ & H & _). discriminate. }
    destruct H as (_ & _ & _ & _ & Hsites & _ & Huse).
    exists (c :: l2). split; [exact Ha|].
    change (c :: l2) with ([c] ++ l2).
    rewrite pipeline_calls_app, (pipeline_calls_all _ _ Hsites).
    rewrite (pipeline_calls_analyzer [c]).
    2:{ repeat constructor. unfold analyzer_call. now rewrite Hsite. }
    simpl. rewrite Huse, Hu, usage_total_empty.
    rewrite <- (length_map c_site l2), Hsites, pipeline_sites_length.
    repeat split; lia.
Qed.

(* ===================================================================== *)
(** * Properties of the generation service, the strategies and the prompts *)
(* ===================================================================== *)

(** The number [n] as a binary64 value. *)
Definition binary64 (n : N) : float := PrimFloat.of_uint63 (Uint63.of_Z (Z.of_N n)).

(** [config.maxTokens * 0.7], as JavaScript computes it in binary64, is for
    every model of the registry the integer [maxTokens * 7 / 10]; this is
    why [validatePromptLength] can compare integers. *)
Remark seventy_percent_is_exact :
  Forall (fun m => PrimFloat.eqb (PrimFloat.mul (binary64 (maxTokens (snd m))) 0.7)
                     (binary64 (maxTokens (snd m) * 7 / 10)) = true
                   /\ (maxTokens (snd m) * 7 mod 10 = 0)%N)
    modelConfig.
Proof. repeat constructor. Qed.

(** The client of a provider has been created. *)
Definition client_ready (w : world) (p : provider) : Prop :=
  match p with
  | OpenAI => is_Some (openaiClient w)
  | Anthropic => is_Some (anthropicClient w)
  end.

(** C4, as the code has it.  For every model of the registry and every
    prompt whose estimated token count, ceil(length / 4), exceeds 70% of
    the model's [maxTokens], [validatePromptLength] throws the prompt-too-long
    error.  [generateResponse] does not make this check: whenever the client
    of the provider is ready it hands the prompt, whatever its length, to the
    provider, and the call ends as the provider decides. *)
Theorem prompt_length_guard_is_separate modelId cfg prompt :
  Js.own modelConfig modelId = Some cfg ->
  (maxTokens cfg * 7 < estimateTokenCount prompt * 10)%N ->
  (N.of_nat (String.length prompt) <= 4 * estimateTokenCount prompt
   < N.of_nat (String.length prompt) + 4)%N /\
  validatePromptLength modelId prompt
  = Throws ("Prompt too long for " +:+ modelId +:+ ": "
            +:+ pretty (estimateTokenCount prompt) +:+ " tokens "
            +:+ "(max: " +:+ pretty (maxTokens cfg * 7 / 10)%N +:+ ")") /\
  forall at_ o w,
    client_ready w (cfg_provider cfg) ->
    exists rq,
      snd (respond (Str modelId) (Str prompt) o w) = Some rq /\
      rq_model rq = modelName cfg /\
      rq_content rq = Str prompt /\
      snd (generateResponse at_ (Str modelId) (Str prompt) o w)
      = record (Call at_ (Str modelId) (Str prompt) (Some rq)
                  (fst (respond (Str modelId) (Str prompt) o w))) w.
Proof.
  intros Hcfg Hlong. split; [|split].
  - unfold estimateTokenCount.
    assert (Hnz : (4 <> 0)%N) by lia.
    pose proof (N.div_mod (N.of_nat (String.length prompt) + 3) 4 Hnz) as D.
    pose proof (N.mod_lt (N.of_nat (String.length prompt) + 3) 4 Hnz) as L.
    clear Hlong.
    generalize dependent ((N.of_nat (String.length prompt) + 3) mod 4)%N.
    generalize dependent ((N.of_nat (String.length prompt) + 3) / 4)%N.
    generalize (N.of_nat (String.length prompt)).
    intros n q r D L. lia.
  - unfold validatePromptLength. rewrite Hcfg.
    apply N.ltb_lt in Hlong. now rewrite Hlong.
  - intros at_ o w Hready. unfold generateResponse, respond. cbn [Js.show].
    rewrite Hcfg. unfold client_ready in Hready.
    destruct (cfg_provider cfg); destruct Hready as [key ->]; simpl;
      eexists; repeat split.
Qed.

(** C6. Under the [model_specialization] strategy, the model chosen for the
    phase 'critique' is the one the table gives for [analytical_critique],
    whatever the current model, the iteration and the number of iterations;
    for a phase that the table of phases does not list, it is the current
    model, unchanged. *)
Theorem model_specialization_next_model w currentModel iteration totalIterations
    phase :
  handoffStrategies "model_specialization" = Some model_specialization /\
  (exists m, Js.own specializationMap "analytical_critique" = Some m /\
             getNextModel model_specialization w currentModel iteration
               totalIterations "critique" = Str m) /\
  (Js.own phaseToSpecialization phase = None ->
   getNextModel model_specialization w currentModel iteration totalIterations
     phase = currentModel).
Proof.
  split; [reflexivity|]. split.
  - exists "claude-sonnet-4". split; reflexivity.
  - intros H. unfold getNextModel. now rewrite H.
Qed.

(** Two records of the history that differ at most in their time stamps. *)
Definition same_step (e1 e2 : entry) : Prop :=
  h_iteration e1 = h_iteration e2 /\
  h_model e1 = h_model e2 /\
  h_type e1 = h_type e2 /\
  h_input e1 = h_input e2 /\
  h_output e1 = h_output e2.

Lemma same_step_refl e : same_step e e.
Proof. repeat split. Qed.

(** C7. The critique prompt and the improvement prompt are functions of
    their arguments alone: two calls with the same original prompt, current
    response, critique, iteration, number of iterations and history build
    the same string, code unit by code unit.  The time stamps of the history
    play no part, so a replayed history, recorded at other times, builds the
    same prompts as well. *)
Theorem prompt_construction_deterministic originalPrompt currentResponse
    critique iteration totalIterations history1 history2 :
  Forall2 same_step history1 history2 ->
  buildCritiquePrompt originalPrompt currentResponse iteration totalIterations
    history1
  = buildCritiquePrompt originalPrompt currentResponse iteration totalIterations
      history2 /\
  buildImprovementPrompt originalPrompt currentResponse critique iteration
    totalIterations history1
  = buildImprovementPrompt originalPrompt currentResponse critique iteration
      totalIterations history2.
Proof.
  intros H. split; [|reflexivity].
  unfold buildCritiquePrompt.
  assert (E : map (fun h => "Iteration " +:+ Js.num (h_iteration h) +:+ ": "
                            +:+ Js.substring0 200 (h_output h) +:+ "...")
                (filter (fun h => h_type h = "critique") history1)
              = map (fun h => "Iteration " +:+ Js.num (h_iteration h) +:+ ": "
                              +:+ Js.substring0 200 (h_output h) +:+ "...")
                  (filter (fun h => h_type h = "critique") history2)).
  { induction H as [|e1 e2 l1 l2 (Hi & _ & Ht & _ & Ho) _ IH]; [reflexivity|].
    rewrite !filter_cons, <- Ht.
    destruct (decide _); simpl; now rewrite ?Hi, ?Ho, IH. }
  now rewrite E.
Qed.

(** The operations a caller of the engine can perform. *)
Inductive operation : Type :=
| SetApiKeys (k : credentials)
| Start (sessionId : string) (initialPrompt : string) (sel : selection)
    (iterations : nat) (callback : option nat)
| Submit (sessionId : string) (ans : answers) (callback : option nat).

(** The state after an operation. *)
Definition perform (w : world) (op : operation) : world :=
  match op with
  | SetApiKeys k => snd (setApiKeys k w)
  | Start sessionId initialPrompt sel iterations callback =>
      snd (startRefinementProcess sessionId initialPrompt sel iterations callback w)
  | Submit sessionId ans callback =>
      snd (submitClarification sessionId ans callback w)
  end.

(** The credentials given to the last [SetApiKeys] among the operations
    [ops], and [k] when there is none. *)
Fixpoint last_keys (k : credentials) (ops : list operation) : credentials :=
  match ops with
  | [] => k
  | SetApiKeys k' :: ops => last_keys k' ops
  | _ :: ops => last_keys k ops
  end.

(** The models [setApiKeys] enables, from the keys it is given. *)
Lemma enabledModels_setApiKeys k w :
  enabledModels (perform w (SetApiKeys k))
  = Some (filter (fun m =>
                    match key_of k (d_provider m) with
                    | Some key =>
                        negb (String.eqb key "")
                        && Js.startsWith (Js.trim key)
                             (match d_provider m with
                              | OpenAI => "sk-"
                              | Anthropic => "sk-ant-"
                              end)
                    | None => false
                    end = true) availableModels).
Proof.
  cbn [perform setApiKeys modify bind ret snd updateAvailableModels
       enabledModels with_enabledModels].
  f_equal. apply list_filter_iff. intros m.
  destruct (d_provider m); cbn [key_of openai anthropic];
    [destruct (openai k) as [key|]|destruct (anthropic k) as [key|]];
    cbn [validated_key Js.truthy];
    try (split; [intros [? ?]|]; discriminate).
  - destruct (negb (String.eqb key "") && Js.startsWith (Js.trim key) "sk-");
      split; eauto; intros H; inversion H; discriminate.
  - destruct (negb (String.eqb key "")
              && Js.startsWith (Js.trim key) "sk-ant-");
      split; eauto; intros H; inversion H; discriminate.
Qed.

Lemma same_config_refl w : same_config w w.
Proof. repeat split. Qed.

Lemma same_config_perform w op :
  match op with SetApiKeys _ => True | _ => same_config w (perform w op) end.
Proof.
  destruct op as [k|sessionId initialPrompt sel iterations callback
                  |sessionId ans callback]; [exact I| |]; simpl.
  - pose proof (startRefinementProcess_post sessionId initialPrompt sel
                  iterations callback w) as H.
    unfold post in H.
    destruct (startRefinementProcess _ _ _ _ _ w) as [[r|e] w'];
      [|contradiction].
    destruct H as (l & _ & H & _). exact H.
  - destruct (activeSessions w !! sessionId) as [s|] eqn:Hs.
    2:{ rewrite (submitClarification_absent _ _ _ _ Hs). apply same_config_refl. }
    destruct (pendingClarifications s) as [pending|] eqn:Hp.
    2:{ unfold submitClarification, bind, get. rewrite Hs, Hp.
        apply same_config_refl. }
    pose proof (submitClarification_post sessionId s pending ans callback w
                  Hs Hp) as H.
    unfold post in H.
    destruct (submitClarification sessionId ans callback w) as [[r|e] w'];
      [|contradiction].
    destruct H as (l & _ & H & _). exact H.
Qed.

(** C8.  Once [setApiKeys] has been called, and whatever operations
    follow, [getAvailableModels] returns exactly the descriptors, in the
    order of [availableModels], whose provider was given a valid key in the
    last call of [setApiKeys]: a key that is not empty and that starts,
    once trimmed, with [sk-] for OpenAI and with [sk-ant-] for Anthropic.
    On a new orchestrator, before any call of [setApiKeys], it returns all
    five descriptors although no provider has a credential and no client is
    configured: there the code departs from the claim, and from the
    documentation of [getAvailableModels] (only those with valid API
    keys). *)
Theorem available_models_follow_credentials w k ops :
  getAvailableModels (fold_left perform ops (perform w (SetApiKeys k)))
  = filter (fun m =>
              match key_of (last_keys k ops) (d_provider m) with
              | Some key =>
                  negb (String.eqb key "")
                  && Js.startsWith (Js.trim key)
                       (match d_provider m with
                        | OpenAI => "sk-"
                        | Anthropic => "sk-ant-"
                        end)
              | None => false
              end = true) availableModels
  /\ getAvailableModels initial_world = availableModels
  /\ length (getAvailableModels initial_world) = 5
  /\ Forall (fun m => key_of (apiKeys initial_world) (d_provider m) = None)
       (getAvailableModels initial_world)
  /\ openaiClient initial_world = None
  /\ anthropicClient initial_world = None.
Proof.
  split.
  2:{ split; [reflexivity|]. split; [reflexivity|].
      split; [repeat constructor|]. split; reflexivity. }
  pose proof (enabledModels_setApiKeys k w) as H.
  revert H. generalize (perform w (SetApiKeys k)). clear w. revert k.
  induction ops as [|op ops IH]; intros k w H; cbn [fold_left last_keys].
  - unfold getAvailableModels. now rewrite H.
  - pose proof (same_config_perform w op) as C.
    destruct op as [k'| |].
    + apply IH, enabledModels_setApiKeys.
    + apply IH. destruct C as (_ & _ & _ & ->). exact H.
    + apply IH. destruct C as (_ & _ & _ & ->). exact H.
Qed.

(* ===================================================================== *)
(** * Evaluating the patterns of the program *)
(* ===================================================================== *)

Lemma run_lit total l : forall s cap k,
  Re.run total (Re.lit l) s cap k
  = if Js.prefixL l s then k (drop (length l) s) cap else None.
Proof.
  induction l as [|c l IH]; intros s cap k; [reflexivity|].
  cbn [Re.lit Re.run Re.chr Js.prefixL length].
  destruct s as [|d s]; [reflexivity|]. cbn [drop].
  destruct (Ascii.eqb c d); [apply IH|reflexivity].
Qed.
Section Evaluation.
Variable total : nat.
Implicit Types (r : Re.regex) (s : list ascii) (cap : option (list ascii))
  (k : Re.cont).

Lemma run_seq r1 r2 s cap k :
  Re.run total (Re.Seq r1 r2) s cap k
  = Re.run total r1 s cap (fun s' cap' => Re.run total r2 s' cap' k).
Proof. reflexivity. Qed.

Lemma run_alt r1 r2 s cap k :
  Re.run total (Re.Alt r1 r2) s cap k
  = Re.first_of (Re.run total r1 s cap k) (Re.run total r2 s cap k).
Proof. reflexivity. Qed.

Lemma run_group r s cap k :
  Re.run total (Re.Group r) s cap k
  = Re.run total r s cap
      (fun s' _ => k s' (Some (firstn (length s - length s') s))).
Proof. reflexivity. Qed.

Lemma run_ahead r s cap k :
  Re.run total (Re.Ahead r) s cap k
  = match Re.run total r s cap (fun s' cap' => Some (s', cap')) with
    | Some (_, cap') => k s cap'
    | None => None
    end.
Proof. reflexivity. Qed.

Lemma run_eol_nil cap k : Re.run total Re.Eol [] cap k = k [] cap.
Proof. reflexivity. Qed.

Lemma run_eol_cons c s cap k : Re.run total Re.Eol (c :: s) cap k = None.
Proof. reflexivity. Qed.

Lemma run_cls_nil p cap k : Re.run total (Re.Cls p) [] cap k = None.
Proof. reflexivity. Qed.

Lemma run_cls_yes p c s cap k :
  p c = true -> Re.run total (Re.Cls p) (c :: s) cap k = k s cap.
Proof. intros H. cbn [Re.run]. now rewrite H. Qed.

Lemma run_cls_no p c s cap k :
  p c = false -> Re.run total (Re.Cls p) (c :: s) cap k = None.
Proof. intros H. cbn [Re.run]. now rewrite H. Qed.

Lemma run_star_cons g p c s cap k :
  Re.run total (Re.Star g (Re.Cls p)) (c :: s) cap k
  = let more :=
      if p c then Re.run total (Re.Star g (Re.Cls p)) s cap k else None in
    if g then Re.first_of more (k (c :: s) cap)
    else Re.first_of (k (c :: s) cap) more.
Proof.
  cbn [Re.run length].
  rewrite (proj2 (Nat.ltb_lt _ _) (Nat.lt_succ_diag_r (length s))).
  reflexivity.
Qed.

Lemma run_star_nil g p cap k :
  Re.run total (Re.Star g (Re.Cls p)) [] cap k = k [] cap.
Proof. reflexivity. Qed.

Lemma run_star_no g p c s cap k :
  p c = false ->
  Re.run total (Re.Star g (Re.Cls p)) (c :: s) cap k = k (c :: s) cap.
Proof.
  intros H. rewrite run_star_cons, H. cbv zeta.
  destruct g; [reflexivity|]. unfold Re.first_of. now destruct (k (c :: s) cap).
Qed.

Lemma run_star_greedy p c s cap k :
  p c = true ->
  Re.run total (Re.Star true (Re.Cls p)) (c :: s) cap k
  = Re.first_of (Re.run total (Re.Star true (Re.Cls p)) s cap k)
      (k (c :: s) cap).
Proof. intros H. now rewrite run_star_cons, H. Qed.

Lemma run_star_lazy p c s cap k :
  p c = true ->
  Re.run total (Re.Star false (Re.Cls p)) (c :: s) cap k
  = Re.first_of (k (c :: s) cap)
      (Re.run total (Re.Star false (Re.Cls p)) s cap k).
Proof. intros H. now rewrite run_star_cons, H. Qed.

Lemma run_lit_yes l s cap k :
  Js.prefixL l s = true ->
  Re.run total (Re.lit l) s cap k = k (drop (length l) s) cap.
Proof. intros H. now rewrite run_lit, H. Qed.

Lemma run_lit_no l s cap k :
  Js.prefixL l s = false -> Re.run total (Re.lit l) s cap k = None.
Proof. intros H. now rewrite run_lit, H. Qed.
End Evaluation.

Ltac re_eval :=
  repeat first
    [ progress cbv beta
    | progress cbn [Re.first_of drop length Js.chars list_ascii_of_string app]
    | rewrite run_seq | rewrite run_alt | rewrite run_group
    | rewrite run_ahead | rewrite run_eol_nil | rewrite run_eol_cons
    | rewrite run_cls_nil
    | rewrite run_cls_yes by reflexivity
    | rewrite run_cls_no by reflexivity
    | rewrite run_star_nil
    | rewrite run_star_no by reflexivity
    | rewrite run_star_greedy by reflexivity
    | rewrite run_star_lazy by reflexivity
    | rewrite run_lit_yes by reflexivity
    | rewrite run_lit_no by reflexivity ].

Lemma questions_of_lines_cap lines : forall questionCount,
  questionCount < 4 ->
  questionCount + length (questions_of_lines questionCount lines) <= 4.
Proof.
  induction lines as [|line lines IH]; intros n Hn; cbn [questions_of_lines].
  { simpl. lia. }
  destruct (_ && _); [|now apply IH].
  destruct (4 <=? S n) eqn:E; cbn [length].
  - lia.
  - apply Nat.leb_gt in E. specialize (IH (S n) E). lia.
Qed.

Definition question_line : string := "QUESTION_1: a?".

(** What follows the first of [S n] lines [QUESTION_1: a?]. *)
Fixpoint more_lines (n : nat) : list ascii :=
  match n with
  | 0 => []
  | S n' => Js.lf :: Js.chars question_line ++ more_lines n'
  end.

Lemma more_lines_shape n :
  more_lines n = [] \/
  exists rest, more_lines n = Js.lf :: Js.chars question_line ++ rest.
Proof. destruct n; [now left|right; now eexists]. Qed.

Lemma more_lines_length n : n <= length (more_lines n).
Proof.
  induction n as [|n IH]; cbn [more_lines length]; [lia|].
  rewrite length_app. lia.
Qed.

Lemma chars_app a b : Js.chars (a +:+ b) = Js.chars a ++ Js.chars b.
Proof.
  unfold Js.chars. induction a as [|c a IH]; [reflexivity|].
  simpl. f_equal. exact IH.
Qed.

Lemma lines_chars n :
  Js.chars (Js.lines (replicate (S n) question_line))
  = Js.chars question_line ++ more_lines n.
Proof.
  unfold Js.lines. induction n as [|n IH].
  - cbn [replicate Js.join more_lines]. now rewrite app_nil_r.
  - change (Js.join Js.nl (replicate (S (S n)) question_line))
      with (question_line +:+ Js.nl
            +:+ Js.join Js.nl (replicate (S n) question_line)).
    rewrite !chars_app, IH. reflexivity.
Qed.

(** One line of the text matched by the primary pattern: the match ends
    where the next question starts, or at the end of the text. *)
Lemma match_question_line total rest :
  rest = [] \/ (exists rest', rest = Js.lf :: Js.chars question_line ++ rest') ->
  Re.match_here total question_re (Js.chars question_line ++ rest)
  = Some (rest, Some (Js.chars "a?")).
Proof.
  intros H.
  unfold Re.match_here, question_re, Re.word, digits1, spaces, Re.plus,
    Re.any, Re.chr, question_line.
  destruct H as [->|[rest' ->]].
  - vm_compute. reflexivity.
  - unfold question_line, Js.lf. re_eval.
    match goal with
    | |- context [take ?n _] => replace n with 2 by lia
    end.
    reflexivity.
Qed.

Lemma search_from_eq total r pre s :
  Re.search_from total r pre s
  = match Re.match_here total r s with
    | Some (rest, cap) =>
        Some (Re.Found (rev pre) (firstn (length s - length rest) s) cap rest)
    | None =>
        match s with
        | [] => None
        | c :: s' => Re.search_from total r (c :: pre) s'
        end
    end.
Proof. destruct s; reflexivity. Qed.

Lemma search_question_line total pre rest :
  rest = [] \/ (exists rest', rest = Js.lf :: Js.chars question_line ++ rest') ->
  Re.search_from total question_re pre (Js.chars question_line ++ rest)
  = Some (Re.Found (rev pre) (Js.chars question_line)
            (Some (Js.chars "a?")) rest).
Proof.
  intros H. rewrite search_from_eq, (match_question_line _ _ H).
  rewrite length_app, Nat.add_sub, take_app_length. reflexivity.
Qed.

Lemma all_from_step fuel total r s f :
  Re.search_from total r [] s = Some f ->
  Re.matched f <> [] ->
  Re.all_from (S fuel) total r s
  = Re.matched f :: Re.all_from fuel total r (Re.after f).
Proof.
  intros E Hne. cbn [Re.all_from]. rewrite E.
  destruct (Re.matched f); [contradiction|reflexivity].
Qed.

Lemma all_from_more_lines total n : forall fuel,
  n < fuel ->
  Re.all_from fuel total question_re (more_lines n)
  = replicate n (Js.chars question_line).
Proof.
  induction n as [|n IH]; intros [|fuel] Hf; try lia.
  - reflexivity.
  - assert (E : Re.search_from total question_re [] (more_lines (S n))
                = Some (Re.Found [Js.lf] (Js.chars question_line)
                          (Some (Js.chars "a?")) (more_lines n))).
    { cbn [more_lines]. rewrite search_from_eq.
      replace (Re.match_here total question_re
                 (Js.lf :: Js.chars question_line ++ more_lines n))
        with (@None Re.answer).
      2:{ unfold Re.match_here, question_re, Re.word. rewrite run_seq.
          now rewrite run_lit_no by reflexivity. }
      exact (search_question_line _ [Js.lf] _ (more_lines_shape n)). }
    rewrite (all_from_step _ _ _ _ _ E) by discriminate.
    cbn [Re.matched Re.after replicate]. rewrite IH by lia. reflexivity.
Qed.

Lemma match_all_lines n :
  Re.match_all question_re (Js.lines (replicate (S n) question_line))
  = Some (replicate (S n) question_line).
Proof.
  unfold Re.match_all. rewrite lines_chars.
  rewrite (all_from_step _ _ _ _ _
             (search_question_line _ [] _ (more_lines_shape n)))
    by discriminate.
  cbn [Re.matched Re.after].
  rewrite all_from_more_lines.
  2:{ pose proof (more_lines_length n). rewrite length_app.
      change (length (Js.chars question_line)) with 14. lia. }
  cbn [map replicate]. f_equal. f_equal.
  induction n as [|n IH]; [reflexivity|]. cbn [replicate map]. now rewrite IH.
Qed.

Lemma questions_of_question_lines n : forall index,
  questions_of_matches index (replicate n question_line)
  = map (fun i => Question ("q" +:+ Js.num i) "a?") (seq (S index) n).
Proof.
  assert (E : Js.trim (Re.remove_first question_label_re question_line) = "a?")
    by (vm_compute; reflexivity).
  induction n as [|n IH]; intros index; [reflexivity|].
  cbn [replicate questions_of_matches]. rewrite E, IH.
  change (0 <? String.length "a?") with true.
  rewrite Nat.add_1_r. reflexivity.
Qed.

(** The text of a match of the primary pattern, as the loop over the
    matches reads it. *)
Lemma questions_of_matches_elem questionMatches : forall first index m,
  questionMatches !! index = Some m ->
  Js.trim (Re.remove_first question_label_re m) <> "" ->
  Question ("q" +:+ Js.num (first + index + 1))
    (Js.trim (Re.remove_first question_label_re m))
  ∈ questions_of_matches first questionMatches.
Proof.
  induction questionMatches as [|m0 ms IH]; intros first index m Hm Hne;
    [discriminate|].
  cbn [questions_of_matches]. apply elem_of_app.
  destruct index as [|index].
  - left. injection Hm as ->. rewrite Nat.add_0_r.
    destruct (Js.trim (Re.remove_first question_label_re m));
      [contradiction|]. left.
  - right. replace (first + S index + 1) with (S first + index + 1) by lia.
    apply IH; assumption.
Qed.

Lemma questions_of_matches_length questionMatches : forall first,
  length (questions_of_matches first questionMatches)
  = length (filter (fun m => Js.trim (Re.remove_first question_label_re m) <> "")
              questionMatches).
Proof.
  induction questionMatches as [|m ms IH]; intros first; [reflexivity|].
  cbn [questions_of_matches]. rewrite length_app, IH, filter_cons.
  destruct (Js.trim (Re.remove_first question_label_re m)) eqn:E.
  - destruct (decide _) as [H|_]; [contradiction|reflexivity].
  - destruct (decide _) as [_|H]; [reflexivity|]. exfalso. apply H. discriminate.
Qed.

(** C10. [parseClarificationQuestions] caps the list at four questions only
    on its fallback path, the scan of the lines.  When the primary pattern
    [QUESTION_n:] matches, every match with a text is returned, under the
    id of its position among the matches and whatever their number: the
    list is as long as there are matches with a text (one generic question
    is returned when there is none), so a text of [n] lines
    [QUESTION_1: a?] yields [n] questions, for every [n], and a text with
    five [QUESTION_n:] lines yields five.  The list is never empty. *)
Theorem question_cap_only_in_fallback questionsText :
  parseClarificationQuestions questionsText <> [] /\
  (Re.match_all question_re questionsText = None ->
   length (parseClarificationQuestions questionsText) <= 4) /\
  (forall questionMatches,
     Re.match_all question_re questionsText = Some questionMatches ->
     (forall index m,
        questionMatches !! index = Some m ->
        Js.trim (Re.remove_first question_label_re m) <> "" ->
        Question ("q" +:+ Js.num (index + 1))
          (Js.trim (Re.remove_first question_label_re m))
        ∈ parseClarificationQuestions questionsText) /\
     length (parseClarificationQuestions questionsText)
     = Nat.max 1
         (length
            (filter
               (fun m => Js.trim (Re.remove_first question_label_re m) <> "")
               questionMatches)) /\
     (questions_of_matches 0 questionMatches <> [] ->
      parseClarificationQuestions questionsText
      = questions_of_matches 0 questionMatches)) /\
  (forall n,
     parseClarificationQuestions (Js.lines (replicate (S n) "QUESTION_1: a?"))
     = map (fun i => Question ("q" +:+ Js.num i) "a?") (seq 1 (S n))) /\
  exists five,
    Re.match_all question_re five
    = Some ["QUESTION_1: a?"; "QUESTION_2: b?"; "QUESTION_3: c?";
            "QUESTION_4: d?"; "QUESTION_5: e?"] /\
    length (parseClarificationQuestions five) = 5.
Proof.
  split; [|split; [|split; [|split]]].
  - unfold parseClarificationQuestions.
    destruct (match Re.match_all _ _ with Some _ => _ | None => _ end);
      discriminate.
  - intros H. unfold parseClarificationQuestions. rewrite H.
    pose proof (questions_of_lines_cap
                  (Js.split (fun c => Ascii.eqb c Js.lf) questionsText) 0) as C.
    destruct (questions_of_lines 0 _); simpl in *; lia.
  - intros ms H. unfold parseClarificationQuestions. rewrite H.
    split; [|split].
    + intros index m Hm Hne.
      pose proof (questions_of_matches_elem ms 0 index m Hm Hne) as Hin.
      cbn [Nat.add] in Hin.
      destruct (questions_of_matches 0 ms); [inversion Hin|exact Hin].
    + rewrite <- (questions_of_matches_length ms 0).
      destruct (questions_of_matches 0 ms); cbn [length]; lia.
    + intros Hne.
      destruct (questions_of_matches 0 ms); [contradiction|reflexivity].
  - intros n. unfold parseClarificationQuestions.
    fold question_line.
    rewrite (match_all_lines n), questions_of_question_lines. reflexivity.
  - exists (Js.lines ["QUESTION_1: a?"; "QUESTION_2: b?"; "QUESTION_3: c?";
                      "QUESTION_4: d?"; "QUESTION_5: e?"]).
    split; vm_compute; reflexivity.
Qed.


(* ===================================================================== *)
(** * The pipeline in detail: what each call is given and what is kept *)
(* ===================================================================== *)

(** The model a strategy proposes, or the message of the error it throws. *)
Definition proposal (name : string) (currentModel : value)
  (iteration totalIterations : nat) (phase : string) (w : world)
  : outcome value :=
  fst (nextModel name currentModel iteration totalIterations phase w).

Lemma post_nextModel_exact name current i n phase w
    (P : value -> world -> Prop) Q :
  match proposal name current i n phase w with
  | Returns v => P v w
  | Throws e => Q e w
  end ->
  post (nextModel name current i n phase) w P Q.
Proof.
  unfold post, proposal. pose proof (inert_nextModel name current i n phase w) as H.
  destruct (nextModel name current i n phase w) as [[v|e] w1];
    simpl in *; subst; trivial.
Qed.

(** A proposal depends on the state through the enabled models only. *)
Lemma proposal_enabled name current i n phase w w0 :
  enabledModels w = enabledModels w0 ->
  proposal name current i n phase w = proposal name current i n phase w0.
Proof.
  intros H. unfold proposal, nextModel.
  destruct (handoffStrategies name) as [st|];
    [|destruct (Js.inherited name); reflexivity].
  unfold bind, get.
  assert (Ha : getAvailableModels w = getAvailableModels w0)
    by (unfold getAvailableModels; now rewrite H).
  assert (Hs : forall caps cur, selectModelByCapabilities w caps cur
                                = selectModelByCapabilities w0 caps cur)
    by (intros; unfold selectModelByCapabilities; now rewrite Ha).
  rewrite Ha.
  destruct (_ && _); [destruct (forallb _ _); simpl; [now rewrite Hs|reflexivity]|].
  simpl. f_equal. destruct st; simpl; [reflexivity|apply Hs|reflexivity].
Qed.

Lemma proposal_steady name current i n phase w w' :
  steady w w' ->
  proposal name current i n phase w' = proposal name current i n phase w.
Proof. intros (_ & _ & _ & H & _). now apply proposal_enabled. Qed.

(** The progress update a session delivers for [u] at time [t]. *)
Definition announce (s : session) (u : update) (t : Z) : list progress :=
  match progressCallback s with
  | Some callback =>
      [Progress callback (id s) t (up_phase u) (up_message u)
         (up_currentIteration u) (up_totalIterations u) (up_model u)
         (up_completed u) (up_result u)]
  | None => []
  end.

(** Nothing changed but the readings of the clock. *)
Definition silent (w w' : world) : Prop :=
  quiet w w' /\ events w' = events w.

Lemma post_date_now_silent w (P : Z -> world -> Prop) Q :
  (forall t w', silent w w' -> P t w') -> post date_now w P Q.
Proof. intros H. apply H. repeat split. Qed.

Lemma post_sendProgressUpdate_exact s u w (P : unit -> world -> Prop) Q :
  (forall t w', quiet w w' -> events w' = events w ++ announce s u t -> P tt w') ->
  post (sendProgressUpdate s u) w P Q.
Proof.
  intros H. unfold sendProgressUpdate, announce in *.
  destruct (progressCallback s) as [callback|].
  - apply post_bind, post_date_now_silent. intros t w' [Hq He].
    apply post_modify. apply (H t).
    + destruct Hq as (?&?&?&?&?&?). repeat split; assumption.
    + simpl. now rewrite He.
  - apply post_ret, (H 0%Z); [apply quiet_refl|]. now rewrite app_nil_r.
Qed.

(** [journal w w' l evs]: the run from [w] to [w'] made the calls [l],
    delivered the progress updates [evs], and touched nothing else that
    matters. *)
Definition journal (w w' : world) (l : list call) (evs : list progress) : Prop :=
  trail w w' l /\ events w' = events w ++ evs.

Lemma journal_refl w : journal w w [] [].
Proof. split; [apply trail_refl|now rewrite app_nil_r]. Qed.

Lemma journal_send w w1 w2 l evs more :
  journal w w1 l evs -> quiet w1 w2 -> events w2 = events w1 ++ more ->
  journal w w2 l (evs ++ more).
Proof.
  intros [T E] Hq He. split; [eapply trail_quiet; eassumption|].
  now rewrite He, E, app_assoc.
Qed.

Lemma journal_silent w w1 w2 l evs :
  journal w w1 l evs -> silent w1 w2 -> journal w w2 l evs.
Proof.
  intros [T E] [Hq He]. split; [eapply trail_quiet; eassumption|].
  now rewrite He.
Qed.

Lemma journal_record c w w1 l evs :
  journal w w1 l evs -> journal w (record c w1) (l ++ [c]) evs.
Proof. intros [T E]. split; [now apply trail_record|exact E]. Qed.

Lemma journal_app w w1 w2 l1 l2 e1 e2 :
  journal w w1 l1 e1 -> journal w1 w2 l2 e2 -> journal w w2 (l1 ++ l2) (e1 ++ e2).
Proof.
  intros [T1 E1] [T2 E2]. split; [eapply trail_app; eassumption|].
  now rewrite E2, E1, app_assoc.
Qed.

Lemma journal_steady w w' l evs : journal w w' l evs -> steady w w'.
Proof. intros [[_ H] _]. exact H. Qed.

(** The call [c] was made from [at_] for the model [modelId] with the
    prompt [prompt] and returned [a]; the model is one the client of the
    generation service has a provider client for in the state [w]. *)
Definition replied (w : world) (c : call) (at_ : site)
  (modelId prompt : value) (a : string) : Prop :=
  c_site c = at_ /\ c_model c = modelId /\ c_prompt c = prompt /\
  c_outcome c = Returns a /\ isModelAvailable w (Js.show modelId) = true.

Lemma respond_available modelId prompt o w a :
  fst (respond modelId prompt o w) = Returns a ->
  isModelAvailable w (Js.show modelId) = true.
Proof.
  unfold respond, isModelAvailable.
  destruct (Js.own modelConfig (Js.show modelId)) as [cfg|];
    [|destruct (Js.inherited _); discriminate].
  destruct (cfg_provider cfg);
    unfold generateOpenAIResponse, generateAnthropicResponse;
    [destruct (openaiClient w)|destruct (anthropicClient w)];
    first [discriminate|intros _; apply bool_decide_eq_true; eauto].
Qed.

Lemma post_generateResponse_replied at_ modelId prompt o w
    (P : string -> world -> Prop) Q :
  (forall c a, replied w c at_ modelId prompt a -> P a (record c w)) ->
  (forall c e, c_outcome c = Throws e -> Q e (record c w)) ->
  post (generateResponse at_ modelId prompt o) w P Q.
Proof.
  intros HP HQ. unfold post, generateResponse.
  pose proof (respond_available modelId prompt o w) as Ha.
  destruct (respond modelId prompt o w) as [[a|e] rq]; simpl in *.
  - apply HP. repeat split. now apply (Ha a).
  - now apply HQ.
Qed.

Lemma isModelAvailable_steady w w' m :
  steady w w' -> isModelAvailable w' m = isModelAvailable w m.
Proof.
  intros (Ho & Ha & _). unfold isModelAvailable. now rewrite Ho, Ha.
Qed.

Lemma replied_steady w w' c at_ modelId prompt a :
  steady w w' -> replied w' c at_ modelId prompt a ->
  replied w c at_ modelId prompt a.
Proof.
  intros Hs (?&?&?&?&H). repeat split; trivial.
  now rewrite <- (isModelAvailable_steady _ _ _ Hs).
Qed.

Ltac trace_rule :=
  lazymatch goal with
  | |- post (bind _ _) _ _ _ => apply post_bind
  | |- post (sendProgressUpdate _ _) _ _ _ =>
      apply post_sendProgressUpdate_exact; intros ? ? ? ?
  | |- post date_now _ _ _ => apply post_date_now_silent; intros ? ? ?
  | |- post (nextModel _ _ _ _ _) _ _ _ => apply post_nextModel_exact
  | J : journal _ ?w1 _ _ |- post (generateResponse _ _ _ _) ?w1 _ _ =>
      let A := fresh "A" in
      apply post_generateResponse_replied; [intros ? ? A|intros; exact I];
      apply (replied_steady _ _ _ _ _ _ _ (journal_steady _ _ _ _ J)) in A
  | |- post (ret _) _ _ _ => apply post_ret
  | |- post get _ _ _ => apply post_get
  end.

Ltac keep_journal :=
  try match goal with
  | J : journal ?w ?w1 ?l ?evs, Hq : quiet ?w1 ?w2,
    He : events ?w2 = events ?w1 ++ _ |- _ =>
      let J' := fresh "J" in
      pose proof (journal_send _ _ _ _ _ _ J Hq He) as J'; clear J Hq He
  | J : journal ?w ?w1 ?l ?evs, Hs : silent ?w1 ?w2 |- _ =>
      let J' := fresh "J" in
      pose proof (journal_silent _ _ _ _ _ J Hs) as J'; clear J Hs
  | J : journal ?w ?w1 ?l ?evs |- context [record ?c ?w1] =>
      let J' := fresh "J" in
      pose proof (journal_record c _ _ _ _ J) as J'; clear J; simpl app in J'
  end.

Ltac trace := trace_rule; keep_journal.

(** The proposal of a strategy in the middle of a run is the one it makes
    in the state [w0] the run started from. *)
Ltac propose Hw v E :=
  apply post_nextModel_exact;
  match goal with
  | J : journal _ ?w1 _ _ |- context [proposal ?a ?b ?c ?d ?e ?w1] =>
      rewrite (proposal_steady a b c d e _ _
                 (steady_trans _ _ _ Hw (journal_steady _ _ _ _ J)))
  end;
  match goal with
  | |- context [proposal ?a ?b ?c ?d ?e ?w] =>
      destruct (proposal a b c d e w) as [v|] eqn:E; [|exact I]
  end.

(** What the iteration [i] does, from the state [st] of the loop to [st']:
    the critique call [c1] and the improvement call [c2], what each is
    given and what is kept of their answers.  [w] is the state in which the
    pipeline started. *)
Definition round (w : world) (i : nat) (st : progress_state) (c1 c2 : call)
  (st' : progress_state) : Prop :=
  let s := set_currentIteration i (st_session st) in
  let total := targetIterations s in
  exists v1 v2 critique improved t1 t2,
    proposal (handoffStrategy s) (primaryModel (models s)) i total "critique" w
    = Returns v1 /\
    let critiqueModel := Js.or_else v1 (refinementModel (models s)) in
    let critiquePrompt :=
      buildCritiquePrompt (refinedPrompt s) (st_response st) i total
        (st_history st) in
    replied w c1 (AtCritique i) critiqueModel (Str critiquePrompt) critique /\
    let history :=
      st_history st ++
      [Entry i critiqueModel "critique" (Str critiquePrompt) critique t1] in
    proposal (handoffStrategy s) critiqueModel i total "improvement" w
    = Returns v2 /\
    let improvementModel := Js.or_else v2 (primaryModel (models s)) in
    let improvementPrompt :=
      buildImprovementPrompt (refinedPrompt s) (st_response st) critique i
        total history in
    replied w c2 (AtImprovement i) improvementModel (Str improvementPrompt)
      improved /\
    st' = State
            (set_completedIterations i
               (trackModelUsage (trackModelUsage s critiqueModel "critique")
                  improvementModel "improvement"))
            improved
            (history ++
             [Entry i improvementModel "improvement" (Str improvementPrompt)
                improved t2]).

(** The progress updates [evs] are those a session with the callback and id
    of [s] delivers for the phases [phases], in this order. *)
Definition heard (s : session) (phases : list string) (evs : list progress)
  : Prop :=
  match progressCallback s with
  | Some callback =>
      map p_phase evs = phases /\
      Forall (fun e => p_callback e = callback /\ p_sessionId e = id s /\
                       p_completed e = false /\ p_result e = None) evs
  | None => evs = []
  end.

Lemma heard_nil s : heard s [] [].
Proof. unfold heard. destruct (progressCallback s); auto. Qed.

Lemma heard_announce s u t :
  up_completed u = false -> up_result u = None ->
  heard s [up_phase u] (announce s u t).
Proof.
  intros Hc Hr. unfold heard, announce.
  destruct (progressCallback s); [|reflexivity].
  split; [reflexivity|]. repeat constructor; assumption.
Qed.

Lemma heard_app s p1 p2 e1 e2 :
  heard s p1 e1 -> heard s p2 e2 -> heard s (p1 ++ p2) (e1 ++ e2).
Proof.
  unfold heard. destruct (progressCallback s).
  - intros [<- F1] [<- F2]. split; [apply map_app|]. apply Forall_app. now split.
  - now intros -> ->.
Qed.

Lemma heard_setup s s' phases evs :
  setup s' = setup s -> heard s phases evs -> heard s' phases evs.
Proof.
  intros H. unfold heard.
  now rewrite (f_equal progressCallback H : progressCallback s' = progressCallback s),
    (setup_id _ _ H).
Qed.

Lemma iteration_detail w0 i st w :
  steady w0 w ->
  post (iteration i st) w
    (fun st' w' =>
       exists c1 c2 evs,
         journal w w' [c1; c2] evs /\
         round w0 i st c1 c2 st' /\
         heard (st_session st) ["iteration_start"; "critique"; "improvement"] evs)
    (fun _ _ => True).
Proof.
  intros Hw. pose proof (journal_refl w) as J.
  unfold iteration.
  do 3 trace. propose Hw v1 E1.
  do 7 trace. propose Hw v2 E2.
  do 7 trace.
  exists c, c0. eexists. split; [exact J0|]. split.
  - exists v1, v2, a, a0, t1, t3.
    repeat (split; [first [eassumption
                          |eapply replied_steady; [exact Hw|eassumption]]|]).
    reflexivity.
  - apply (heard_app _ ["iteration_start"; "critique"] ["improvement"]);
      [apply (heard_app _ ["iteration_start"] ["critique"])|];
      (eapply heard_setup; [|apply heard_announce]); reflexivity.
Qed.

(** The iterations [i], [i+1], ... ([count] of them) from the state [st] of
    the loop to [st'], with the calls they make. *)
Inductive rounds (w : world)
  : nat -> nat -> progress_state -> list call -> progress_state -> Prop :=
| rounds_done i st : rounds w 0 i st [] st
| rounds_more count i st c1 c2 st1 l st' :
    round w i st c1 c2 st1 ->
    rounds w count (S i) st1 l st' ->
    rounds w (S count) i st (c1 :: c2 :: l) st'.

(** The phases of the progress updates of [count] iterations. *)
Definition round_phases (count : nat) : list string :=
  concat (replicate count ["iteration_start"; "critique"; "improvement"]).

Lemma round_setup w i st c1 c2 st' :
  round w i st c1 c2 st' -> setup (st_session st') = setup (st_session st).
Proof.
  intros (v1 & v2 & a1 & a2 & t1 & t2 & _ & _ & _ & _ & ->).
  reflexivity.
Qed.

Lemma iterations_detail w0 count : forall i st w,
  steady w0 w ->
  post (iterations count i st) w
    (fun st' w' =>
       exists l evs,
         journal w w' l evs /\
         rounds w0 count i st l st' /\
         heard (st_session st) (round_phases count) evs)
    (fun _ _ => True).
Proof.
  induction count as [|count IH]; intros i st w Hw; simpl.
  - apply post_ret. exists [], []. split; [apply journal_refl|].
    split; [constructor|apply heard_nil].
  - apply post_bind. eapply post_mono; [apply iteration_detail, Hw| |trivial].
    intros st1 w1 (c1 & c2 & e1 & J1 & R & H1).
    eapply post_mono;
      [apply IH, (steady_trans _ _ _ Hw (journal_steady _ _ _ _ J1))| |trivial].
    intros st' w' (l & e2 & J2 & Rs & H2).
    exists (c1 :: c2 :: l), (e1 ++ e2).
    split; [apply (journal_app _ _ _ [c1; c2] l _ _ J1 J2)|].
    split; [econstructor; eassumption|].
    apply (heard_app _ ["iteration_start"; "critique"; "improvement"]);
      [exact H1|].
    eapply heard_setup; [|exact H2]. symmetry. eapply round_setup, R.
Qed.

(** A successful run of the pipeline on the session [s], started in the
    state [w]: the calls [l] it makes, the progress updates [evs] it
    delivers, the result [res] it returns and the session object [s'] it
    leaves. *)
Definition run (s : session) (w : world) (l : list call) (evs : list progress)
  (res : result) (s' : session) : Prop :=
  let primary := primaryModel (models s) in
  exists initial t0 c0 st middle cF final tF tE earlier,
    l = c0 :: middle ++ [cF] /\
    replied w c0 AtInitial primary (refinedPrompt s) initial /\
    rounds w (targetIterations s) 1
      (State (trackModelUsage s primary "initial_generation") initial
         [Entry 0 primary "initial_generation" (refinedPrompt s) initial t0])
      middle st /\
    let sN := st_session st in
    let finalModel :=
      Js.or_else (finalReviewModel sN) (getBestFinalReviewModel w) in
    replied w cF AtFinalReview finalModel
      (Str (buildFinalReviewPrompt (refinedPrompt sN) (st_response st)
              (completedIterations sN) (st_history st))) final /\
    s' = trackModelUsage sN finalModel "final_review" /\
    res = Result (originalPrompt s') (refinedPrompt s') final (st_history st)
            (tF - startTime s')%Z (targetIterations s')
            (completedIterations s') (handoffStrategy s')
            (modelUsageStats s') /\
    heard s
      (["starting"; "initial_generation"] ++ round_phases (targetIterations s)
       ++ ["final_review"])
      earlier /\
    evs = earlier ++
          announce s'
            (Update "completed"
               ("Refinement completed in " +:+ seconds (sessionDuration res)
                +:+ "s")
               (completedIterations s') (targetIterations s') None true
               (Some res)) tE.

Lemma getBestFinalReviewModel_steady w w' :
  steady w w' -> getBestFinalReviewModel w' = getBestFinalReviewModel w.
Proof.
  intros (Ho & Ha & _).
  unfold getBestFinalReviewModel, getFinalReviewModels, client_getAvailableModels,
    isModelAvailable.
  now rewrite Ho, Ha.
Qed.

Lemma rounds_setup w count : forall i st l st',
  rounds w count i st l st' -> setup (st_session st') = setup (st_session st).
Proof.
  intros i st l st' H. induction H as [|? ? ? ? ? ? ? ? R _ IH]; [reflexivity|].
  rewrite IH. eapply round_setup, R.
Qed.

Lemma collaborate_detail s w :
  post (collaborate s) w
    (fun rs w' =>
       exists l evs, journal w w' l evs /\ run s w l evs (fst rs) (snd rs))
    (fun _ _ => True).
Proof.
  pose proof (journal_refl w) as J. unfold collaborate.
  do 8 trace.
  apply post_bind.
  eapply post_mono;
    [apply (iterations_detail w), (journal_steady _ _ _ _ J)| |trivial].
  intros st w2 (middle & e2 & J2 & Rs & He).
  pose proof (journal_app _ _ _ _ _ _ _ J J2) as J3. clear J J2.
  apply post_bind, post_get.
  rewrite (getBestFinalReviewModel_steady _ _ (journal_steady _ _ _ _ J3)).
  do 9 trace.
  do 2 eexists. split; [exact J0|].
  exists a, t1, c, st, middle, c0, a0, t3, t4. eexists.
  repeat (split; [first [reflexivity|assumption]|]).
  split; [|reflexivity].
  pose proof (rounds_setup _ _ _ _ _ _ Rs) as Hs.
  apply (heard_app _ (["starting"; "initial_generation"]
                      ++ round_phases (targetIterations s)) ["final_review"]);
    [apply (heard_app _ ["starting"; "initial_generation"]);
       [apply (heard_app _ ["starting"] ["initial_generation"]);
          apply heard_announce; reflexivity
       |eapply heard_setup; [|exact He]; reflexivity]
    |eapply heard_setup; [|apply heard_announce; reflexivity];
     symmetry; exact Hs].
Qed.

Lemma executeCollaborativeProcess_run s w res w' :
  executeCollaborativeProcess s w = (Returns res, w') ->
  exists l evs s',
    calls w' = calls w ++ l /\ events w' = events w ++ evs /\
    run s w l evs res s'.
Proof.
  intros E. pose proof (collaborate_detail s w) as H.
  unfold post, executeCollaborativeProcess, try_finally, try_catch, bind,
    forget, modify in *.
  destruct (collaborate s w) as [[[r s']|e] w1]; simpl in E; [|discriminate].
  injection E as <- <-. destruct H as (l & evs & [[Ha _] He] & R).
  exists l, evs, s'. auto.
Qed.

Lemma rounds_length w count : forall i st l st',
  rounds w count i st l st' -> length l = 2 * count.
Proof.
  intros i st l st' H. induction H; simpl; lia.
Qed.

(** The history entry [h] is the record of the call [c]. *)
Definition logged (c : call) (h : entry) : Prop :=
  h_model h = c_model c /\ h_input h = c_prompt c /\
  c_outcome c = Returns (h_output h) /\
  match c_site c with
  | AtInitial => h_type h = "initial_generation" /\ h_iteration h = 0
  | AtCritique i => h_type h = "critique" /\ h_iteration h = i
  | AtImprovement i => h_type h = "improvement" /\ h_iteration h = i
  | _ => False
  end.

Lemma rounds_history w count : forall i st l st',
  rounds w count i st l st' ->
  exists hs, st_history st' = st_history st ++ hs /\ Forall2 logged l hs.
Proof.
  intros i st l st' H.
  induction H as [|count i st c1 c2 st1 l st' R _ (hs & E & F)].
  - exists []. split; [now rewrite app_nil_r|constructor].
  - destruct R as (v1 & v2 & a1 & a2 & t1 & t2 & _ & A1 & _ & A2 & ->).
    destruct A1 as (S1 & M1 & P1 & O1 & _), A2 as (S2 & M2 & P2 & O2 & _).
    simpl in E. rewrite <- !app_assoc in E. simpl in E.
    eexists (_ :: _ :: hs). split; [exact E|].
    repeat constructor; simpl; try rewrite S1; try rewrite S2; auto.
Qed.

(** The response the loop works on is the answer last recorded in its
    history, and that entry is no critique. *)
Definition current (st : progress_state) : Prop :=
  exists h, last (st_history st) = Some h /\ h_type h <> "critique" /\
            st_response st = h_output h.

Lemma rounds_current w count : forall i st l st',
  rounds w count i st l st' -> current st -> current st'.
Proof.
  intros i st l st' H.
  induction H as [|count i st c1 c2 st1 l st' R _ IH]; [trivial|].
  intros _. apply IH.
  destruct R as (v1 & v2 & a1 & a2 & t1 & t2 & _ & _ & _ & _ & ->).
  eexists. simpl. rewrite last_snoc. split; [reflexivity|].
  split; [discriminate|reflexivity].
Qed.

Lemma rounds_completed w count : forall i st l st',
  rounds w count i st l st' ->
  completedIterations (st_session st')
  = match count with
    | 0 => completedIterations (st_session st)
    | S n => i + n
    end.
Proof.
  intros i st l st' H.
  induction H as [|count i st c1 c2 st1 l st' R Rs IH]; [reflexivity|].
  rewrite IH. destruct count as [|n]; [|lia].
  destruct R as (v1 & v2 & a1 & a2 & t1 & t2 & _ & _ & _ & _ & ->).
  simpl. lia.
Qed.

(** [tally P l]: how many of the calls [l] satisfy [P]. *)
Definition tally (P : call -> bool) (l : list call) : nat :=
  length (List.filter P l).

Lemma tally_app P l1 l2 : tally P (l1 ++ l2) = tally P l1 + tally P l2.
Proof. unfold tally. now rewrite List.filter_app, length_app. Qed.

Lemma tally_cons P c l :
  tally P (c :: l) = (if P c then 1 else 0) + tally P l.
Proof. unfold tally. simpl. now destruct (P c). Qed.

(** The operation type under which the pipeline counts a call. *)
Definition operation_of (at_ : site) : option string :=
  match at_ with
  | AtInitial => Some "initial_generation"
  | AtCritique _ => Some "critique"
  | AtImprovement _ => Some "improvement"
  | AtFinalReview => Some "final_review"
  | _ => None
  end.

Definition sent_to (m : value) (c : call) : bool :=
  bool_decide (c_model c = m).

Definition sent_for (m : value) (op : string) (c : call) : bool :=
  bool_decide (c_model c = m) && bool_decide (operation_of (c_site c) = Some op).

(** [stats[m].totalUsage] and [stats[m].operations[op]], zero when absent. *)
Definition uses (stats : gmap value usage) (m : value) : nat :=
  from_option totalUsage 0 (stats !! m).

Definition performed (stats : gmap value usage) (m : value) (op : string)
  : nat :=
  default 0 (stats !! m ≫= fun u => operations u !! op).

Lemma uses_track s modelId op m :
  uses (modelUsageStats (trackModelUsage s modelId op)) m
  = uses (modelUsageStats s) m + (if bool_decide (modelId = m) then 1 else 0).
Proof.
  unfold trackModelUsage, uses. destruct s; simpl.
  destruct (bool_decide_reflect (modelId = m)) as [->|Hne].
  - rewrite lookup_insert_eq. simpl. destruct (_ !! m); simpl; lia.
  - rewrite lookup_insert_ne by exact Hne. lia.
Qed.

Lemma performed_track s modelId op m op' :
  performed (modelUsageStats (trackModelUsage s modelId op)) m op'
  = performed (modelUsageStats s) m op'
    + (if bool_decide (modelId = m) && bool_decide (Some op = Some op')
       then 1 else 0).
Proof.
  unfold trackModelUsage, performed. destruct s; simpl.
  destruct (bool_decide_reflect (modelId = m)) as [->|Hne]; simpl.
  - rewrite lookup_insert_eq. simpl.
    destruct (bool_decide_reflect (Some op = Some op')) as [[= ->]|Hop].
    + rewrite lookup_insert_eq. destruct (_ !! m) as [u|]; simpl.
      * destruct (operations u !! op'); simpl; lia.
      * rewrite lookup_empty. simpl. lia.
    + rewrite lookup_insert_ne by congruence.
      destruct (_ !! m) as [u|]; simpl; [lia|]. rewrite lookup_empty. simpl. lia.
  - rewrite lookup_insert_ne by exact Hne. lia.
Qed.

Lemma replied_tally w c at_ modelId prompt a m op :
  replied w c at_ modelId prompt a ->
  sent_to m c = bool_decide (modelId = m) /\
  sent_for m op c
  = bool_decide (modelId = m) && bool_decide (operation_of at_ = Some op).
Proof.
  unfold sent_to, sent_for. intros (-> & -> & _). auto.
Qed.

Lemma rounds_usage w count m op : forall i st l st',
  rounds w count i st l st' ->
  uses (modelUsageStats (st_session st')) m
  = uses (modelUsageStats (st_session st)) m + tally (sent_to m) l /\
  performed (modelUsageStats (st_session st')) m op
  = performed (modelUsageStats (st_session st)) m op + tally (sent_for m op) l.
Proof.
  intros i st l st' H.
  induction H as [|count i st c1 c2 st1 l st' R _ [IH1 IH2]].
  - unfold tally. simpl. split; lia.
  - destruct R as (v1 & v2 & a1 & a2 & t1 & t2 & _ & A1 & _ & A2 & ->).
    destruct (replied_tally _ _ _ _ _ _ m op A1) as [T1 U1].
    destruct (replied_tally _ _ _ _ _ _ m op A2) as [T2 U2].
    rewrite IH1, IH2, !tally_cons, T1, T2, U1, U2. cbn [st_session].
    rewrite !usage_completedIterations, !uses_track, !performed_track.
    cbn [operation_of].
    change (modelUsageStats (set_currentIteration i (st_session st)))
      with (modelUsageStats (st_session st)).
    split; lia.
Qed.

(** A strategy that proposes, for the primary model of the session, a
    critique model satisfying [PC] and, for a critique model satisfying
    [PC], an improvement model satisfying [PI], makes every critique call
    to a model satisfying [PC] and every improvement call to one satisfying
    [PI]. *)
Definition assigned (PC PI : value -> Prop) (c : call) : Prop :=
  match c_site c with
  | AtCritique _ => PC (c_model c)
  | AtImprovement _ => PI (c_model c)
  | _ => True
  end.

Lemma rounds_models w (PC PI : value -> Prop) s0 count :
  (forall i v,
     proposal (handoffStrategy s0) (primaryModel (models s0)) i
       (targetIterations s0) "critique" w = Returns v ->
     PC (Js.or_else v (refinementModel (models s0)))) ->
  (forall i current v,
     PC current ->
     proposal (handoffStrategy s0) current i (targetIterations s0)
       "improvement" w = Returns v ->
     PI (Js.or_else v (primaryModel (models s0)))) ->
  forall i st l st',
    rounds w count i st l st' ->
    setup (st_session st) = setup s0 ->
    Forall (assigned PC PI) l.
Proof.
  intros HC HI i st l st' H.
  induction H as [|count i st c1 c2 st1 l st' R _ IH]; intros Hs; [constructor|].
  pose proof (round_setup _ _ _ _ _ _ R) as Hs1.
  destruct R as (v1 & v2 & a1 & a2 & t1 & t2 & E1 & A1 & E2 & A2 & _).
  assert (Hh : handoffStrategy (st_session st) = handoffStrategy s0)
    by exact (f_equal handoffStrategy Hs).
  assert (Hm : models (st_session st) = models s0)
    by exact (f_equal models Hs).
  assert (Ht : targetIterations (st_session st) = targetIterations s0)
    by exact (f_equal targetIterations Hs).
  cbn [handoffStrategy models targetIterations set_currentIteration] in E1, E2, A1, A2.
  simpl in E1, E2, A1, A2. rewrite Hh in E1, E2.
  rewrite Hm, Ht in E1, E2, A1, A2.
  destruct A1 as (S1 & M1 & _), A2 as (S2 & M2 & _).
  pose proof (HC _ _ E1) as C1.
  constructor; [unfold assigned; now rewrite S1, M1|].
  constructor; [unfold assigned; rewrite S2, M2; eapply HI; eassumption|].
  apply IH. now rewrite Hs1.
Qed.

Ltac open_run E :=
  destruct (executeCollaborativeProcess_run _ _ _ _ E)
    as (l & evs & s' & Hcalls & Hevents & initial & t0 & c0 & st & middle
        & cF & final & tF & tE & earlier & Hl & A0 & Rs & AF & Hs' & Hres
        & Hheard & Hevs).

(** X1. The history that a completed pipeline returns has one entry for each
    call of the generation service it made, in the order of the calls, with
    the model, the prompt given and the answer returned, except for the
    final review: its answer is the final output and it is not part of the
    history.  The history has 1 + 2N entries. *)
Theorem history_records_calls_before_final_review s w res w' :
  executeCollaborativeProcess s w = (Returns res, w') ->
  exists l cF,
    calls w' = calls w ++ l ++ [cF] /\
    Forall2 logged l (r_iterationHistory res) /\
    length (r_iterationHistory res) = 1 + 2 * targetIterations s /\
    c_site cF = AtFinalReview /\
    c_outcome cF = Returns (finalOutput res).
Proof.
  intros E. open_run E.
  destruct (rounds_history _ _ _ _ _ _ Rs) as (hs & Hh & F).
  pose proof (rounds_length _ _ _ _ _ _ Rs) as Hlen.
  destruct A0 as (S0 & M0 & P0 & O0 & _), AF as (SF & _ & _ & OF & _).
  exists (c0 :: middle), cF. subst res l. cbn [r_iterationHistory finalOutput].
  rewrite Hh. cbn [st_history app].
  split; [exact Hcalls|]. split.
  - constructor; [|exact F]. unfold logged. cbn. rewrite S0. auto.
  - split; [|auto]. cbn [length]. rewrite <- (Forall2_length _ _ _ F). lia.
Qed.

(** X2. The final review of a completed pipeline is asked to review the answer
    recorded last in the history, which is the latest improvement (the
    initial response when there is no iteration) and never a critique; its
    prompt is built from the refined prompt of the session, that answer,
    the number of completed iterations and the whole history. *)
Theorem final_review_reads_latest_response s w res w' :
  executeCollaborativeProcess s w = (Returns res, w') ->
  exists l cF h,
    calls w' = calls w ++ l ++ [cF] /\
    c_site cF = AtFinalReview /\
    last (r_iterationHistory res) = Some h /\
    h_type h <> "critique" /\
    c_prompt cF
    = Str (buildFinalReviewPrompt (refinedPrompt s) (h_output h)
             (r_completedIterations res) (r_iterationHistory res)).
Proof.
  intros E. open_run E.
  assert (C0 : current
                 (State (trackModelUsage s (primaryModel (models s))
                           "initial_generation") initial
                    [Entry 0 (primaryModel (models s)) "initial_generation"
                       (refinedPrompt s) initial t0])).
  { eexists. split; [reflexivity|]. split; [discriminate|reflexivity]. }
  destruct (rounds_current _ _ _ _ _ _ Rs C0) as (h & Hlast & Htype & Hout).
  pose proof (rounds_setup _ _ _ _ _ _ Rs) as Hsetup.
  destruct AF as (SF & _ & PF & _).
  exists (c0 :: middle), cF, h. subst res l s'.
  cbn [r_iterationHistory r_completedIterations].
  split; [exact Hcalls|]. split; [exact SF|]. split; [exact Hlast|].
  split; [exact Htype|].
  rewrite PF, Hout. do 2 f_equal.
  exact (f_equal refinedPrompt Hsetup).
Qed.

(** Every entry of the statistics has counted at least one call. *)
Definition counted (stats : gmap value usage) : Prop :=
  forall m u, stats !! m = Some u -> 1 <= totalUsage u.

Lemma counted_track s modelId op :
  counted (modelUsageStats s) ->
  counted (modelUsageStats (trackModelUsage s modelId op)).
Proof.
  intros H m u. unfold trackModelUsage. destruct s; cbn.
  destruct (decide (modelId = m)) as [->|Hne].
  - rewrite lookup_insert_eq. intros [= <-]. cbn. lia.
  - rewrite lookup_insert_ne by exact Hne. apply H.
Qed.

Lemma rounds_counted w count : forall i st l st',
  rounds w count i st l st' ->
  counted (modelUsageStats (st_session st)) ->
  counted (modelUsageStats (st_session st')).
Proof.
  intros i st l st' H.
  induction H as [|count i st c1 c2 st1 l st' R _ IH]; [trivial|].
  intros Hc. apply IH.
  destruct R as (v1 & v2 & a1 & a2 & t1 & t2 & _ & _ & _ & _ & ->).
  cbn [st_session]. rewrite usage_completedIterations.
  apply counted_track, counted_track. exact Hc.
Qed.

Lemma usage_grows_by_calls s w res w' :
  executeCollaborativeProcess s w = (Returns res, w') ->
  exists l,
    calls w' = calls w ++ l /\
    forall m op,
      uses (r_modelUsageStats res) m
      = uses (modelUsageStats s) m + tally (sent_to m) l /\
      performed (r_modelUsageStats res) m op
      = performed (modelUsageStats s) m op + tally (sent_for m op) l.
Proof.
  intros E. open_run E. exists l. split; [exact Hcalls|]. intros m op.
  subst res l s'. cbn [r_modelUsageStats].
  destruct (rounds_usage _ _ m op _ _ _ _ Rs) as [U P].
  destruct (replied_tally _ _ _ _ _ _ m op A0) as [T0 U0].
  destruct (replied_tally _ _ _ _ _ _ m op AF) as [TF UF].
  rewrite uses_track, performed_track, U, P.
  cbn [st_session]. rewrite uses_track, performed_track.
  rewrite !tally_cons, !tally_app, !tally_cons, T0, U0, TF, UF.
  cbn [operation_of]. unfold tally. simpl. split; lia.
Qed.

(** X3. For a session whose usage statistics are empty when the pipeline
    starts, the statistics that a completed pipeline returns count its calls
    model by model: for every model, [totalUsage] is the number of calls
    made to it, and the counter of each operation type is the number of
    calls of that type made to it; a model that was not called has no
    entry. *)
Theorem usage_statistics_count_calls_per_model s w res w' :
  modelUsageStats s = ∅ ->
  executeCollaborativeProcess s w = (Returns res, w') ->
  exists l,
    calls w' = calls w ++ l /\
    forall m,
      uses (r_modelUsageStats res) m = tally (sent_to m) l /\
      (forall op,
         performed (r_modelUsageStats res) m op = tally (sent_for m op) l) /\
      (tally (sent_to m) l = 0 -> r_modelUsageStats res !! m = None).
Proof.
  intros H0 E. pose proof E as E'. open_run E'.
  destruct (usage_grows_by_calls _ _ _ _ E) as (l' & Hcalls' & H).
  assert (l' = l) as -> by (rewrite Hcalls in Hcalls'; now apply app_inv_head in Hcalls').
  exists l. split; [exact Hcalls|]. intros m.
  assert (Hu : uses (r_modelUsageStats res) m = tally (sent_to m) l).
  { destruct (H m "") as [-> _]. unfold uses. now rewrite H0, lookup_empty. }
  split; [exact Hu|]. split.
  - intros op. destruct (H m op) as [_ ->]. unfold performed.
    now rewrite H0, lookup_empty.
  - intros Hz. rewrite Hz in Hu. clear H.
    destruct (r_modelUsageStats res !! m) as [u|] eqn:Em; [|reflexivity].
    exfalso.
    assert (Hpos : counted (r_modelUsageStats res)).
    { subst res s'. cbn [r_modelUsageStats]. apply counted_track.
      eapply rounds_counted; [exact Rs|]. cbn [st_session].
      apply counted_track. rewrite H0. intros k v. rewrite lookup_empty.
      discriminate. }
    specialize (Hpos m u Em). unfold uses in Hu. rewrite Em in Hu.
    cbn in Hu. lia.
Qed.

(** X4. A completed pipeline of a session without progress callback delivers no
    progress update.  With a callback it delivers, to that callback and
    under the id of the session, one update for the start, one for the
    initial generation, three for each iteration (start, critique,
    improvement), one for the final review, none of them marked completed
    or carrying a result, and then a last one, marked completed, that
    carries the result the pipeline returns. *)
Theorem progress_updates_of_a_completed_pipeline s w res w' :
  executeCollaborativeProcess s w = (Returns res, w') ->
  match progressCallback s with
  | None => events w' = events w
  | Some callback =>
      exists earlier e,
        events w' = events w ++ earlier ++ [e] /\
        map p_phase earlier
        = ["starting"; "initial_generation"]
          ++ round_phases (targetIterations s) ++ ["final_review"] /\
        Forall (fun e => p_callback e = callback /\ p_sessionId e = id s /\
                         p_completed e = false /\ p_result e = None) earlier /\
        p_callback e = callback /\ p_sessionId e = id s /\
        p_phase e = "completed" /\ p_completed e = true /\
        p_result e = Some res
  end.
Proof.
  intros E. open_run E.
  pose proof (rounds_setup _ _ _ _ _ _ Rs) as Hsetup.
  assert (Hcb : progressCallback s' = progressCallback s)
    by (subst s'; exact (f_equal progressCallback Hsetup)).
  assert (Hid : id s' = id s) by (subst s'; exact (f_equal id Hsetup)).
  unfold heard in Hheard. unfold announce in Hevs. rewrite Hcb, Hid in Hevs.
  destruct (progressCallback s) as [callback|].
  - destruct Hheard as [Hp Hf]. eexists earlier, _.
    split; [rewrite Hevents, Hevs; reflexivity|].
    split; [exact Hp|]. split; [exact Hf|]. cbn. auto.
  - subst earlier evs. now rewrite Hevents, app_nil_r.
Qed.

Lemma available_anthropic w :
  isModelAvailable w "claude-sonnet-4" = true -> is_Some (anthropicClient w).
Proof. unfold isModelAvailable. simpl. apply bool_decide_eq_true. Qed.

Lemma available_openai w :
  isModelAvailable w "gpt-4.1" = true -> is_Some (openaiClient w).
Proof. unfold isModelAvailable. simpl. apply bool_decide_eq_true. Qed.

(** X5. Under the [model_specialization] strategy a completed pipeline has made
    every critique call to claude-sonnet-4 and every improvement call to
    gpt-4.1, whatever models the session selects and whatever models are
    enabled; so with at least one iteration both providers have a client. *)
Theorem model_specialization_fixes_the_models s w res w' :
  handoffStrategy s = "model_specialization" ->
  executeCollaborativeProcess s w = (Returns res, w') ->
  exists l,
    calls w' = calls w ++ l /\
    Forall (assigned (fun m => m = Str "claude-sonnet-4")
                     (fun m => m = Str "gpt-4.1")) l /\
    (1 <= targetIterations s ->
     is_Some (openaiClient w) /\ is_Some (anthropicClient w)).
Proof.
  intros Hst E. open_run E. exists l. split; [exact Hcalls|].
  assert (F : Forall (assigned (fun m => m = Str "claude-sonnet-4")
                               (fun m => m = Str "gpt-4.1")) middle).
  { eapply (rounds_models w _ _ s); [| |exact Rs|reflexivity].
    - intros i v. rewrite Hst. intros [= <-]. reflexivity.
    - intros i current v _. rewrite Hst. intros [= <-]. reflexivity. }
  split.
  - subst l. constructor.
    + destruct A0 as (S0 & _). unfold assigned. now rewrite S0.
    + apply Forall_app. split; [exact F|]. constructor; [|constructor].
      destruct AF as (SF & _). unfold assigned. now rewrite SF.
  - intros Hn. destruct (targetIterations s) as [|n] eqn:En; [lia|].
    inversion Rs as [|? ? ? c1 c2 st1 rest ? R _]; subst.
    inversion F as [|? ? F1 F']; subst. inversion F' as [|? ? F2 _]; subst.
    destruct R as (v1 & v2 & a1 & a2 & t1 & t2 & _ & A1 & _ & A2 & _).
    destruct A1 as (S1 & M1 & _ & _ & V1), A2 as (S2 & M2 & _ & _ & V2).
    unfold assigned in F1, F2. rewrite S1 in F1. rewrite S2 in F2.
    rewrite <- M1, F1 in V1. rewrite <- M2, F2 in V2.
    split; [now apply available_openai|now apply available_anthropic].
Qed.





(** The client of a provider. *)
Definition client_of (w : world) (p : provider) : option string :=
  match p with OpenAI => openaiClient w | Anthropic => anthropicClient w end.



(* ===================================================================== *)
(** * The client of the generation service *)
(* ===================================================================== *)

(** A list of code units that does not start with white space. *)
Definition clean (l : list ascii) : Prop :=
  match l with c :: _ => Js.is_space c = false | [] => True end.

Lemma trimStartL_clean l : clean (Js.trimStartL l).
Proof.
  induction l as [|c l IH]; simpl; [exact I|].
  destruct (Js.is_space c) eqn:E; [exact IH|exact E].
Qed.

Lemma trimStartL_of_clean l : clean l -> Js.trimStartL l = l.
Proof. destruct l as [|c l]; simpl; [reflexivity|]. now intros ->. Qed.

Lemma trimStartL_suffix l : exists p, l = p ++ Js.trimStartL l.
Proof.
  induction l as [|c l [p IH]]; simpl; [now exists []|].
  destruct (Js.is_space c).
  - exists (c :: p). simpl. now rewrite <- IH.
  - now exists [].
Qed.

Lemma clean_rev_trimStartL_rev l : clean l -> clean (rev (Js.trimStartL (rev l))).
Proof.
  intros Hl. destruct (trimStartL_suffix (rev l)) as [p Hp].
  assert (E : l = rev (Js.trimStartL (rev l)) ++ rev p).
  { rewrite <- rev_app_distr, <- Hp. symmetry. apply rev_involutive. }
  destruct (rev (Js.trimStartL (rev l))) as [|c r]; [exact I|].
  rewrite E in Hl. exact Hl.
Qed.

Lemma trimL_idempotent l : Js.trimL (Js.trimL l) = Js.trimL l.
Proof.
  unfold Js.trimL.
  rewrite (trimStartL_of_clean (rev (Js.trimStartL (rev (Js.trimStartL l)))))
    by apply clean_rev_trimStartL_rev, trimStartL_clean.
  rewrite rev_involutive.
  now rewrite (trimStartL_of_clean (Js.trimStartL (rev (Js.trimStartL l))))
    by apply trimStartL_clean.
Qed.

Lemma chars_str l : Js.chars (Js.str l) = l.
Proof. apply list_ascii_of_string_of_list_ascii. Qed.

Lemma str_chars s : Js.str (Js.chars s) = s.
Proof. apply string_of_list_ascii_of_string. Qed.

Lemma trim_idempotent s : Js.trim (Js.trim s) = Js.trim s.
Proof. unfold Js.trim. now rewrite chars_str, trimL_idempotent. Qed.

(** What [generateResponse] sends for a model of the table: the request
    names the provider's model, carries the prompt as it is, and takes its
    limits from the options or, failing that, from the table. *)
Definition request_for (cfg : config) (prompt : value) (o : options)
  (rq : request) : Prop :=
  rq_model rq = modelName cfg /\
  rq_content rq = prompt /\
  rq_max_tokens rq = num_or_N (opt_maxTokens o) (maxTokens cfg) /\
  rq_temperature rq = num_or (opt_temperature o) (temperature cfg) /\
  rq_stream rq
  = match cfg_provider cfg with
    | OpenAI => false
    | Anthropic => (4000 <? rq_max_tokens rq)%N
    end.

(** X17. A call of [generateResponse] that returns has sent exactly one request,
    to a provider that has a client, for a model of the table.  The text it
    returns carries no white space at either end, and a streamed answer is
    never empty. *)
Theorem generateResponse_returns_trimmed_text at_ modelId prompt o w a w' :
  generateResponse at_ modelId prompt o w = (Returns a, w') ->
  Js.trim a = a /\
  exists cfg rq,
    Js.own modelConfig (Js.show modelId) = Some cfg /\
    is_Some (client_of w (cfg_provider cfg)) /\
    request_for cfg prompt o rq /\
    w' = record (Call at_ modelId prompt (Some rq) (Returns a)) w /\
    (rq_stream rq = true -> a <> "").
Proof.
  unfold generateResponse, record. intros E. cbv beta zeta in E.
  injection E as E <-. unfold respond in *.
  destruct (Js.own modelConfig (Js.show modelId)) as [cfg|];
    [|destruct (Js.inherited _); discriminate].
  destruct (cfg_provider cfg) eqn:Ep;
    unfold generateOpenAIResponse, generateAnthropicResponse in *.
  - destruct (openaiClient w) as [k|] eqn:Ek; [|discriminate].
    simpl in E. destruct (external _ _) as [e|[|t ts]]; try discriminate.
    injection E as <-. split; [apply trim_idempotent|].
    do 2 eexists. split; [reflexivity|]. rewrite Ep. simpl.
    split; [rewrite Ek; eauto|]. split; [|split; [reflexivity|discriminate]].
    repeat split. now rewrite Ep.
  - destruct (anthropicClient w) as [k|] eqn:Ek; [|discriminate].
    simpl in E.
    destruct (external _ _) as [e|texts]; [discriminate|].
    destruct (4000 <? _)%N eqn:Es.
    + destruct (String.eqb_spec (Js.trim (Js.join "" texts)) "") as [|Hne];
        [discriminate|].
      injection E as <-. split; [apply trim_idempotent|].
      do 2 eexists. split; [reflexivity|]. rewrite Ep. simpl.
      split; [rewrite Ek; eauto|]. split; [|split; [reflexivity|]].
      * repeat split; simpl; rewrite ?Ep, ?Es; reflexivity.
      * intros _. exact Hne.
    + destruct texts as [|t ts]; [discriminate|].
      injection E as <-. split; [apply trim_idempotent|].
      do 2 eexists. split; [reflexivity|]. rewrite Ep. simpl.
      split; [rewrite Ek; eauto|]. split; [|split; [reflexivity|discriminate]].
      repeat split; simpl; rewrite ?Ep, ?Es; reflexivity.
Qed.

(** X18. [generateResponse] contacts a provider exactly when the model is one of
    the table whose provider has a client ([isModelAvailable]); otherwise
    it throws without sending anything: for a model that is not in the
    table, or for a missing client of the provider. *)
Theorem provider_is_contacted_iff_model_available at_ modelId prompt o w :
  exists r rq,
    generateResponse at_ modelId prompt o w
    = (r, record (Call at_ modelId prompt rq r) w) /\
    (is_Some rq <-> isModelAvailable w (Js.show modelId) = true) /\
    (rq = None ->
     r = Throws ("Unknown model: " +:+ Js.show modelId) \/
     r = Throws "Unknown provider: undefined" \/
     r = Throws "OpenAI API key not configured" \/
     r = Throws "Anthropic API key not configured").
Proof.
  unfold generateResponse, respond, record, isModelAvailable.
  destruct (Js.own modelConfig (Js.show modelId)) as [cfg|].
  - destruct (cfg_provider cfg);
      unfold generateOpenAIResponse, generateAnthropicResponse;
      [destruct (openaiClient w) as [k|]|destruct (anthropicClient w) as [k|]];
      do 2 eexists; (split; [reflexivity|]); simpl;
      first [ split; [split; [reflexivity|eauto]|intros [=]]
            | split; [split; [intros [? [=]]|discriminate]|intros _; auto] ].
  - destruct (Js.inherited (Js.show modelId)); do 2 eexists;
      (split; [reflexivity|]); simpl;
      (split; [split; [intros [? [=]]|discriminate]|intros _; auto]).
Qed.

(** X19. The models the client of the generation service lists are the models of
    its table whose provider has a client, in the order of the table: the
    table is already ordered by tier, so sorting moves nothing.  For the
    same reason the list of final review models is that same list, and the
    best final review model is its first element, [null] when there is
    none. *)
Theorem final_review_models_are_the_available_models w :
  client_getAvailableModels w
  = filter (fun m => isModelAvailable w m = true) (map fst modelConfig) /\
  getFinalReviewModels w = client_getAvailableModels w /\
  getBestFinalReviewModel w
  = from_option Str Null (head (client_getAvailableModels w)).
Proof.
  unfold getBestFinalReviewModel, getFinalReviewModels, client_getAvailableModels,
    isModelAvailable.
  destruct (openaiClient w) as [o|], (anthropicClient w) as [a|];
    repeat split; reflexivity.
Qed.

Lemma keep_client (key client : option string) :
  is_Some client ->
  is_Some match key with
          | Some s => if Js.truthy (Str s) then Some s else client
          | None => client
          end.
Proof.
  intros H. destruct key as [s|]; [|exact H].
  destruct (Js.truthy (Str s)); [eauto|exact H].
Qed.

Lemma clients_perform w op p :
  is_Some (client_of w p) -> is_Some (client_of (perform w op) p).
Proof.
  intros H. pose proof (same_config_perform w op) as C.
  destruct op as [k| |].
  - destruct p; simpl; apply keep_client, H.
  - destruct C as (Ho & Ha & _). destruct p; simpl in *; congruence.
  - destruct C as (Ho & Ha & _). destruct p; simpl in *; congruence.
Qed.

Lemma isModelAvailable_client w m :
  isModelAvailable w m = true <->
  exists cfg, Js.own modelConfig m = Some cfg /\
              is_Some (client_of w (cfg_provider cfg)).
Proof.
  unfold isModelAvailable. destruct (Js.own modelConfig m) as [cfg|].
  - destruct (cfg_provider cfg) eqn:E; rewrite bool_decide_eq_true; split.
    + intros H. exists cfg. rewrite E. auto.
    + intros (cfg' & [= <-] & H). now rewrite E in H.
    + intros H. exists cfg. rewrite E. auto.
    + intros (cfg' & [= <-] & H). now rewrite E in H.
  - split; [discriminate|]. now intros (cfg & [=] & _).
Qed.

(** X16. No operation removes the client of a provider: a model that the
    generation service can reach stays reachable whatever operations
    follow, also after a [setApiKeys] that no longer carries the key of its
    provider and so disables the model in the list of the orchestrator. *)
Theorem available_model_stays_available w m ops :
  isModelAvailable w m = true ->
  isModelAvailable (fold_left perform ops w) m = true.
Proof.
  revert w. induction ops as [|op ops IH]; intros w H; simpl; [exact H|].
  apply IH. apply isModelAvailable_client in H as (cfg & E & Hc).
  apply isModelAvailable_client. exists cfg. split; [exact E|].
  now apply clients_perform.
Qed.

Lemma prefixL_app p q l : Js.prefixL (p ++ q) l = true -> Js.prefixL p l = true.
Proof.
  revert l. induction p as [|a p IH]; intros l; simpl; [reflexivity|].
  destruct l as [|b l]; [discriminate|].
  intros H. apply andb_true_iff in H as [-> H]. simpl. now apply IH.
Qed.

(** X15. The check of the keys looks at the prefix only, and the prefix of an
    Anthropic key starts with the prefix of an OpenAI key: a key that
    [setApiKeys] accepts for Anthropic it also accepts for OpenAI, where it
    creates the OpenAI client and enables every OpenAI model. *)
Theorem anthropic_key_is_accepted_as_openai_key key rest w :
  validated_key (Some key) "sk-ant-" = Some (Js.trim key) ->
  let w' := snd (setApiKeys (Credentials (Some key) rest) w) in
  openaiClient w' = Some (Js.trim key) /\
  forall m, m ∈ availableModels -> d_provider m = OpenAI ->
            m ∈ getAvailableModels w'.
Proof.
  unfold validated_key. intros H.
  destruct (Js.truthy (Str key)) eqn:Ht; [|discriminate].
  destruct (Js.startsWith (Js.trim key) "sk-ant-") eqn:Hs; [|discriminate].
  assert (Hp : Js.startsWith (Js.trim key) "sk-" = true).
  { unfold Js.startsWith in *.
    apply (prefixL_app (Js.chars "sk-") (Js.chars "ant-")). exact Hs. }
  assert (Hne : Js.truthy (Str (Js.trim key)) = true).
  { unfold Js.startsWith in Hp. destruct (Js.trim key); [discriminate|reflexivity]. }
  cbv zeta. unfold setApiKeys, bind, modify, ret. cbn [snd fst].
  unfold validated_key. cbn [openai anthropic]. rewrite Ht, Hp. cbn [andb].
  split.
  - unfold updateAvailableModels, client_setApiKeys. cbn in Hne |- *.
    now rewrite Hne.
  - intros m Hm Ho. unfold getAvailableModels, updateAvailableModels.
    cbn [enabledModels with_enabledModels].
    apply list_elem_of_filter. split; [|exact Hm]. rewrite Ho.
    cbn [key_of openai]. eauto.
Qed.

(** [{available, models}] for one provider. *)
Record provider_stats : Type := ProviderStats {
  ps_available : bool;
  ps_models : nat
}.

(** [getProviderStats()]: the pair of the statistics of OpenAI and of
    Anthropic.  The loop asks [isModelAvailable] about the provider's name
    of each model ([config.modelName]), not about its id. *)
Definition getProviderStats (w : world) : provider_stats * provider_stats :=
  fold_left
    (fun stats cfg =>
       if isModelAvailable w (modelName cfg)
       then match cfg_provider cfg with
            | OpenAI =>
                (ProviderStats (ps_available (fst stats))
                   (S (ps_models (fst stats))), snd stats)
            | Anthropic =>
                (fst stats,
                 ProviderStats (ps_available (snd stats))
                   (S (ps_models (snd stats))))
            end
       else stats)
    (map snd modelConfig)
    (ProviderStats (bool_decide (is_Some (openaiClient w))) 0,
     ProviderStats (bool_decide (is_Some (anthropicClient w))) 0).

(** X20. The number of models that [getProviderStats] reports is not the number
    of available models: it is 0 for Anthropic, whatever the clients, and
    for OpenAI it is 1 when there is an OpenAI client (only gpt-4o has an
    id equal to its provider's name) and 0 otherwise. *)
Theorem provider_stats_count_names_not_ids w :
  let stats := getProviderStats w in
  ps_models (snd stats) = 0 /\
  ps_models (fst stats) = (if ps_available (fst stats) then 1 else 0) /\
  (ps_available (fst stats) = true <-> is_Some (openaiClient w)) /\
  (ps_available (snd stats) = true <-> is_Some (anthropicClient w)) /\
  (is_Some (openaiClient w) ->
   length (filter (fun m => isModelAvailable w m = true /\
                            (cfg_provider <$> Js.own modelConfig m) = Some OpenAI)
             (map fst modelConfig)) = 3).
Proof.
  unfold getProviderStats, isModelAvailable.
  destruct (openaiClient w) as [o|], (anthropicClient w) as [a|]; cbn;
    repeat split; try reflexivity; try (intros [? [=]]); try discriminate;
    eauto.
Qed.

(** [config.provider.toUpperCase()]. *)
Definition provider_upper (p : provider) : string :=
  match p with OpenAI => "OPENAI" | Anthropic => "ANTHROPIC" end.

(** One check of [validateModelsConfiguration]: the errors it pushes for the
    model [modelId] in the role [role].  For a model that is not in the
    table, [config] is [undefined], or a function or an object inherited
    from [Object.prototype], and building the message throws. *)
Definition configuration_error (w : world) (role : string) (modelId : value)
  : outcome (list string) :=
  if isModelAvailable w (Js.show modelId) then Returns []
  else
    match Js.own modelConfig (Js.show modelId) with
    | Some cfg =>
        Returns [role +:+ " model " +:+ Js.show modelId +:+ " requires "
                 +:+ provider_upper (cfg_provider cfg) +:+ " API key"]
    | None =>
        if Js.inherited (Js.show modelId)
        then Throws "Cannot read properties of undefined (reading 'toUpperCase')"
        else Throws "Cannot read properties of undefined (reading 'provider')"
    end.

(** [validateModelsConfiguration(primaryModel, refinementModel,
    finalReviewModel = null)]. *)
Definition validateModelsConfiguration (w : world)
  (primaryModel refinementModel finalReviewModel : value) : outcome bool :=
  match configuration_error w "Primary" primaryModel with
  | Throws e => Throws e
  | Returns e1 =>
      match configuration_error w "Refinement" refinementModel with
      | Throws e => Throws e
      | Returns e2 =>
          match (if Js.truthy finalReviewModel
                 then configuration_error w "Final review" finalReviewModel
                 else Returns []) with
          | Throws e => Throws e
          | Returns e3 =>
              match e1 ++ e2 ++ e3 with
              | [] => Returns true
              | (_ :: _) as errors =>
                  Throws ("Configuration errors: " +:+ Js.join ", " errors)
              end
          end
      end
  end.

Lemma configuration_error_none w role modelId :
  configuration_error w role modelId = Returns [] <->
  isModelAvailable w (Js.show modelId) = true.
Proof.
  unfold configuration_error.
  destruct (isModelAvailable w (Js.show modelId)); [split; reflexivity|].
  destruct (Js.own modelConfig _); [|destruct (Js.inherited _)];
    split; discriminate.
Qed.

(** X21. [validateModelsConfiguration] never returns [false]: it returns [true]
    exactly when the primary model, the refinement model and, if one is
    given, the final review model are all available, and throws otherwise.
    For a primary model that is not in the table what it throws is no
    configuration error but the [TypeError] of reading a property of
    [undefined]. *)
Theorem validateModelsConfiguration_accepts_available_models w primaryModel
    refinementModel finalReviewModel :
  (forall b, validateModelsConfiguration w primaryModel refinementModel
               finalReviewModel = Returns b -> b = true) /\
  (validateModelsConfiguration w primaryModel refinementModel finalReviewModel
   = Returns true <->
   isModelAvailable w (Js.show primaryModel) = true /\
   isModelAvailable w (Js.show refinementModel) = true /\
   (Js.truthy finalReviewModel = true ->
    isModelAvailable w (Js.show finalReviewModel) = true)) /\
  (Js.own modelConfig (Js.show primaryModel) = None ->
   exists property,
     validateModelsConfiguration w primaryModel refinementModel finalReviewModel
     = Throws ("Cannot read properties of undefined (reading '" +:+ property
               +:+ "')")).
Proof.
  unfold validateModelsConfiguration.
  pose proof (configuration_error_none w "Primary" primaryModel) as H1.
  pose proof (configuration_error_none w "Refinement" refinementModel) as H2.
  pose proof (configuration_error_none w "Final review" finalReviewModel) as H3.
  split; [|split].
  - intros b.
    destruct (configuration_error w "Primary" primaryModel) as [e1|];
      [|discriminate].
    destruct (configuration_error w "Refinement" refinementModel) as [e2|];
      [|discriminate].
    destruct (if Js.truthy finalReviewModel then _ else _) as [e3|];
      [|discriminate].
    destruct (e1 ++ e2 ++ e3); [congruence|discriminate].
  - destruct (configuration_error w "Primary" primaryModel) as [e1|].
    2:{ split; [discriminate|]. intros (A & _). apply H1 in A. discriminate. }
    destruct (configuration_error w "Refinement" refinementModel) as [e2|].
    2:{ split; [discriminate|]. intros (_ & A & _). apply H2 in A. discriminate. }
    destruct (Js.truthy finalReviewModel).
    + destruct (configuration_error w "Final review" finalReviewModel) as [e3|].
      2:{ split; [discriminate|]. intros (_ & _ & A).
          specialize (A eq_refl). apply H3 in A. discriminate. }
      destruct e1 as [|x e1].
      2:{ split; [discriminate|]. intros (A & _). apply H1 in A. discriminate. }
      destruct e2 as [|x e2].
      2:{ split; [discriminate|]. intros (_ & A & _). apply H2 in A. discriminate. }
      destruct e3 as [|x e3].
      2:{ split; [discriminate|]. intros (_ & _ & A).
          specialize (A eq_refl). apply H3 in A. discriminate. }
      split; [|reflexivity]. intros _.
      split; [now apply H1|]. split; [now apply H2|]. intros _. now apply H3.
    + destruct e1 as [|x e1].
      2:{ split; [discriminate|]. intros (A & _). apply H1 in A. discriminate. }
      destruct e2 as [|x e2].
      2:{ split; [discriminate|]. intros (_ & A & _). apply H2 in A. discriminate. }
      split; [|reflexivity]. intros _.
      split; [now apply H1|]. split; [now apply H2|]. discriminate.
  - intros Hn. unfold configuration_error, isModelAvailable. rewrite Hn.
    destruct (Js.inherited (Js.show primaryModel));
      [exists "toUpperCase"|exists "provider"]; reflexivity.
Qed.

(* ===================================================================== *)
(** * The prompt analyzer *)
(* ===================================================================== *)

(** [`q${n}`]. *)
Definition question_id (n : nat) : string := "q" +:+ Js.num n.

Lemma question_id_inj : Inj (=) (=) question_id.
Proof.
  intros a b H.
  apply (f_equal (fun s => match s with
                           | String _ r => r
                           | EmptyString => EmptyString
                           end)) in H.
  exact (inj (pretty : nat -> string) a b H).
Qed.

Lemma questions_of_matches_ids ms : forall index,
  map q_id (questions_of_matches index ms)
  `sublist_of` map question_id (seq (index + 1) (length ms)).
Proof.
  induction ms as [|m ms IH]; intros index; cbn [questions_of_matches].
  - constructor.
  - cbn [length seq map]. rewrite map_app.
    specialize (IH (S index)). replace (S index + 1) with (S (index + 1)) in IH by lia.
    destruct (0 <? _); cbn [map app].
    + now constructor.
    + now constructor.
Qed.

Lemma questions_of_lines_ids lines : forall questionCount,
  exists n,
    map q_id (questions_of_lines questionCount lines)
    = map question_id (seq (S questionCount) n).
Proof.
  induction lines as [|line lines IH]; intros n; cbn [questions_of_lines].
  - now exists 0.
  - destruct (_ && _); [|apply IH].
    destruct (4 <=? S n).
    + now exists 1.
    + destruct (IH (S n)) as [k Hk]. exists (S k). cbn [map seq q_id].
      now rewrite Hk.
Qed.

(** X24. [parseClarificationQuestions] returns at least one question, whatever
    the text, and gives the questions pairwise distinct ids: an answer
    keyed by the id of a question belongs to that question only. *)
Theorem clarification_questions_have_distinct_ids questionsText :
  parseClarificationQuestions questionsText <> [] /\
  NoDup (map q_id (parseClarificationQuestions questionsText)).
Proof.
  unfold parseClarificationQuestions.
  assert (H : NoDup (map q_id
             match Re.match_all question_re questionsText with
             | Some questionMatches => questions_of_matches 0 questionMatches
             | None =>
                 questions_of_lines 0
                   (Js.split (fun c => Ascii.eqb c Js.lf) questionsText)
             end)).
  { destruct (Re.match_all question_re questionsText) as [ms|].
    - eapply sublist_NoDup; [|apply questions_of_matches_ids].
      apply (NoDup_fmap_2 question_id), NoDup_seq.
    - destruct (questions_of_lines_ids
                  (Js.split (fun c => Ascii.eqb c Js.lf) questionsText) 0)
        as [n ->].
      apply (NoDup_fmap_2 question_id), NoDup_seq. }
  destruct (match Re.match_all question_re questionsText with
            | Some _ => _ | None => _ end) as [|q qs].
  - split; [discriminate|]. repeat constructor. apply not_elem_of_nil.
  - split; [discriminate|exact H].
Qed.

Lemma prefixL_drop p : forall s,
  Js.prefixL p s = true -> s = p ++ drop (length p) s.
Proof.
  induction p as [|a p IH]; intros s; [reflexivity|].
  destruct s as [|b s]; [discriminate|]. cbn [Js.prefixL length drop app].
  intros H. apply andb_true_iff in H as [Hab H].
  apply Ascii.eqb_eq in Hab as ->. f_equal. now apply IH.
Qed.

(** A quantified character class consumes characters of the class only. *)
Lemma run_star_cls total greedy p s cap k a :
  Re.run total (Re.Star greedy (Re.Cls p)) s cap k = Some a ->
  exists blank s', s = blank ++ s' /\ forallb p blank = true /\
                   k s' cap = Some a.
Proof.
  cbn [Re.run]. generalize (length s). intros fuel. revert s.
  induction fuel as [|fuel IH]; intros s H.
  - exists [], s. auto.
  - assert (Hmore :
      match s with
      | c :: s' =>
          if p c
          then if length s' <? length s
               then (fix loop (fuel : nat) (s : list ascii)
                       (cap : option (list ascii)) {struct fuel}
                     : option Re.answer :=
                       match fuel with
                       | 0 => k s cap
                       | S fuel' =>
                           let more :=
                             Re.run total (Re.Cls p) s cap
                               (fun s' cap' =>
                                  if length s' <? length s
                                  then loop fuel' s' cap' else None) in
                           if greedy then Re.first_of more (k s cap)
                           else Re.first_of (k s cap) more
                       end) fuel s' cap
               else None
          else None
      | [] => None
      end = Some a ->
      exists blank s', s = blank ++ s' /\ forallb p blank = true /\
                       k s' cap = Some a).
    { destruct s as [|c s']; [discriminate|].
      destruct (p c) eqn:Hp; [|discriminate].
      destruct (length s' <? length (c :: s')); [|discriminate].
      intros H'. destruct (IH _ H') as (blank & s2 & -> & Hb & Hk).
      exists (c :: blank), s2. cbn [forallb app]. rewrite Hp. auto. }
    cbn [Re.run] in H. cbv zeta in H.
    destruct greedy; unfold Re.first_of in H.
    + destruct (match s with [] => None | _ => _ end) eqn:E.
      * apply Hmore. now rewrite <- H.
      * exists [], s. auto.
    + destruct (k s cap) eqn:E.
      * exists [], s. rewrite E. auto.
      * now apply Hmore.
Qed.

Lemma prefixL_self l s : Js.prefixL l (l ++ s) = true.
Proof.
  induction l as [|c l IH]; [reflexivity|].
  cbn [Js.prefixL app]. now rewrite Ascii.eqb_refl, IH.
Qed.

(** A greedy character class takes all the characters of the class it is
    given, when the rest of the pattern matches after them. *)
Lemma run_star_blank total p blank s cap k a :
  forallb p blank = true ->
  Re.run total (Re.Star true (Re.Cls p)) s cap k = Some a ->
  Re.run total (Re.Star true (Re.Cls p)) (blank ++ s) cap k = Some a.
Proof.
  intros Hb Hs. induction blank as [|c blank IH]; [exact Hs|].
  cbn [forallb] in Hb. apply andb_true_iff in Hb as [Hc Hb].
  cbn [app]. rewrite (run_star_greedy _ _ _ _ _ _ Hc), (IH Hb).
  reflexivity.
Qed.

(** The texts the pattern of [needs_re] matches at their start. *)
Lemma match_needs total blank answer rest :
  forallb Js.is_space blank = true ->
  answer = "YES" \/ answer = "NO" ->
  Re.match_here total needs_re
    (Js.chars "NEEDS_CLARIFICATION:" ++ blank ++ Js.chars answer ++ rest)
  = Some (rest, Some (Js.chars answer)).
Proof.
  intros Hb Ha. unfold Re.match_here, needs_re, Re.word.
  rewrite run_seq, run_lit_yes by apply prefixL_self.
  rewrite drop_app_length, run_seq.
  apply run_star_blank; [exact Hb|].
  destruct Ha as [-> | ->].
  - cbn [Js.chars list_ascii_of_string app].
    rewrite run_star_no by reflexivity.
    rewrite run_group, run_alt, run_lit_yes by reflexivity.
    cbn [Re.first_of drop length]. rewrite drop_0. do 2 f_equal.
    replace (S (S (S (length rest))) - length rest) with 3 by lia.
    reflexivity.
  - cbn [Js.chars list_ascii_of_string app].
    rewrite run_star_no by reflexivity.
    rewrite run_group, run_alt, run_lit_no by reflexivity.
    rewrite run_lit_yes by reflexivity.
    cbn [Re.first_of drop length]. rewrite drop_0. do 2 f_equal.
    replace (S (S (length rest)) - length rest) with 2 by lia.
    reflexivity.
Qed.

Lemma match_needs_inv total s rest cap :
  Re.match_here total needs_re s = Some (rest, cap) ->
  exists blank answer,
    s = Js.chars "NEEDS_CLARIFICATION:" ++ blank ++ Js.chars answer ++ rest /\
    forallb Js.is_space blank = true /\
    (answer = "YES" \/ answer = "NO") /\
    cap = Some (Js.chars answer).
Proof.
  intros Hm. unfold Re.match_here, needs_re, Re.word in Hm.
  cbn [Re.run] in Hm. rewrite run_lit in Hm.
  destruct (Js.prefixL (Js.chars "NEEDS_CLARIFICATION:") s) eqn:Hw;
    [|discriminate].
  apply prefixL_drop in Hw.
  apply (run_star_cls _ true Js.is_space) in Hm
    as (blank & s2 & Hb & Hblank & Hm).
  cbn [Re.run] in Hm. rewrite !run_lit in Hm. unfold Re.first_of in Hm.
  destruct (Js.prefixL (Js.chars "YES") s2) eqn:Hyes.
  - apply prefixL_drop in Hyes. cbv beta iota in Hm.
    apply (inj Some) in Hm. apply pair_equal_spec in Hm as [Hrest Hcap].
    subst rest cap. exists blank, "YES".
    split. { rewrite Hw at 1. f_equal. rewrite Hb. f_equal. exact Hyes. }
    split; [exact Hblank|]. split; [now left|]. f_equal.
    remember (drop (length (Js.chars "YES")) s2) as r eqn:Hr.
    rewrite Hyes.
    replace (length (Js.chars "YES" ++ r) - length r) with 3
      by (rewrite length_app; cbn; lia).
    reflexivity.
  - destruct (Js.prefixL (Js.chars "NO") s2) eqn:Hn; [|discriminate].
    apply prefixL_drop in Hn. cbv beta iota in Hm.
    apply (inj Some) in Hm. apply pair_equal_spec in Hm as [Hrest Hcap].
    subst rest cap. exists blank, "NO".
    split. { rewrite Hw at 1. f_equal. rewrite Hb. f_equal. exact Hn. }
    split; [exact Hblank|]. split; [now right|]. f_equal.
    remember (drop (length (Js.chars "NO")) s2) as r eqn:Hr.
    rewrite Hn.
    replace (length (Js.chars "NO" ++ r) - length r) with 2
      by (rewrite length_app; cbn; lia).
    reflexivity.
Qed.

(** The match a search finds is the leftmost one. *)
Lemma search_from_first total r : forall s pre f,
  Re.search_from total r pre s = Some f ->
  exists skipped s' rest,
    s = skipped ++ s' /\
    Re.match_here total r s' = Some (rest, Re.capture f) /\
    forall skipped' s'',
      s = skipped' ++ s'' -> length skipped' < length skipped ->
      Re.match_here total r s'' = None.
Proof.
  induction s as [|c s IH]; intros pre f; rewrite search_from_eq.
  - destruct (Re.match_here total r []) as [[rest cap]|] eqn:E; [|discriminate].
    intros [= <-]. exists [], [], rest. split; [reflexivity|].
    split; [exact E|]. intros ? ? _ H. inversion H.
  - destruct (Re.match_here total r (c :: s)) as [[rest cap]|] eqn:E.
    + intros [= <-]. exists [], (c :: s), rest. split; [reflexivity|].
      split; [exact E|]. intros ? ? _ H. inversion H.
    + intros H. destruct (IH _ _ H) as (skipped & s' & rest & -> & Hm & Hfirst).
      exists (c :: skipped), s', rest. split; [reflexivity|].
      split; [exact Hm|]. intros [|c' skipped'] s'' Hs Hlen.
      * cbn [app] in Hs. now rewrite <- Hs.
      * cbn [app] in Hs. injection Hs as <- Hs.
        apply (Hfirst skipped' s'' Hs). cbn [length] in Hlen. lia.
Qed.

(** The search for [needs_re] in a text where NO is answered at [pre], and
    YES nowhere before. *)
Lemma search_needs_no total blank rest : forall pre acc,
  forallb Js.is_space blank = true ->
  (forall pre' blank' rest',
     pre ++ Js.chars "NEEDS_CLARIFICATION:" ++ blank ++ Js.chars "NO" ++ rest
     = pre' ++ Js.chars "NEEDS_CLARIFICATION:" ++ blank' ++ Js.chars "YES"
       ++ rest' ->
     forallb Js.is_space blank' = true ->
     length pre <= length pre') ->
  exists f,
    Re.search_from total needs_re acc
      (pre ++ Js.chars "NEEDS_CLARIFICATION:" ++ blank ++ Js.chars "NO" ++ rest)
    = Some f /\
    Re.capture f = Some (Js.chars "NO").
Proof.
  induction pre as [|c pre IH]; intros acc Hb Hfirst; rewrite search_from_eq.
  - cbn [app]. rewrite (match_needs _ _ "NO" _ Hb) by now right.
    eexists. split; reflexivity.
  - destruct (Re.match_here total needs_re _) as [[rest0 cap]|] eqn:E.
    + eexists. split; [reflexivity|]. cbn [Re.capture].
      apply match_needs_inv in E
        as (blank' & answer & Hs & Hb' & [-> | ->] & ->); [|reflexivity].
      specialize (Hfirst [] blank' rest0 Hs Hb'). cbn [length] in Hfirst. lia.
    + cbn [app]. apply IH; [exact Hb|].
      intros pre' blank' rest' Hs Hb'.
      specialize (Hfirst (c :: pre') blank' rest').
      cbn [app length] in Hfirst. rewrite Hs in Hfirst.
      specialize (Hfirst eq_refl Hb'). lia.
Qed.

(** X23. The analysis of a prompt asks for clarification unless the text of the
    analysis says otherwise: clarification is skipped exactly when the text
    contains NEEDS_CLARIFICATION: followed, after white space at most, by
    the letters NO, and nowhere before that the same marker followed, after
    white space at most, by YES.  What follows the letters NO does not
    count: the answers NOT SURE and NOPE skip clarification too.  A text
    without the marker, or whose marker is never followed by YES or NO,
    leads to clarification questions. *)
Theorem clarification_is_skipped_only_on_an_explicit_no analysisText :
  needsClarification (parseAnalysisResult analysisText) = false <->
  exists pre blank rest,
    Js.chars analysisText
    = pre ++ Js.chars "NEEDS_CLARIFICATION:" ++ blank ++ Js.chars "NO" ++ rest /\
    forallb Js.is_space blank = true /\
    forall pre' blank' rest',
      Js.chars analysisText
      = pre' ++ Js.chars "NEEDS_CLARIFICATION:" ++ blank' ++ Js.chars "YES"
        ++ rest' ->
      forallb Js.is_space blank' = true ->
      length pre <= length pre'.
Proof.
  unfold parseAnalysisResult. cbn [needsClarification].
  unfold Re.capture1, Re.exec. split.
  - destruct (Re.search_from _ needs_re [] (Js.chars analysisText)) as [f|] eqn:E;
      [|discriminate].
    intros Hno.
    destruct (search_from_first _ _ _ _ _ E)
      as (pre & s & rest & Hs & Hm & Hfirst).
    destruct (match_needs_inv _ _ _ _ Hm)
      as (blank & answer & -> & Hb & [-> | ->] & Hcap).
    { rewrite Hcap in Hno. discriminate. }
    exists pre, blank, rest. split; [exact Hs|]. split; [exact Hb|].
    intros pre' blank' rest' Hs' Hb'.
    destruct (Nat.le_gt_cases (length pre) (length pre')) as [|Hlt];
      [assumption|].
    pose proof (match_needs (length (Js.chars analysisText)) blank' "YES" rest'
                  Hb' (or_introl eq_refl)) as Hyes.
    rewrite (Hfirst pre' _ Hs' Hlt) in Hyes. discriminate.
  - intros (pre & blank & rest & Hs & Hb & Hfirst).
    destruct (search_needs_no (length (Js.chars analysisText)) blank rest pre []
                Hb) as (f & E & Hcap).
    { intros pre' blank' rest' Hs'. apply (Hfirst pre' blank' rest').
      now rewrite Hs. }
    rewrite <- Hs in E. rewrite E, Hcap. reflexivity.
Qed.

(* ===================================================================== *)
(** * The public operations *)
(* ===================================================================== *)

(** X11. A session whose strategy is none of the three of the orchestrator (as
    [capability_based], which the form of the application offers) and that
    asks for at least one iteration cannot be generated: planning its steps
    throws a [TypeError], so [startCollaborativeGeneration] returns a
    failure before any call of the generation service and any progress
    update, and removes the session. *)
Theorem unknown_strategy_fails_before_any_call sessionId s w :
  activeSessions w !! sessionId = Some s ->
  handoffStrategies (handoffStrategy s) = None ->
  1 <= targetIterations s ->
  exists e,
    startCollaborativeGeneration sessionId w
    = (Returns (Failure e), without sessionId w) /\
    (e = "handoffStrategy.getNextModel is not a function" \/
     e = "Cannot read properties of undefined (reading 'getNextModel')").
Proof.
  intros Hs Hn Hi.
  unfold startCollaborativeGeneration, bind, get. rewrite Hs.
  unfold try_catch, generateProcessSteps, bind.
  destruct (targetIterations s) as [|n]; [lia|].
  cbn [iteration_steps]. unfold bind, nextModel. rewrite Hn.
  destruct (Js.inherited (handoffStrategy s)); unfold throw, forget, modify, ret;
    eexists; (split; [reflexivity|]); auto.
Qed.

Lemma no_client_no_model w :
  openaiClient w = None -> anthropicClient w = None ->
  client_getAvailableModels w = [].
Proof.
  intros Ho Ha. unfold client_getAvailableModels, isModelAvailable.
  now rewrite Ho, Ha.
Qed.

(** X12. Without a client for either provider [startRefinementProcess] fails at
    once, with the message of the prompt analyzer: no call of the
    generation service is made, no progress update is delivered, and no
    session is left under the new id. *)
Theorem start_without_client_fails sessionId initialPrompt sel iterations
    callback w :
  openaiClient w = None -> anthropicClient w = None ->
  exists w',
    startRefinementProcess sessionId initialPrompt sel iterations callback w
    = (Returns (Failure "No LLM models available for prompt analysis"), w') /\
    calls w' = calls w /\ events w' = events w /\
    activeSessions w' = delete sessionId (activeSessions w).
Proof.
  intros Ho Ha.
  unfold startRefinementProcess, bind, get, date_now, modify, try_catch,
    analyzeAndRefine, bind, get.
  cbn [fst snd]. rewrite no_client_no_model by assumption.
  unfold throw, forget, modify, bind, ret. eexists. split; [reflexivity|].
  cbn. split; [reflexivity|]. split; [reflexivity|].
  apply delete_insert_eq.
Qed.

(** A stored session that waits for the answers to its questions: it is
    stored under its own id, its prompt has not been refined and the
    pipeline has not touched it. *)
Definition awaiting (k : string) (s : session) : Prop :=
  id s = k /\ is_Some (pendingClarifications s) /\ refinedPrompt s = Null.

Definition all_awaiting (w : world) : Prop :=
  forall k s, activeSessions w !! k = Some s -> awaiting k s.

Lemma awaiting_with_callback sessionId callback m k s :
  (forall s0, m !! k = Some s0 -> awaiting k s0) ->
  with_callback sessionId callback m !! k = Some s -> awaiting k s.
Proof.
  intros H. unfold with_callback. destruct callback as [cb|]; [|apply H].
  destruct (decide (k = sessionId)) as [->|Hk].
  - rewrite lookup_alter_eq. destruct (m !! sessionId) as [s0|] eqn:E;
      [|discriminate].
    intros [= <-]. exact (H s0 eq_refl).
  - rewrite lookup_alter_ne by congruence. apply H.
Qed.

Lemma all_awaiting_perform w op : all_awaiting w -> all_awaiting (perform w op).
Proof.
  intros Hw. destruct op as [k|sessionId initialPrompt sel iterations callback
                            |sessionId ans callback]; cbn [perform].
  - exact Hw.
  - pose proof (startRefinementProcess_post sessionId initialPrompt sel
                  iterations callback w) as H.
    unfold post in H.
    destruct (startRefinementProcess _ _ _ _ _ w) as [[r|e] w'];
      [|contradiction].
    cbn [snd]. destruct H as (l & _ & _ & Hothers & _ & Hr).
    intros k s Hk. destruct (decide (k = sessionId)) as [->|Hne].
    + destruct r as [sid questions|sid res|e].
      * destruct Hr as (_ & _ & s1 & Hs1 & Hid & Hp & Hrp & _).
        rewrite Hs1 in Hk. injection Hk as <-.
        split; [exact Hid|]. split; [rewrite Hp; eauto|exact Hrp].
      * destruct Hr as (_ & Hnone & _). congruence.
      * congruence.
    + rewrite (Hothers k Hne) in Hk. now apply Hw.
  - destruct (activeSessions w !! sessionId) as [s0|] eqn:Hs.
    2:{ now rewrite (submitClarification_absent _ _ _ _ Hs). }
    destruct (Hw _ _ Hs) as (Hid & [pending Hp] & Hrp).
    pose proof (submitClarification_post sessionId s0 pending ans callback w
                  Hs Hp) as H.
    unfold post in H.
    destruct (submitClarification sessionId ans callback w) as [[r|e] w'];
      [|contradiction].
    cbn [snd]. destruct H as (l & _ & _ & Hothers & Hr).
    rewrite Hid in Hothers.
    assert (Hkeep : activeSessions w'
                    = with_callback sessionId callback (activeSessions w) ->
                    all_awaiting w').
    { intros E k s. rewrite E. apply awaiting_with_callback.
      intros s1 Hs1. now apply Hw. }
    assert (Hgone : activeSessions w' !! sessionId = None -> all_awaiting w').
    { intros E k s Hk. destruct (decide (k = sessionId)) as [->|Hne];
        [congruence|].
      rewrite (Hothers k Hne Hne) in Hk. now apply Hw. }
    destruct (validateClarificationAnswers pending ans) as [[|x errors]|e].
    + destruct Hr as (c & l2 & _ & _ & Hc).
      destruct (c_outcome c) as [refined|e].
      * destruct Hc as (_ & _ & Hc). destruct r as [| |e]; [contradiction| |].
        -- destruct Hc as (_ & _ & _ & Hnone & _). rewrite Hid in Hnone.
           now apply Hgone.
        -- now apply Hgone.
      * destruct Hc as (_ & _ & E). now apply Hkeep.
    + destruct Hr as (_ & _ & E). now apply Hkeep.
    + destruct Hr as (_ & _ & E). now apply Hkeep.
Qed.

(** X13. Whatever operations are performed on a new engine, every session that
    is stored between two of them waits for the answers to its questions:
    it is stored under its own id and its prompt has not been refined.  A
    session whose pipeline has run, to completion or to a failure, is never
    left behind. *)
Theorem stored_sessions_await_clarification ops :
  forall k s,
    activeSessions (fold_left perform ops initial_world) !! k = Some s ->
    id s = k /\ is_Some (pendingClarifications s) /\ refinedPrompt s = Null.
Proof.
  assert (H : all_awaiting initial_world).
  { intros k s. cbn. rewrite lookup_empty. discriminate. }
  revert H. generalize initial_world.
  induction ops as [|op ops IH]; intros w H; cbn [fold_left].
  - exact H.
  - apply IH. now apply all_awaiting_perform.
Qed.

(* ===================================================================== *)
(** * The selection of models *)
(* ===================================================================== *)

Lemma insert_sorted_perm {A} (cmp : A -> A -> Z) x l :
  insert_sorted cmp x l ≡ₚ x :: l.
Proof.
  induction l as [|y l IH]; cbn [insert_sorted]; [reflexivity|].
  destruct (0 <? cmp y x)%Z; [reflexivity|].
  rewrite IH. apply Permutation_swap.
Qed.

Lemma fold_insert_sorted_perm {A} (cmp : A -> A -> Z) l : forall acc,
  fold_left (fun acc x => insert_sorted cmp x acc) l acc ≡ₚ l ++ acc.
Proof.
  induction l as [|x l IH]; intros acc; cbn [fold_left app]; [reflexivity|].
  rewrite IH, insert_sorted_perm. symmetry. apply Permutation_middle.
Qed.

Lemma stable_sort_perm {A} (cmp : A -> A -> Z) l : stable_sort cmp l ≡ₚ l.
Proof.
  unfold stable_sort. rewrite fold_insert_sorted_perm. now rewrite app_nil_r.
Qed.

(** The first element of the list has the least key. *)
Definition least_first {A} (key : A -> Z) (l : list A) : Prop :=
  match l with
  | [] => True
  | x :: rest => forall y, y ∈ rest -> (key x <= key y)%Z
  end.

(** With a comparator that is the difference of a key, the first element of
    the result has the least key. *)
Lemma insert_sorted_least {A} (cmp : A -> A -> Z) (key : A -> Z) x l :
  (forall a b, cmp a b = (key a - key b)%Z) ->
  least_first key l -> least_first key (insert_sorted cmp x l).
Proof.
  intros Hcmp.
  destruct l as [|y l]; cbn [insert_sorted least_first].
  - intros _ y Hy. now apply not_elem_of_nil in Hy.
  - intros H. rewrite Hcmp. destruct (0 <? key y - key x)%Z eqn:E.
    + apply Z.ltb_lt in E. intros z Hz.
      apply elem_of_cons in Hz as [->|Hz]; [lia|]. specialize (H z Hz). lia.
    + apply Z.ltb_ge in E. intros z Hz. rewrite insert_sorted_perm in Hz.
      apply elem_of_cons in Hz as [->|Hz]; [lia|]. now apply H.
Qed.

Lemma stable_sort_least {A} (cmp : A -> A -> Z) (key : A -> Z) l :
  (forall a b, cmp a b = (key a - key b)%Z) ->
  least_first key (stable_sort cmp l).
Proof.
  intros Hcmp. unfold stable_sort.
  assert (H : least_first key (@nil A)) by exact I.
  revert H. generalize (@nil A).
  induction l as [|x l IH]; intros acc H; cbn [fold_left]; [exact H|].
  apply IH. now apply insert_sorted_least.
Qed.

(** The first element of the sorted list is one of the list, with the
    least key. *)
Lemma stable_sort_head {A} (cmp : A -> A -> Z) (key : A -> Z) l x rest :
  (forall a b, cmp a b = (key a - key b)%Z) ->
  stable_sort cmp l = x :: rest ->
  x ∈ l /\ forall y, y ∈ l -> (key x <= key y)%Z.
Proof.
  intros Hcmp E. pose proof (stable_sort_perm cmp l) as P.
  pose proof (stable_sort_least cmp key l Hcmp) as S. rewrite E in P, S.
  split.
  - rewrite <- P. apply list_elem_of_here.
  - intros y Hy. rewrite <- P in Hy.
    apply elem_of_cons in Hy as [->|Hy]; [lia|]. now apply S.
Qed.

(** The number of the required capabilities that a model has. *)
Definition score (requiredCapabilities : list string) (m : descriptor) : nat :=
  length (filter (fun cap => cap ∈ capabilities m) requiredCapabilities).

Lemma selectModelByCapabilities_eq w requiredCapabilities excludeModel :
  selectModelByCapabilities w requiredCapabilities excludeModel
  = match filter (fun m =>
              negb (Js.truthy excludeModel && Js.is_str excludeModel (d_id m))
              && negb (score requiredCapabilities m =? 0) = true)
            (getAvailableModels w) with
    | [] =>
        match filter (fun m => Js.is_str excludeModel (d_id m) = false)
                (getAvailableModels w) with
        | m :: _ => Str (d_id m)
        | [] =>
            match getAvailableModels w with
            | m :: _ => Str (d_id m)
            | [] => Undefined
            end
        end
    | _ :: _ =>
        match stable_sort (fun a b => (Z.of_nat (snd b) - Z.of_nat (snd a))%Z)
                (map (fun m => (m, score requiredCapabilities m))
                   (filter (fun m =>
                      negb (Js.truthy excludeModel
                            && Js.is_str excludeModel (d_id m))
                      && negb (score requiredCapabilities m =? 0) = true)
                      (getAvailableModels w))) with
        | (m, _) :: _ => Str (d_id m)
        | [] => Undefined
        end
    end.
Proof. reflexivity. Qed.

(** X14. [selectModelByCapabilities] returns an enabled model whenever there is
    one, and [undefined] only when there is none.  When some enabled model
    is not the excluded one, the model returned is not the excluded one
    either, and no enabled model other than the excluded one has more of the
    required capabilities. *)
Theorem selectModelByCapabilities_selects w requiredCapabilities excludeModel :
  excludeModel <> Str "" ->
  match selectModelByCapabilities w requiredCapabilities excludeModel with
  | Str selected =>
      exists m,
        m ∈ getAvailableModels w /\ d_id m = selected /\
        forall m',
          m' ∈ getAvailableModels w ->
          Js.is_str excludeModel (d_id m') = false ->
          Js.is_str excludeModel selected = false /\
          score requiredCapabilities m' <= score requiredCapabilities m
  | Undefined => getAvailableModels w = []
  | Null => False
  end.
Proof.
  intros Hex. rewrite selectModelByCapabilities_eq.
  set (candidate := fun m : descriptor =>
         negb (Js.truthy excludeModel && Js.is_str excludeModel (d_id m))
         && negb (score requiredCapabilities m =? 0) = true).
  assert (Hcand : forall m', Js.is_str excludeModel (d_id m') = false ->
                             ~ candidate m' -> score requiredCapabilities m' = 0).
  { intros m' Hm' Hc. unfold candidate in Hc. rewrite Hm', andb_false_r in Hc.
    cbn [negb andb] in Hc.
    destruct (score requiredCapabilities m' =? 0) eqn:E;
      [now apply Nat.eqb_eq in E|]. now destruct Hc. }
  assert (Hnot : forall m', candidate m' ->
                            Js.is_str excludeModel (d_id m') = false).
  { intros m' Hc. unfold candidate in Hc. apply andb_true_iff in Hc as [Hc _].
    apply negb_true_iff, andb_false_iff in Hc as [Hc|Hc]; [|exact Hc].
    destruct excludeModel as [| |e]; try reflexivity.
    cbn in Hc. apply negb_false_iff, String.eqb_eq in Hc. subst e.
    now destruct Hex. }
  destruct (filter candidate (getAvailableModels w)) as [|c cs] eqn:Ec.
  - assert (Hnone : forall m', m' ∈ getAvailableModels w -> ~ candidate m').
    { intros m' Hm' Hc.
      assert (Hin : m' ∈ filter candidate (getAvailableModels w))
        by (apply list_elem_of_filter; auto).
      rewrite Ec in Hin. now apply not_elem_of_nil in Hin. }
    destruct (filter (fun m => Js.is_str excludeModel (d_id m) = false)
                (getAvailableModels w)) as [|f fs] eqn:Ef.
    + destruct (getAvailableModels w) as [|m ms] eqn:Em; [reflexivity|].
      exists m. split; [apply list_elem_of_here|]. split; [reflexivity|].
      intros m' Hm' Hx. exfalso.
      assert (Hin : m' ∈ filter (fun m => Js.is_str excludeModel (d_id m) = false)
                          (m :: ms)) by (apply list_elem_of_filter; auto).
      rewrite Ef in Hin. now apply not_elem_of_nil in Hin.
    + assert (Hf : f ∈ filter (fun m => Js.is_str excludeModel (d_id m) = false)
                         (getAvailableModels w))
        by (rewrite Ef; apply list_elem_of_here).
      apply list_elem_of_filter in Hf as [Hfx Hf].
      exists f. split; [exact Hf|]. split; [reflexivity|].
      intros m' Hm' Hx. split; [exact Hfx|].
      rewrite (Hcand m' Hx (Hnone m' Hm')). lia.
  - destruct (stable_sort _ _) as [|[m n] rest] eqn:Es.
    { pose proof (stable_sort_perm
                    (fun a b : descriptor * nat =>
                       (Z.of_nat (snd b) - Z.of_nat (snd a))%Z)
                    (map (fun m => (m, score requiredCapabilities m)) (c :: cs)))
        as P.
      rewrite Es in P. apply Permutation_length in P. discriminate P. }
    assert (Hkey : forall a b : descriptor * nat,
               (Z.of_nat (snd b) - Z.of_nat (snd a))%Z
               = ((fun x : descriptor * nat => (- Z.of_nat (snd x))%Z) a
                  - (fun x : descriptor * nat => (- Z.of_nat (snd x))%Z) b)%Z)
      by (intros; cbv beta; lia).
    destruct (stable_sort_head _ _ _ _ _ Hkey Es) as [Hin Hmin].
    apply list_elem_of_fmap in Hin as (m0 & [= <- ->] & Hm0).
    assert (Hc0 : m ∈ filter candidate (getAvailableModels w))
      by (rewrite Ec; exact Hm0).
    apply list_elem_of_filter in Hc0 as [Hc0 Hen].
    exists m. split; [exact Hen|]. split; [reflexivity|].
    intros m' Hm' Hx. split; [now apply Hnot|].
    destruct (decide (candidate m')) as [Hc|Hc].
    + assert (Hin' : (m', score requiredCapabilities m')
                     ∈ map (fun m => (m, score requiredCapabilities m)) (c :: cs)).
      { apply list_elem_of_fmap. exists m'. split; [reflexivity|].
        rewrite <- Ec. apply list_elem_of_filter. auto. }
      specialize (Hmin _ Hin'). cbn [snd] in Hmin. lia.
    + rewrite (Hcand m' Hx Hc). lia.
Qed.

(** What a run of [analyzeAndRefine] that returns [r] has done, by the
    calls [l] it made from the state [w]: an analysis call and then either
    a call for the questions or a call for the refined prompt, both to the
    first model in the list of the client. *)
Definition analysis_run (initialPrompt : string) (w : world) (r : refinement)
  (l : list call) : Prop :=
  exists m rest cA c2 analysisText,
    client_getAvailableModels w = m :: rest /\
    l = [cA; c2] /\
    replied w cA AtAnalysis (Str m) (Str (buildAnalysisPrompt initialPrompt))
      analysisText /\
    c_model c2 = Str m /\
    match r with
    | Refined refined a =>
        a = parseAnalysisResult analysisText /\
        needsClarification a = false /\
        c_site c2 = AtDirectRefinement /\ c_outcome c2 = Returns refined
    | Clarify questions a =>
        a = parseAnalysisResult analysisText /\
        needsClarification a = true /\
        c_site c2 = AtQuestions /\
        exists questionsText,
          c_outcome c2 = Returns questionsText /\
          questions = parseClarificationQuestions questionsText
    end.

Lemma analyzeAndRefine_detail initialPrompt w :
  post (analyzeAndRefine initialPrompt) w
    (fun r w' => exists l, journal w w' l [] /\ analysis_run initialPrompt w r l)
    (fun _ _ => True).
Proof.
  pose proof (journal_refl w) as J. unfold analyzeAndRefine.
  apply post_bind, post_get.
  destruct (client_getAvailableModels w) as [|m rest] eqn:Em; [exact I|].
  cbn [first_model]. do 2 trace.
  destruct (needsClarification (parseAnalysisResult a)) eqn:En.
  - unfold generateClarificationQuestions. do 5 trace.
    eexists. split; [eassumption|].
    destruct A0 as (S2 & M2 & _ & O2 & _).
    exists m, rest, c, c0, a. repeat (split; [first [reflexivity|assumption]|]).
    exists a0. auto.
  - unfold generateRefinedPrompt. do 3 trace.
    eexists. split; [eassumption|].
    destruct A0 as (S2 & M2 & _ & O2 & _).
    exists m, rest, c, c0, a. repeat (split; [first [reflexivity|assumption]|]).
    assumption.
Qed.

(** X22. Whatever models the caller selects, the prompt analyzer works with the
    first model in the list of the client of the generation service
    (claude-sonnet-4 when Anthropic has a client, gpt-4.1 otherwise): a run
    that returns has made exactly two calls, both to that model, the first
    one with the analysis prompt; the second one asks for questions when
    the analysis of the first answer needs clarification, and for the
    refined prompt otherwise, and what is returned is read off its answer. *)
Theorem analysis_uses_the_first_available_model initialPrompt w r w' :
  analyzeAndRefine initialPrompt w = (Returns r, w') ->
  exists l,
    calls w' = calls w ++ l /\ events w' = events w /\
    analysis_run initialPrompt w r l /\
    (forall m, head (client_getAvailableModels w) = Some m ->
               m = if anthropicClient w is Some _
                   then "claude-sonnet-4" else "gpt-4.1").
Proof.
  intros E.
  destruct (post_elim _ _ _ _ _ _ (analyzeAndRefine_detail initialPrompt w) E)
    as (l & [[Ha _] He] & R).
  exists l. split; [exact Ha|]. split; [now rewrite He, app_nil_r|].
  split; [exact R|].
  unfold client_getAvailableModels, isModelAvailable.
  destruct (openaiClient w), (anthropicClient w); cbn; intros m [= <-];
    reflexivity.
Qed.

(** A step of the plan and the call that carries it out: a critique or an
    improvement step names the model that is called, for the iteration of
    the call. *)
Definition planned (st : step) (c : call) : Prop :=
  match c_site c with
  | AtInitial => s_iteration st = 0
  | AtCritique i | AtImprovement i =>
      s_iteration st = i /\ s_modelId st = Some (c_model c)
  | AtFinalReview => s_type st = "refine"
  | _ => False
  end.

Lemma nextModel_proposal name current i n phase w v :
  proposal name current i n phase w = Returns v ->
  nextModel name current i n phase w = (Returns v, w).
Proof.
  unfold proposal. pose proof (inert_nextModel name current i n phase w) as H.
  destruct (nextModel name current i n phase w) as [o w1]. cbn in *.
  now intros ->; subst.
Qed.

Lemma rounds_planned wr w s count : forall i st l st',
  rounds wr count i st l st' ->
  enabledModels w = enabledModels wr ->
  setup (set_steps [] (st_session st)) = setup (set_steps [] s) ->
  exists middle,
    iteration_steps s count i w = (Returns middle, w) /\
    Forall2 planned middle l.
Proof.
  intros i st l st' H Hen.
  induction H as [|count i st c1 c2 st1 l st' R _ IH]; intros Hs.
  - exists []. split; [reflexivity|constructor].
  - pose proof (round_setup _ _ _ _ _ _ R) as Hs1.
    destruct IH as (rest & Er & Fr).
    { rewrite <- Hs. exact (f_equal (set_steps []) Hs1). }
    destruct R as (v1 & v2 & a1 & a2 & t1 & t2 & E1 & A1 & E2 & A2 & _).
    assert (Hh : handoffStrategy (st_session st) = handoffStrategy s)
      by exact (f_equal handoffStrategy Hs).
    assert (Hm : models (st_session st) = models s)
      by exact (f_equal models Hs).
    assert (Ht : targetIterations (st_session st) = targetIterations s)
      by exact (f_equal targetIterations Hs).
    simpl in E1, E2, A1, A2. rewrite Hh in E1, E2.
    rewrite Hm, Ht in E1, E2, A1, A2.
    rewrite <- (proposal_enabled _ _ _ _ _ w wr Hen) in E1.
    rewrite <- (proposal_enabled _ _ _ _ _ w wr Hen) in E2.
    apply nextModel_proposal in E1, E2.
    destruct A1 as (S1 & M1 & _), A2 as (S2 & M2 & _).
    cbn [iteration_steps]. unfold bind. rewrite E1, E2, Er.
    eexists. split; [reflexivity|].
    constructor; [unfold planned; rewrite S1, M1; split; reflexivity|].
    constructor; [unfold planned; rewrite S2, M2; split; reflexivity|].
    exact Fr.
Qed.

(** X7. When [startCollaborativeGeneration] completes, the steps it planned for
    the session and the calls it then made correspond one to one, in order:
    the first step is the initial generation, each critique and improvement
    step names the model that was called for it, and the last step is the
    final review, whose model the plan selects on its own. *)
Theorem planned_steps_are_carried_out sessionId s w sid res w' :
  activeSessions w !! sessionId = Some s ->
  startCollaborativeGeneration sessionId w = (Returns (Complete sid res), w') ->
  exists plan l,
    generateProcessSteps s w = (Returns plan, w) /\
    calls w' = calls w ++ l /\
    Forall2 planned plan l.
Proof.
  intros Hs E.
  unfold startCollaborativeGeneration, bind at 1, get in E. rewrite Hs in E.
  unfold try_catch, bind at 1 in E.
  pose proof (inert_generateProcessSteps s w) as Hin.
  destruct (generateProcessSteps s w) as [[plan|e] w1] eqn:EG; cbn in Hin;
    subst w1.
  2:{ unfold forget, modify, bind, ret in E. discriminate. }
  unfold assign, modify, bind at 1 in E.
  unfold bind at 1 in E.
  destruct (executeCollaborativeProcess (set_steps plan s) _)
    as [[res'|e] w3] eqn:EX.
  2:{ unfold forget, modify, bind, ret in E. discriminate. }
  unfold ret in E. injection E as _ <- <-.
  open_run EX. cbn [calls with_activeSessions] in Hcalls.
  exists plan, l. split; [reflexivity|]. split; [exact Hcalls|].
  destruct (rounds_planned _ w s _ _ _ _ _ Rs) as (middle' & Em & Fm);
    [reflexivity|reflexivity|].
  unfold generateProcessSteps, bind, get in EG.
  cbn [targetIterations set_steps] in Em. rewrite Em in EG.
  unfold ret in EG. injection EG as <-. subst l.
  destruct A0 as (S0 & _), AF as (SF & _).
  constructor; [unfold planned; now rewrite S0|].
  apply Forall2_app; [exact Fm|].
  constructor; [unfold planned; now rewrite SF|constructor].
Qed.

Lemma startCollaborativeGeneration_run sessionId s w sid res w' :
  activeSessions w !! sessionId = Some s ->
  startCollaborativeGeneration sessionId w = (Returns (Complete sid res), w') ->
  exists plan,
    sid = sessionId /\
    executeCollaborativeProcess (set_steps plan s)
      (with_activeSessions (alter (set_steps plan) sessionId (activeSessions w)) w)
    = (Returns res, w').
Proof.
  intros Hs E.
  unfold startCollaborativeGeneration, bind at 1, get in E. rewrite Hs in E.
  unfold try_catch, bind at 1 in E.
  pose proof (inert_generateProcessSteps s w) as Hin.
  destruct (generateProcessSteps s w) as [[plan|e] w1] eqn:EG; cbn in Hin;
    subst w1.
  2:{ unfold forget, modify, bind, ret in E. discriminate. }
  unfold assign, modify, bind at 1 in E.
  unfold bind at 1 in E.
  destruct (executeCollaborativeProcess (set_steps plan s) _)
    as [[res'|e] w3] eqn:EX.
  2:{ unfold forget, modify, bind, ret in E. discriminate. }
  unfold ret in E. injection E as <- <- <-.
  exists plan. split; [reflexivity|exact EX].
Qed.

(** X8. When [startRefinementProcess] completes without asking for
    clarification, the pipeline has worked from the refined prompt, not
    from the prompt the user typed: after the analysis call comes the call
    that refines the prompt, and its answer is the prompt of the initial
    generation, made with the primary model the caller selected, and the
    refined prompt of the result.  The result repeats the prompt the user
    typed, the number of iterations asked for and the strategy, which is
    [model_specialization] when the caller names none. *)
Theorem refined_prompt_drives_the_pipeline sessionId initialPrompt sel
    iterations callback w sid res w' :
  startRefinementProcess sessionId initialPrompt sel iterations callback w
  = (Returns (Complete sid res), w') ->
  exists cA cR refined c0 rest,
    calls w' = calls w ++ cA :: cR :: c0 :: rest /\
    c_site cA = AtAnalysis /\
    c_site cR = AtDirectRefinement /\ c_outcome cR = Returns refined /\
    c_site c0 = AtInitial /\ c_model c0 = primaryModel sel /\
    c_prompt c0 = Str refined /\
    sid = sessionId /\
    r_originalPrompt res = initialPrompt /\
    r_refinedPrompt res = Str refined /\
    r_targetIterations res = iterations /\
    r_handoffStrategy res
    = Js.show (Js.or_else (sel_handoffStrategy sel) (Str "model_specialization")).
Proof.
  intros E. unfold startRefinementProcess in E.
  unfold bind at 1, get in E. unfold bind at 1, date_now in E.
  unfold bind at 1, modify in E. unfold try_catch, bind at 1 in E.
  set (reviewer := if Js.truthy _ then _ else _) in E.
  set (s0 := new_session _ _ _ _ _ _ _) in E.
  set (w1 := with_activeSessions _ _) in E.
  pose proof (analyzeAndRefine_detail initialPrompt w1) as HA.
  unfold post in HA.
  destruct (analyzeAndRefine initialPrompt w1) as [[r|e] w2] eqn:EA.
  2:{ unfold forget, modify, bind, ret in E. discriminate. }
  destruct HA as (la & [[Hla Hst] _] & m & others & cA & cR & analysisText
                  & _ & -> & A1 & _ & Hr).
  destruct r as [questions a|refined a].
  { unfold assign, modify, bind, ret in E. discriminate. }
  destruct Hr as (_ & _ & SR & OR).
  unfold assign, modify, bind at 1 in E.
  set (w3 := with_activeSessions _ w2) in E.
  destruct (startCollaborativeGeneration sessionId w3) as [[r|e] w4] eqn:ES.
  2:{ unfold forget, modify, bind, ret in E. discriminate. }
  injection E as -> ->.
  assert (Hs3 : activeSessions w3 !! sessionId
                = Some (set_refinedPrompt (Str refined) s0)).
  { subst w3. cbn [activeSessions with_activeSessions].
    rewrite lookup_alter_eq.
    destruct Hst as (_ & _ & _ & _ & ->). subst w1.
    cbn [activeSessions with_activeSessions]. now rewrite lookup_insert_eq. }
  destruct (startCollaborativeGeneration_run _ _ _ _ _ _ Hs3 ES)
    as (plan & -> & EX).
  open_run EX.
  pose proof (rounds_setup _ _ _ _ _ _ Rs) as Hsetup.
  destruct A0 as (S0 & M0 & P0 & _), A1 as (SA & _).
  exists cA, cR, refined, c0, (middle ++ [cF]).
  split.
  { rewrite Hcalls. cbn [calls with_activeSessions]. subst w3.
    cbn [calls with_activeSessions]. rewrite Hla. subst w1 l.
    cbn [calls with_activeSessions with_ticks]. now rewrite <- app_assoc. }
  repeat (split; [first [assumption|reflexivity]|]).
  subst res s'. cbn [r_originalPrompt r_refinedPrompt r_targetIterations
                       r_handoffStrategy].
  split; [exact (f_equal originalPrompt Hsetup)|].
  split; [exact (f_equal refinedPrompt Hsetup)|].
  split; [exact (f_equal targetIterations Hsetup)|].
  exact (f_equal handoffStrategy Hsetup).
Qed.

Lemma refineWithClarifications_detail originalPrompt questions ans w :
  post (refineWithClarifications originalPrompt questions ans) w
    (fun refined w' =>
       exists c prompt,
         journal w w' [c] [] /\
         replied w c AtClarifiedRefinement
           (first_model (client_getAvailableModels w)) prompt refined)
    (fun _ _ => True).
Proof.
  pose proof (journal_refl w) as J. unfold refineWithClarifications.
  apply post_bind, post_get. trace. do 2 eexists. split; eassumption.
Qed.

(** X9. When [submitClarification] completes, the answers have passed the
    validation and the pipeline has worked from the prompt refined with
    them: the first call refines the prompt, with the first model in the
    list of the client, and its answer is the prompt of the initial
    generation, made with the primary model of the session, and the refined
    prompt of the result. *)
Theorem clarified_prompt_drives_the_pipeline sessionId s pending ans callback
    w sid res w' :
  activeSessions w !! sessionId = Some s ->
  pendingClarifications s = Some pending ->
  submitClarification sessionId ans callback w
  = (Returns (Complete sid res), w') ->
  validateClarificationAnswers pending ans = Returns [] /\
  exists cR refined c0 rest,
    calls w' = calls w ++ cR :: c0 :: rest /\
    c_site cR = AtClarifiedRefinement /\
    c_model cR = first_model (client_getAvailableModels w) /\
    c_outcome cR = Returns refined /\
    c_site c0 = AtInitial /\ c_model c0 = primaryModel (models s) /\
    c_prompt c0 = Str refined /\
    r_originalPrompt res = originalPrompt s /\
    r_refinedPrompt res = Str refined.
Proof.
  intros Hs Hp E. unfold submitClarification, bind at 1, get in E.
  rewrite Hs, Hp in E. unfold try_catch, bind at 1 in E.
  set (s1 := match callback with
             | Some _ => set_progressCallback callback s
             | None => s
             end) in E.
  set (w1 := snd (match callback with
                  | Some _ => assign sessionId (set_progressCallback callback)
                  | None => ret tt
                  end w)).
  assert (E1 : match callback with
               | Some _ => assign sessionId (set_progressCallback callback)
               | None => ret tt
               end w = (Returns tt, w1)) by (subst w1; now destruct callback).
  rewrite E1 in E.
  assert (H1 : activeSessions w1 !! sessionId = Some s1 /\ calls w1 = calls w
               /\ openaiClient w1 = openaiClient w
               /\ anthropicClient w1 = anthropicClient w).
  { subst w1 s1. destruct callback; cbn.
    - rewrite lookup_alter_eq, Hs. auto.
    - auto. }
  destruct H1 as (Hs1 & Hc1 & Ho1 & Ha1). clearbody w1. clear E1.
  unfold bind at 1 in E.
  pose proof (post_sendProgressUpdate_exact s1
                (Update "processing_clarifications"
                   "Processing your clarification answers" 0
                   (targetIterations s1) None false None) w1
                (fun _ w2 => quiet w1 w2) (fun _ _ => False)
                (fun _ _ Hq _ => Hq)) as HS.
  unfold post in HS.
  destruct (sendProgressUpdate _ _ w1) as [[[]|e] w2]; [|contradiction].
  destruct HS as (Ho2 & Ha2 & _ & _ & Hs2 & Hc2).
  unfold bind at 1, lift in E.
  destruct (validateClarificationAnswers pending ans) as [[|x errors]|e] eqn:Ev.
  2,3: unfold ret in E; discriminate.
  split; [reflexivity|].
  unfold bind at 1 in E.
  pose proof (refineWithClarifications_detail (originalPrompt s1) pending ans w2)
    as HR.
  unfold post in HR.
  destruct (refineWithClarifications _ _ _ w2) as [[refined|e] w3];
    [|unfold ret in E; discriminate].
  destruct HR as (cR & prompt & [[Hc3 Hst3] _] & SR & MR & _ & OR & _).
  unfold assign, modify, bind at 1 in E.
  set (w4 := with_activeSessions _ w3) in E.
  assert (Hs4 : activeSessions w4 !! sessionId
                = Some (set_pendingClarifications None
                          (set_refinedPrompt (Str refined) s1))).
  { subst w4. cbn [activeSessions with_activeSessions].
    rewrite lookup_alter_eq. destruct Hst3 as (_ & _ & _ & _ & ->).
    now rewrite Hs2, Hs1. }
  destruct (startCollaborativeGeneration sessionId w4) as [[r|e] w5] eqn:ES;
    [|discriminate].
  injection E as -> ->.
  destruct (startCollaborativeGeneration_run _ _ _ _ _ _ Hs4 ES)
    as (plan & -> & EX).
  open_run EX.
  pose proof (rounds_setup _ _ _ _ _ _ Rs) as Hsetup.
  destruct A0 as (S0 & M0 & P0 & _).
  exists cR, refined, c0, (middle ++ [cF]).
  split.
  { rewrite Hcalls. cbn [calls with_activeSessions]. subst w4.
    cbn [calls with_activeSessions]. rewrite Hc3, Hc2, Hc1. subst l.
    now rewrite <- app_assoc. }
  split; [exact SR|].
  split.
  { rewrite MR. unfold client_getAvailableModels, isModelAvailable.
    now rewrite Ho2, Ha2, Ho1, Ha1. }
  split; [exact OR|]. split; [exact S0|].
  split. { rewrite M0. subst s1. now destruct callback. }
  split; [exact P0|].
  subst res s'. cbn [r_originalPrompt r_refinedPrompt].
  split.
  - transitivity (originalPrompt s1);
      [exact (f_equal originalPrompt Hsetup)|].
    subst s1. now destruct callback.
  - exact (f_equal refinedPrompt Hsetup).
Qed.

(** X10. After answers that pass the validation, [submitClarification] first
    makes the call that refines the prompt.  If that call fails, the
    failure is returned and the session stays as it was, but for the
    progress callback, so the answers can be submitted again; if it
    succeeds, the session is consumed: whether the pipeline then completes
    or fails, the session is no longer stored. *)
Theorem failed_refinement_keeps_the_session sessionId s pending ans callback
    w r w' :
  activeSessions w !! sessionId = Some s ->
  id s = sessionId ->
  pendingClarifications s = Some pending ->
  validateClarificationAnswers pending ans = Returns [] ->
  submitClarification sessionId ans callback w = (Returns r, w') ->
  exists c rest,
    calls w' = calls w ++ c :: rest /\
    c_site c = AtClarifiedRefinement /\
    match c_outcome c with
    | Throws e =>
        rest = [] /\ r = Failure e /\
        activeSessions w' = with_callback sessionId callback (activeSessions w)
    | Returns _ => activeSessions w' !! sessionId = None
    end.
Proof.
  intros Hs Hid Hp Hv E.
  pose proof (post_elim _ _ _ _ _ _
                (submitClarification_post sessionId s pending ans callback w
                   Hs Hp) E) as (l & Ha & _ & _ & H).
  rewrite Hv in H. destruct H as (c & rest & -> & Hsite & H).
  exists c, rest. split; [exact Ha|]. split; [exact Hsite|].
  destruct (c_outcome c) as [refined|e]; [|exact H].
  destruct H as (_ & _ & H). destruct r as [| |e]; [contradiction| |exact H].
  destruct H as (_ & _ & _ & H & _). now rewrite Hid in H.
Qed.
End Engine.

(* ===================================================================== *)
(** * Scenarios *)
(* ===================================================================== *)

(** Concrete providers, clocks and sessions on which the properties above
    are exercised. *)
Module Scenario.

Definition clock (n : nat) : Z := 1000 + 7 * Z.of_nat n.
Definition number_text (s : string) : string := s.
Definition duration_text (ms : Z) : string := pretty (ms / 1000)%Z +:+ ".0".
Definition member_text (key : string) : string :=
  if String.eqb key "__proto__" then "[object Object]"
  else "function " +:+ key +:+ "() { [native code] }".

(** Both providers have a key. *)
Definition ready : world :=
  snd (setApiKeys (Credentials (Some "sk-test") (Some "sk-ant-test"))
         initial_world).

Definition chosen : selection :=
  Selection (Str "gpt-4.1") (Str "gpt-4o") Null (Str "model_specialization").

(** A provider that answers every request. *)
Definition echo (n : nat) (rq : request) : reply :=
  Replies ["  reply " +:+ pretty n +:+ " "].

(** A provider whose third answer is an error. *)
Definition flaky (n : nat) (rq : request) : reply :=
  if n =? 2 then Rejects "rate limit exceeded" else echo n rq.

(** A provider that finds the prompt clear, then answers every request. *)
Definition satisfied (n : nat) (rq : request) : reply :=
  match n with
  | 0 => Replies [Js.lines ["CLARITY_SCORE: 0.9"; "OVERALL_SCORE: 0.9";
                            "NEEDS_CLARIFICATION: NO"; "REASONING: clear"]]
  | _ => echo n rq
  end.

(** A provider that asks two questions, then answers every request. *)
Definition curious (n : nat) (rq : request) : reply :=
  match n with
  | 0 => Replies [Js.lines ["CLARITY_SCORE: 0.3"; "OVERALL_SCORE: 0.3";
                            "NEEDS_CLARIFICATION: YES"; "REASONING: vague"]]
  | 1 => Replies [Js.lines ["QUESTION_1: Who is the audience?";
                            "QUESTION_2: How long should it be?"]]
  | _ => echo n rq
  end.

(** A session with two iterations whose prompt has been refined. *)
Definition refined_session : session :=
  set_refinedPrompt (Str "A haiku about autumn, please.")
    (new_session "s1" "haiku" chosen (Str "claude-sonnet-4") 2 1000 None).

Definition running : world :=
  with_activeSessions {[ "s1" := refined_session ]} ready.

Definition two_questions : list question :=
  [Question "q1" "Who is the audience?";
   Question "q2" "How long should it be?"].

Definition vague : analysis :=
  Analysis "0.3" "0.5" "0.5" "0.3" true [] [] "vague".

(** A session that waits for the answers to the two questions. *)
Definition waiting_session : session :=
  set_pendingClarifications (Some two_questions)
    (new_session "s2" "haiku" chosen (Str "claude-sonnet-4") 2 1000 None).

Definition waiting : world :=
  with_activeSessions {[ "s2" := waiting_session ]} ready.

Definition short_answers : answers := [("q1", "x"); ("q2", "  ")].
Definition good_answers : answers := [("q1", "children"); ("q2", "three lines")].

(** A prompt of 11204 code units: 2801 estimated tokens. *)
Definition long_prompt : string := Js.str (repeat "a"%char (4 * 2801)).

Definition five_questions : string :=
  Js.lines ["QUESTION_1: a?"; "QUESTION_2: b?"; "QUESTION_3: c?";
            "QUESTION_4: d?"; "QUESTION_5: e?"].

Definition six_plain_questions : string :=
  Js.lines ["Who is the audience?"; "How long should it be?";
            "Which tone do you want?"; "Is there a deadline?";
            "Which format do you need?"; "Any examples to follow?"].

Definition recorded (t : Z) : list entry :=
  [Entry 0 (Str "gpt-4.1") "initial_generation" (Str "p") "first draft" t;
   Entry 1 (Str "claude-sonnet-4") "critique" (Str "c") "too short" (t + 5)].

End Scenario.

Lemma pipeline_makes_2n_plus_2_calls_witness :
  1 <= targetIterations Scenario.refined_session /\
  refinedPrompt Scenario.refined_session = Str "A haiku about autumn, please." /\
  exists res w',
    executeCollaborativeProcess Scenario.echo Scenario.clock
      Scenario.duration_text Scenario.refined_session Scenario.ready
    = (Returns res, w') /\
    length (calls w') = 6 /\
    map c_site (calls w')
    = [AtInitial; AtCritique 1; AtImprovement 1; AtCritique 2; AtImprovement 2;
       AtFinalReview] /\
    r_completedIterations res = 2.
Proof.
  assert (H1 : 1 <= targetIterations Scenario.refined_session)
    by (simpl; lia).
  assert (H2 : refinedPrompt Scenario.refined_session
               = Str "A haiku about autumn, please.") by reflexivity.
  split; [exact H1|]. split; [exact H2|].
  destruct (executeCollaborativeProcess Scenario.echo Scenario.clock
              Scenario.duration_text Scenario.refined_session Scenario.ready)
    as [[res|e] w'] eqn:E; [|vm_compute in E; discriminate].
  destruct (pipeline_makes_2n_plus_2_calls _ _ _ _ _ _ _ _ H1 H2 E)
    as (first & middle & last & s' & w1 & Hc & Hlen & Hf & _ & _ & Hm & Hl
        & _ & _ & _ & Hr).
  exists res, w'. split; [reflexivity|].
  rewrite Hc. simpl calls. rewrite app_nil_l.
  split; [exact Hlen|]. split; [|exact Hr].
  simpl. rewrite map_app, Hf, Hm. simpl. now rewrite Hl.
Defined.

Lemma failed_call_aborts_pipeline_witness :
  activeSessions Scenario.running !! "s1" = Some Scenario.refined_session /\
  exists r w' pre c,
    startCollaborativeGeneration Scenario.flaky Scenario.clock
      Scenario.duration_text "s1" Scenario.running = (r, w') /\
    calls w' = pre ++ [c] /\
    map c_site pre = [AtInitial; AtCritique 1] /\
    c_site c = AtImprovement 1 /\
    failed c = true /\
    (AtFinalReview ∉ map c_site (calls w')) /\
    activeSessions w' !! "s1" = None /\
    exists e, r = Returns (Failure e).
Proof.
  assert (H1 : activeSessions Scenario.running !! "s1"
               = Some Scenario.refined_session) by reflexivity.
  split; [exact H1|].
  pose (run := startCollaborativeGeneration Scenario.flaky Scenario.clock
                 Scenario.duration_text "s1" Scenario.running).
  destruct (failed_call_aborts_pipeline _ _ _ _ _ _ (fst run) (snd run) H1
              (surjective_pairing run)) as (l & Hc & _ & H).
  assert (Hl : exists c1 c2 c3,
             l = [c1; c2; c3] /\ map c_site [c1; c2] = [AtInitial; AtCritique 1]
             /\ c_site c3 = AtImprovement 1 /\ failed c3 = true).
  { vm_compute in Hc. subst l. do 3 eexists. repeat split. }
  destruct Hl as (c1 & c2 & c3 & -> & Hpre & Hsite & Hfail).
  destruct (H [c1; c2] c3 [] eq_refl Hfail) as (_ & Hnf & Hgone & e & Hr).
  exists (fst run), (snd run), [c1; c2], c3.
  split; [apply surjective_pairing|].
  split; [exact Hc|]. split; [exact Hpre|]. split; [exact Hsite|].
  split; [exact Hfail|].
  split. { rewrite Hc. apply Hnf. rewrite Hsite. discriminate. }
  split; [exact Hgone|]. now exists e.
Defined.

Lemma clarification_gate_witness :
  fst (analyzeAndRefine Scenario.curious Scenario.number_text "haiku"
         Scenario.ready)
  = Returns (Clarify Scenario.two_questions Scenario.vague) /\
  exists w' s,
    startRefinementProcess Scenario.curious Scenario.clock Scenario.number_text
      Scenario.duration_text "s2" "haiku" Scenario.chosen 2 None Scenario.ready
    = (Returns (NeedsClarification "s2" Scenario.two_questions), w') /\
    map c_site (calls w') = [AtAnalysis; AtQuestions] /\
    activeSessions w' !! "s2" = Some s /\
    pendingClarifications s = Some Scenario.two_questions /\
    refinedPrompt s = Null /\
    match activeSessions
            (resubmit Scenario.curious Scenario.clock Scenario.duration_text
                Scenario.member_text
               "s2" [(Scenario.short_answers, None)] w') !! "s2" with
    | Some s' => refinedPrompt s' = Null
    | None => False
    end.
Proof.
  assert (H1 : fst (analyzeAndRefine Scenario.curious Scenario.number_text
                      "haiku" Scenario.ready)
               = Returns (Clarify Scenario.two_questions Scenario.vague))
    by (vm_compute; reflexivity).
  split; [exact H1|].
  destruct (clarification_gate Scenario.curious Scenario.clock
              Scenario.number_text Scenario.duration_text Scenario.member_text "s2" "haiku"
              Scenario.chosen 2 None Scenario.ready _ _ H1)
    as (w' & l & s & E & Hc & _ & Hs & Hp & Hn & Hsubs).
  exists w', s. split; [exact E|].
  assert (Hw : w' = snd (startRefinementProcess Scenario.curious Scenario.clock
                           Scenario.number_text Scenario.duration_text "s2"
                           "haiku" Scenario.chosen 2 None Scenario.ready))
    by (now rewrite E).
  split. { rewrite Hw. vm_compute. reflexivity. }
  split; [exact Hs|]. split; [exact Hp|]. split; [exact Hn|].
  specialize (Hsubs [(Scenario.short_answers, None)]).
  set (after := resubmit _ _ _ _ _ _ _) in *.
  destruct (activeSessions after !! "s2") as [s'|] eqn:Es.
  - apply Hsubs.
  - subst after. rewrite Hw in Es. vm_compute in Es. discriminate.
Defined.

Lemma validation_error_keeps_session_witness :
  activeSessions Scenario.waiting !! "s2" = Some Scenario.waiting_session /\
  pendingClarifications Scenario.waiting_session = Some Scenario.two_questions /\
  refinedPrompt Scenario.waiting_session = Null /\
  validateClarificationAnswers Scenario.two_questions Scenario.short_answers
  = Returns
      ["Please provide a more detailed answer for: Who is the audience?";
       "Please answer: How long should it be?"] /\
  exists w' s',
    submitClarification Scenario.echo Scenario.clock Scenario.duration_text
        Scenario.member_text
      "s2" Scenario.short_answers None Scenario.waiting
    = (Returns (Failure "Validation errors: Please provide a more detailed answer for: Who is the audience?, Please answer: How long should it be?"),
       w') /\
    calls w' = calls Scenario.waiting /\
    activeSessions w' !! "s2" = Some s' /\
    pendingClarifications s' = Some Scenario.two_questions /\
    refinedPrompt s' = Null /\
    match fst (submitClarification Scenario.echo Scenario.clock
                 Scenario.duration_text Scenario.member_text "s2" Scenario.good_answers None w') with
    | Returns (Complete sid _) => sid = "s2"
    | _ => False
    end.
Proof.
  assert (H1 : activeSessions Scenario.waiting !! "s2"
               = Some Scenario.waiting_session) by reflexivity.
  assert (H2 : pendingClarifications Scenario.waiting_session
               = Some Scenario.two_questions) by reflexivity.
  assert (H3 : refinedPrompt Scenario.waiting_session = Null) by reflexivity.
  assert (H4 : validateClarificationAnswers Scenario.two_questions
                 Scenario.short_answers
               = Returns
                   ["Please provide a more detailed answer for: Who is the audience?";
                    "Please answer: How long should it be?"])
    by (vm_compute; reflexivity).
  assert (H5 : validateClarificationAnswers Scenario.two_questions
                 Scenario.short_answers <> Returns [])
    by (rewrite H4; discriminate).
  do 4 (split; [assumption|]).
  destruct (validation_error_keeps_session Scenario.echo Scenario.clock
              Scenario.duration_text Scenario.member_text "s2" _ _ Scenario.short_answers None
              Scenario.waiting H1 H2 H3 H5)
    as (w' & s' & E & Hc & _ & Hs & _ & Hp & Hn & _).
  exists w', s'. rewrite H4 in E. split; [exact E|].
  split; [exact Hc|]. split; [exact Hs|]. split; [exact Hp|]. split; [exact Hn|].
  assert (Hw : w' = snd (submitClarification Scenario.echo Scenario.clock
                           Scenario.duration_text Scenario.member_text "s2" Scenario.short_answers
                           None Scenario.waiting)) by (now rewrite E).
  rewrite Hw. vm_compute. reflexivity.
Defined.

(** The claim C5 as the specification words it fails: in a session that
    completes straight from [startRefinementProcess] with two iterations,
    eight calls of the generation service are made, and the usage totals
    add up to six. *)
Lemma usage_total_misses_analyzer_calls :
  let run :=
    startRefinementProcess Scenario.satisfied Scenario.clock
      Scenario.number_text Scenario.duration_text "s3" "haiku" Scenario.chosen
      2 None Scenario.ready in
  match fst run with
  | Returns (Complete _ res) =>
      calls Scenario.ready = [] /\
      map c_site (calls (snd run))
      = [AtAnalysis; AtDirectRefinement; AtInitial; AtCritique 1;
         AtImprovement 1; AtCritique 2; AtImprovement 2; AtFinalReview] /\
      Forall succeeded (calls (snd run)) /\
      usage_total (r_modelUsageStats res) = 6 /\
      usage_total (r_modelUsageStats res) <> length (calls (snd run))
  | _ => False
  end.
Proof.
  vm_compute. split; [reflexivity|]. split; [reflexivity|].
  split; [repeat constructor|]. split; [reflexivity|]. discriminate.
Qed.

Lemma usage_counts_pipeline_calls_witness :
  (exists sid res w' l,
     startRefinementProcess Scenario.satisfied Scenario.clock
       Scenario.number_text Scenario.duration_text "s3" "haiku" Scenario.chosen
       2 None Scenario.ready = (Returns (Complete sid res), w') /\
     calls w' = calls Scenario.ready ++ l /\
     usage_total (r_modelUsageStats res) = length (pipeline_calls l) /\
     length (pipeline_calls l) = 6 /\ length l = 8) /\
  (activeSessions Scenario.waiting !! "s2" = Some Scenario.waiting_session /\
   pendingClarifications Scenario.waiting_session = Some Scenario.two_questions /\
   modelUsageStats Scenario.waiting_session = ∅ /\
   exists sid res w' l,
     submitClarification Scenario.echo Scenario.clock Scenario.duration_text
         Scenario.member_text
       "s2" Scenario.good_answers None Scenario.waiting
     = (Returns (Complete sid res), w') /\
     calls w' = calls Scenario.waiting ++ l /\
     usage_total (r_modelUsageStats res) = length (pipeline_calls l) /\
     length (pipeline_calls l) = 6 /\ length l = 7).
Proof.
  pose proof (usage_counts_pipeline_calls Scenario.satisfied Scenario.clock
                Scenario.number_text Scenario.duration_text
                    Scenario.member_text) as [Hstart _].
  pose proof (usage_counts_pipeline_calls Scenario.echo Scenario.clock
                Scenario.number_text Scenario.duration_text
                    Scenario.member_text) as [_ Hsubmit].
  split.
  - destruct (startRefinementProcess Scenario.satisfied Scenario.clock
                Scenario.number_text Scenario.duration_text "s3" "haiku"
                Scenario.chosen 2 None Scenario.ready)
      as [[[sid qs|sid res|e]|e] w'] eqn:E;
      try (vm_compute in E; discriminate).
    destruct (Hstart _ _ _ _ _ _ _ _ _ E) as (l & Hc & Hu & Hn & _).
    exists sid, res, w', l. do 4 (split; [assumption || reflexivity|]).
    assert (Hw : w' = snd (startRefinementProcess Scenario.satisfied
                             Scenario.clock Scenario.number_text
                             Scenario.duration_text "s3" "haiku"
                             Scenario.chosen 2 None Scenario.ready))
      by (now rewrite E).
    assert (H8 : length (calls w') = 8) by (rewrite Hw; vm_compute; reflexivity).
    rewrite Hc in H8. exact H8.
  - assert (H1 : activeSessions Scenario.waiting !! "s2"
                 = Some Scenario.waiting_session) by reflexivity.
    assert (H2 : pendingClarifications Scenario.waiting_session
                 = Some Scenario.two_questions) by reflexivity.
    assert (H3 : modelUsageStats Scenario.waiting_session = ∅) by reflexivity.
    do 3 (split; [assumption|]).
    destruct (submitClarification Scenario.echo Scenario.clock
                Scenario.duration_text Scenario.member_text "s2" Scenario.good_answers None
                Scenario.waiting)
      as [[[sid qs|sid res|e]|e] w'] eqn:E;
      try (vm_compute in E; discriminate).
    destruct (Hsubmit _ _ _ _ _ _ _ _ _ H1 H2 H3 E) as (l & Hc & Hu & Hn & _).
    exists sid, res, w', l. do 4 (split; [assumption || reflexivity|]).
    assert (Hw : w' = snd (submitClarification Scenario.echo Scenario.clock
                             Scenario.duration_text Scenario.member_text "s2" Scenario.good_answers
                             None Scenario.waiting)) by (now rewrite E).
    assert (H7 : length (calls w') = 7) by (rewrite Hw; vm_compute; reflexivity).
    rewrite Hc in H7. exact H7.
Defined.

(** The claim C4 as the specification words it fails: for a model with a
    budget of 4000 tokens, a prompt estimated at 2801 tokens, over the 2800
    that 70% allow, is handed to the provider and the call succeeds. *)
Lemma generateResponse_accepts_long_prompt :
  Js.own modelConfig "gpt-4-turbo"
  = Some (Config OpenAI "gpt-4-turbo-preview" 4000 7 Advanced
            ["analytical"; "comprehensive"; "reliable"; "fast"]) /\
  estimateTokenCount Scenario.long_prompt = 2801%N /\
  (4000 * 7 < 2801 * 10)%N /\
  generateResponse Scenario.echo AtInitial (Str "gpt-4-turbo")
    (Str Scenario.long_prompt) no_options Scenario.ready
  = (Returns "reply 0",
     record
       (Call AtInitial (Str "gpt-4-turbo") (Str Scenario.long_prompt)
          (Some (Request "gpt-4-turbo-preview" (Str Scenario.long_prompt) 4000
                   7 false))
          (Returns "reply 0")) Scenario.ready).
Proof.
  split; [reflexivity|]. split; [vm_compute; reflexivity|].
  split; [reflexivity|]. vm_compute. reflexivity.
Qed.

Lemma prompt_length_guard_is_separate_witness :
  Js.own modelConfig "gpt-4-turbo"
  = Some (Config OpenAI "gpt-4-turbo-preview" 4000 7 Advanced
            ["analytical"; "comprehensive"; "reliable"; "fast"]) /\
  (4000 * 7 < estimateTokenCount Scenario.long_prompt * 10)%N /\
  validatePromptLength "gpt-4-turbo" Scenario.long_prompt
  = Throws "Prompt too long for gpt-4-turbo: 2801 tokens (max: 2800)" /\
  exists rq,
    snd (respond Scenario.echo (Str "gpt-4-turbo") (Str Scenario.long_prompt)
           no_options Scenario.ready) = Some rq /\
    rq_content rq = Str Scenario.long_prompt.
Proof.
  assert (H1 : Js.own modelConfig "gpt-4-turbo"
               = Some (Config OpenAI "gpt-4-turbo-preview" 4000 7 Advanced
                         ["analytical"; "comprehensive"; "reliable"; "fast"]))
    by reflexivity.
  assert (H2 : (4000 * 7 < estimateTokenCount Scenario.long_prompt * 10)%N)
    by (vm_compute; reflexivity).
  split; [exact H1|]. split; [exact H2|].
  destruct (prompt_length_guard_is_separate Scenario.echo _ _ _ H1 H2)
    as (_ & Hv & Hg).
  split.
  - rewrite Hv. vm_compute. reflexivity.
  - destruct (Hg AtInitial no_options Scenario.ready) as (rq & Hrq & _ & Hcontent & _).
    { vm_compute. eexists. reflexivity. }
    exists rq. split; assumption.
Defined.

Lemma model_specialization_next_model_witness :
  Js.own phaseToSpecialization "final_review" = None /\
  getNextModel model_specialization Scenario.ready (Str "gpt-4o") 1 2 "critique"
  = Str "claude-sonnet-4" /\
  getNextModel model_specialization Scenario.ready (Str "gpt-4o") 1 2
    "final_review" = Str "gpt-4o".
Proof.
  assert (H1 : Js.own phaseToSpecialization "final_review" = None) by reflexivity.
  split; [exact H1|].
  destruct (model_specialization_next_model Scenario.ready (Str "gpt-4o") 1 2
              "final_review") as (_ & (m & Hm & Hc) & Hother).
  split.
  - rewrite Hc. f_equal. vm_compute in Hm. now injection Hm as <-.
  - exact (Hother H1).
Defined.

Lemma prompt_construction_deterministic_witness :
  Forall2 same_step (Scenario.recorded 1000) (Scenario.recorded 2000) /\
  Scenario.recorded 1000 <> Scenario.recorded 2000 /\
  buildCritiquePrompt (Str "haiku") "draft" 2 2 (Scenario.recorded 1000)
  = buildCritiquePrompt (Str "haiku") "draft" 2 2 (Scenario.recorded 2000) /\
  buildImprovementPrompt (Str "haiku") "draft" "too short" 2 2
    (Scenario.recorded 1000)
  = buildImprovementPrompt (Str "haiku") "draft" "too short" 2 2
      (Scenario.recorded 2000).
Proof.
  assert (H1 : Forall2 same_step (Scenario.recorded 1000) (Scenario.recorded 2000))
    by (repeat constructor).
  split; [exact H1|]. split; [discriminate|].
  exact (prompt_construction_deterministic (Str "haiku") "draft" "too short"
           2 2 _ _ H1).
Defined.

Lemma question_cap_only_in_fallback_witness :
  Re.match_all question_re Scenario.six_plain_questions = None /\
  length (parseClarificationQuestions Scenario.six_plain_questions) = 4 /\
  Re.match_all question_re Scenario.five_questions
  = Some ["QUESTION_1: a?"; "QUESTION_2: b?"; "QUESTION_3: c?";
          "QUESTION_4: d?"; "QUESTION_5: e?"] /\
  parseClarificationQuestions Scenario.five_questions
  = [Question "q1" "a?"; Question "q2" "b?"; Question "q3" "c?";
     Question "q4" "d?"; Question "q5" "e?"] /\
  Question "q5" "e?" ∈ parseClarificationQuestions Scenario.five_questions /\
  length (parseClarificationQuestions
            (Js.lines (replicate 6 "QUESTION_1: a?"))) = 6.
Proof.
  assert (H1 : Re.match_all question_re Scenario.six_plain_questions = None)
    by (vm_compute; reflexivity).
  assert (H2 : Re.match_all question_re Scenario.five_questions
               = Some ["QUESTION_1: a?"; "QUESTION_2: b?"; "QUESTION_3: c?";
                       "QUESTION_4: d?"; "QUESTION_5: e?"])
    by (vm_compute; reflexivity).
  assert (H3 : Js.trim (Re.remove_first question_label_re "QUESTION_5: e?")
               = "e?") by (vm_compute; reflexivity).
  split; [exact H1|].
  destruct (question_cap_only_in_fallback Scenario.six_plain_questions)
    as (_ & Hcap & _).
  destruct (question_cap_only_in_fallback Scenario.five_questions)
    as (_ & _ & Hall & Hlines & _).
  destruct (Hall _ H2) as (Helem & _ & Heq).
  split. { specialize (Hcap H1). vm_compute. reflexivity. }
  split; [exact H2|].
  split. { rewrite Heq; [vm_compute; reflexivity|]. vm_compute. discriminate. }
  split.
  { specialize (Helem 4 "QUESTION_5: e?" eq_refl). rewrite H3 in Helem.
    apply Helem. discriminate. }
  rewrite (Hlines 5). reflexivity.
Defined.

(* ===================================================================== *)
(** * Further scenarios *)
(* ===================================================================== *)

Module Fixture.

(** The refined session of [Scenario], with a progress callback. *)
Definition listening_session : session :=
  set_progressCallback (Some 7) Scenario.refined_session.


(** A refined session whose strategy is the one the form offers under the
    name [capability_based]. *)
Definition misnamed_session : session :=
  set_refinedPrompt (Str "A haiku about autumn, please.")
    (new_session "s5" "haiku"
       (Selection (Str "gpt-4o") (Str "gpt-4-turbo") Null
          (Str "capability_based"))
       (Str "gpt-4.1") 2 1000 None).

Definition misnamed : world :=
  with_activeSessions {[ "s5" := misnamed_session ]} Scenario.ready.

(** The key of Anthropic alone is set again. *)
Definition anthropic_only : operation :=
  SetApiKeys (Credentials None (Some "sk-ant-test")).

(** The keys are set and a vague prompt is submitted. *)
Definition asking : list operation :=
  [SetApiKeys (Credentials (Some "sk-test") (Some "sk-ant-test"));
   Start "s2" "haiku" Scenario.chosen 2 None].

(** A provider that rejects every request. *)
Definition refusing (n : nat) (rq : request) : reply := Rejects "overloaded".

Definition clear_analysis : string :=
  Js.lines ["CLARITY_SCORE: 0.9"; "OVERALL_SCORE: 0.9";
            "NEEDS_CLARIFICATION:  NO"; "REASONING: clear"].

End Fixture.

Lemma history_records_calls_before_final_review_witness :
  exists res w' l cF,
    executeCollaborativeProcess Scenario.echo Scenario.clock
      Scenario.duration_text Scenario.refined_session Scenario.ready
    = (Returns res, w') /\
    calls w' = calls Scenario.ready ++ l ++ [cF] /\
    Forall2 logged l (r_iterationHistory res) /\
    length (r_iterationHistory res) = 5 /\
    c_site cF = AtFinalReview /\
    c_outcome cF = Returns (finalOutput res).
Proof.
  destruct (executeCollaborativeProcess Scenario.echo Scenario.clock
              Scenario.duration_text Scenario.refined_session Scenario.ready)
    as [[res|e] w'] eqn:E; [|vm_compute in E; discriminate].
  destruct (history_records_calls_before_final_review _ _ _ _ _ _ _ E)
    as (l & cF & H).
  exists res, w', l, cF. split; [reflexivity|exact H].
Defined.

Lemma final_review_reads_latest_response_witness :
  exists res w' l cF h,
    executeCollaborativeProcess Scenario.echo Scenario.clock
      Scenario.duration_text Scenario.refined_session Scenario.ready
    = (Returns res, w') /\
    calls w' = calls Scenario.ready ++ l ++ [cF] /\
    c_site cF = AtFinalReview /\
    last (r_iterationHistory res) = Some h /\
    h_type h <> "critique" /\
    c_prompt cF
    = Str (buildFinalReviewPrompt (Str "A haiku about autumn, please.")
             (h_output h) (r_completedIterations res) (r_iterationHistory res)).
Proof.
  destruct (executeCollaborativeProcess Scenario.echo Scenario.clock
              Scenario.duration_text Scenario.refined_session Scenario.ready)
    as [[res|e] w'] eqn:E; [|vm_compute in E; discriminate].
  destruct (final_review_reads_latest_response _ _ _ _ _ _ _ E)
    as (l & cF & h & H).
  exists res, w', l, cF, h. split; [reflexivity|exact H].
Defined.

Lemma usage_statistics_count_calls_per_model_witness :
  modelUsageStats Scenario.refined_session = ∅ /\
  exists res w' l,
    executeCollaborativeProcess Scenario.echo Scenario.clock
      Scenario.duration_text Scenario.refined_session Scenario.ready
    = (Returns res, w') /\
    calls w' = calls Scenario.ready ++ l /\
    uses (r_modelUsageStats res) (Str "claude-sonnet-4")
    = tally (sent_to (Str "claude-sonnet-4")) l /\
    performed (r_modelUsageStats res) (Str "gpt-4.1") "improvement"
    = tally (sent_for (Str "gpt-4.1") "improvement") l.
Proof.
  assert (H0 : modelUsageStats Scenario.refined_session = ∅) by reflexivity.
  split; [exact H0|].
  destruct (executeCollaborativeProcess Scenario.echo Scenario.clock
              Scenario.duration_text Scenario.refined_session Scenario.ready)
    as [[res|e] w'] eqn:E; [|vm_compute in E; discriminate].
  destruct (usage_statistics_count_calls_per_model _ _ _ _ _ _ _ H0 E)
    as (l & Hc & H).
  exists res, w', l. split; [reflexivity|]. split; [exact Hc|].
  split.
  - exact (proj1 (H (Str "claude-sonnet-4"))).
  - exact (proj1 (proj2 (H (Str "gpt-4.1"))) "improvement").
Defined.

Lemma progress_updates_of_a_completed_pipeline_witness :
  exists res w' earlier e,
    executeCollaborativeProcess Scenario.echo Scenario.clock
      Scenario.duration_text Fixture.listening_session Scenario.ready
    = (Returns res, w') /\
    events w' = events Scenario.ready ++ earlier ++ [e] /\
    map p_phase earlier
    = ["starting"; "initial_generation"; "iteration_start"; "critique";
       "improvement"; "iteration_start"; "critique"; "improvement";
       "final_review"] /\
    p_callback e = 7 /\ p_completed e = true /\ p_result e = Some res.
Proof.
  destruct (executeCollaborativeProcess Scenario.echo Scenario.clock
              Scenario.duration_text Fixture.listening_session Scenario.ready)
    as [[res|e] w'] eqn:E; [|vm_compute in E; discriminate].
  destruct (progress_updates_of_a_completed_pipeline _ _ _ _ _ _ _ E)
    as (earlier & e & He & Hp & _ & Hcb & _ & _ & Hdone & Hres).
  exists res, w', earlier, e. split; [reflexivity|]. split; [exact He|].
  split; [exact Hp|]. auto.
Defined.

Lemma model_specialization_fixes_the_models_witness :
  handoffStrategy Scenario.refined_session = "model_specialization" /\
  exists res w' l,
    executeCollaborativeProcess Scenario.echo Scenario.clock
      Scenario.duration_text Scenario.refined_session Scenario.ready
    = (Returns res, w') /\
    calls w' = calls Scenario.ready ++ l /\
    Forall (assigned (fun m => m = Str "claude-sonnet-4")
                     (fun m => m = Str "gpt-4.1")) l /\
    is_Some (openaiClient Scenario.ready) /\
    is_Some (anthropicClient Scenario.ready).
Proof.
  assert (Hs : handoffStrategy Scenario.refined_session = "model_specialization")
    by reflexivity.
  split; [exact Hs|].
  destruct (executeCollaborativeProcess Scenario.echo Scenario.clock
              Scenario.duration_text Scenario.refined_session Scenario.ready)
    as [[res|e] w'] eqn:E; [|vm_compute in E; discriminate].
  destruct (model_specialization_fixes_the_models _ _ _ _ _ _ _ Hs E)
    as (l & Hc & Hf & Hboth).
  exists res, w', l. split; [reflexivity|]. split; [exact Hc|].
  split; [exact Hf|]. apply Hboth. simpl. lia.
Defined.


Lemma generateResponse_returns_trimmed_text_witness :
  exists a w',
    generateResponse Scenario.echo AtInitial (Str "claude-sonnet-4")
      (Str "A haiku about autumn, please.") no_options Scenario.ready
    = (Returns a, w') /\
    Js.trim a = a /\ a <> "".
Proof.
  destruct (generateResponse Scenario.echo AtInitial (Str "claude-sonnet-4")
              (Str "A haiku about autumn, please.") no_options Scenario.ready)
    as [[a|e] w'] eqn:E; [|vm_compute in E; discriminate].
  destruct (generateResponse_returns_trimmed_text _ _ _ _ _ _ _ _ E)
    as (Ht & cfg & rq & Hcfg & _ & Hrq & _ & Hne).
  exists a, w'. split; [reflexivity|]. split; [exact Ht|].
  apply Hne. destruct Hrq as (_ & _ & Hmax & _ & ->).
  vm_compute in Hcfg. injection Hcfg as <-. rewrite Hmax. reflexivity.
Defined.

Lemma available_model_stays_available_witness :
  isModelAvailable Scenario.ready "gpt-4o" = true /\
  isModelAvailable
    (fold_left
       (perform Scenario.echo Scenario.clock Scenario.number_text
          Scenario.duration_text Scenario.member_text)
       [Fixture.anthropic_only] Scenario.ready) "gpt-4o" = true /\
  map d_id
    (getAvailableModels
       (fold_left
          (perform Scenario.echo Scenario.clock Scenario.number_text
             Scenario.duration_text Scenario.member_text)
          [Fixture.anthropic_only] Scenario.ready))
  = ["claude-sonnet-4"; "claude-3-5-sonnet"].
Proof.
  assert (H : isModelAvailable Scenario.ready "gpt-4o" = true) by reflexivity.
  split; [exact H|]. split.
  - exact (available_model_stays_available Scenario.echo Scenario.clock
             Scenario.number_text Scenario.duration_text
                 Scenario.member_text Scenario.ready
             "gpt-4o" [Fixture.anthropic_only] H).
  - vm_compute. reflexivity.
Defined.

Lemma anthropic_key_is_accepted_as_openai_key_witness :
  validated_key (Some " sk-ant-test ") "sk-ant-" = Some "sk-ant-test" /\
  openaiClient
    (snd (setApiKeys (Credentials (Some " sk-ant-test ") None) initial_world))
  = Some "sk-ant-test".
Proof.
  assert (H : validated_key (Some " sk-ant-test ") "sk-ant-"
              = Some (Js.trim " sk-ant-test ")) by (vm_compute; reflexivity).
  split; [exact H|].
  exact (proj1 (anthropic_key_is_accepted_as_openai_key " sk-ant-test " None
                  initial_world H)).
Defined.

Lemma clarification_is_skipped_only_on_an_explicit_no_witness :
  needsClarification
    (parseAnalysisResult Scenario.number_text Fixture.clear_analysis) = false /\
  (exists pre blank rest,
     Js.chars Fixture.clear_analysis
     = pre ++ Js.chars "NEEDS_CLARIFICATION:" ++ blank ++ Js.chars "NO" ++ rest /\
     forallb Js.is_space blank = true) /\
  needsClarification
    (parseAnalysisResult Scenario.number_text "NEEDS_CLARIFICATION: NOT SURE")
  = false.
Proof.
  assert (H : needsClarification
                (parseAnalysisResult Scenario.number_text Fixture.clear_analysis)
              = false) by (vm_compute; reflexivity).
  split; [exact H|]. split.
  - destruct (proj1 (clarification_is_skipped_only_on_an_explicit_no
                       Scenario.number_text Fixture.clear_analysis) H)
      as (pre & blank & rest & E & Hb & _).
    exists pre, blank, rest. split; assumption.
  - apply (proj2 (clarification_is_skipped_only_on_an_explicit_no
                    Scenario.number_text "NEEDS_CLARIFICATION: NOT SURE")).
    exists [], [" "%char], (Js.chars "T SURE").
    split; [reflexivity|]. split; [reflexivity|].
    intros pre' blank' rest' _ _. apply Nat.le_0_l.
Defined.

Lemma validation_rejects_exactly_witness :
  validateClarificationAnswers
    [Question "q1" "Who is the audience?"; Question "constructor" "Why?"]
    [("q1", "x")]
  = Throws "answer.trim is not a function" /\
  (exists q,
     q ∈ [Question "q1" "Who is the audience?"; Question "constructor" "Why?"] /\
     Js.own [("q1", "x")] (q_id q) = None /\ Js.inherited (q_id q) = true) /\
  validateClarificationAnswers Scenario.two_questions Scenario.good_answers
  = Returns [] /\
  forall q, q ∈ Scenario.two_questions ->
            Js.own Scenario.good_answers (q_id q) = None ->
            Js.inherited (q_id q) = false.
Proof.
  assert (E1 : validateClarificationAnswers
                 [Question "q1" "Who is the audience?";
                  Question "constructor" "Why?"] [("q1", "x")]
               = Throws "answer.trim is not a function")
    by (vm_compute; reflexivity).
  assert (E2 : validateClarificationAnswers Scenario.two_questions
                 Scenario.good_answers = Returns [])
    by (vm_compute; reflexivity).
  pose proof (validation_rejects_exactly
                [Question "q1" "Who is the audience?";
                 Question "constructor" "Why?"] [("q1", "x")]) as H1.
  pose proof (validation_rejects_exactly Scenario.two_questions
                Scenario.good_answers) as H2.
  rewrite E1 in H1. rewrite E2 in H2.
  split; [exact E1|]. split; [exact (proj2 H1)|].
  split; [exact E2|exact (proj1 H2)].
Defined.

Lemma unknown_strategy_fails_before_any_call_witness :
  activeSessions Fixture.misnamed !! "s5" = Some Fixture.misnamed_session /\
  handoffStrategies (handoffStrategy Fixture.misnamed_session) = None /\
  1 <= targetIterations Fixture.misnamed_session /\
  startCollaborativeGeneration Scenario.echo Scenario.clock
    Scenario.duration_text "s5" Fixture.misnamed
  = (Returns (Failure "Cannot read properties of undefined (reading 'getNextModel')"),
     without "s5" Fixture.misnamed).
Proof.
  assert (H1 : activeSessions Fixture.misnamed !! "s5"
               = Some Fixture.misnamed_session) by reflexivity.
  assert (H2 : handoffStrategies (handoffStrategy Fixture.misnamed_session)
               = None) by reflexivity.
  assert (H3 : 1 <= targetIterations Fixture.misnamed_session)
    by (simpl; lia).
  split; [exact H1|]. split; [exact H2|]. split; [exact H3|].
  destruct (unknown_strategy_fails_before_any_call Scenario.echo Scenario.clock
              Scenario.duration_text "s5" Fixture.misnamed_session
              Fixture.misnamed H1 H2 H3) as (e & E & [->| ->]).
  - vm_compute in E. discriminate.
  - exact E.
Defined.

Lemma start_without_client_fails_witness :
  openaiClient initial_world = None /\
  anthropicClient initial_world = None /\
  exists w',
    startRefinementProcess Scenario.echo Scenario.clock Scenario.number_text
      Scenario.duration_text "s6" "haiku" Scenario.chosen 2 (Some 7)
      initial_world
    = (Returns (Failure "No LLM models available for prompt analysis"), w') /\
    calls w' = [] /\ events w' = [] /\ activeSessions w' !! "s6" = None.
Proof.
  split; [reflexivity|]. split; [reflexivity|].
  destruct (start_without_client_fails Scenario.echo Scenario.clock
              Scenario.number_text Scenario.duration_text "s6" "haiku"
              Scenario.chosen 2 (Some 7) initial_world eq_refl eq_refl)
    as (w' & E & Hc & He & Hs).
  exists w'. split; [exact E|]. split; [exact Hc|]. split; [exact He|].
  rewrite Hs. apply lookup_delete_eq.
Defined.

Lemma stored_sessions_await_clarification_witness :
  exists s,
    activeSessions
      (fold_left
         (perform Scenario.curious Scenario.clock Scenario.number_text
            Scenario.duration_text Scenario.member_text)
         Fixture.asking initial_world) !! "s2" = Some s /\
    id s = "s2" /\ is_Some (pendingClarifications s) /\ refinedPrompt s = Null.
Proof.
  destruct (activeSessions
              (fold_left
                 (perform Scenario.curious Scenario.clock Scenario.number_text
                    Scenario.duration_text Scenario.member_text)
                 Fixture.asking initial_world) !! "s2") as [s|] eqn:E;
    [|vm_compute in E; discriminate].
  exists s. split; [reflexivity|].
  exact (stored_sessions_await_clarification Scenario.curious Scenario.clock
           Scenario.number_text Scenario.duration_text Scenario.member_text Fixture.asking "s2" s E).
Defined.

Lemma selectModelByCapabilities_selects_witness :
  Str "claude-sonnet-4" <> Str "" /\
  selectModelByCapabilities Scenario.ready ["analytical"; "thoughtful"]
    (Str "claude-sonnet-4") = Str "gpt-4o" /\
  exists m,
    m ∈ getAvailableModels Scenario.ready /\ d_id m = "gpt-4o" /\
    forall m',
      m' ∈ getAvailableModels Scenario.ready ->
      Js.is_str (Str "claude-sonnet-4") (d_id m') = false ->
      score ["analytical"; "thoughtful"] m' <= score ["analytical"; "thoughtful"] m.
Proof.
  assert (H : Str "claude-sonnet-4" <> Str "") by discriminate.
  split; [exact H|].
  pose proof (selectModelByCapabilities_selects Scenario.ready
                ["analytical"; "thoughtful"] (Str "claude-sonnet-4") H) as S.
  assert (E : selectModelByCapabilities Scenario.ready
                ["analytical"; "thoughtful"] (Str "claude-sonnet-4")
              = Str "gpt-4o") by (vm_compute; reflexivity).
  split; [exact E|]. rewrite E in S.
  destruct S as (m & Hm & Hid & Hbest).
  exists m. split; [exact Hm|]. split; [exact Hid|].
  intros m' Hm' Hx. exact (proj2 (Hbest m' Hm' Hx)).
Defined.

Lemma analysis_uses_the_first_available_model_witness :
  exists r w' l,
    analyzeAndRefine Scenario.satisfied Scenario.number_text "haiku"
      Scenario.ready = (Returns r, w') /\
    calls w' = calls Scenario.ready ++ l /\
    analysis_run Scenario.number_text "haiku" Scenario.ready r l /\
    head (client_getAvailableModels Scenario.ready) = Some "claude-sonnet-4".
Proof.
  destruct (analyzeAndRefine Scenario.satisfied Scenario.number_text "haiku"
              Scenario.ready) as [[r|e] w'] eqn:E;
    [|vm_compute in E; discriminate].
  destruct (analysis_uses_the_first_available_model _ _ _ _ _ _ E)
    as (l & Hc & _ & Hr & _).
  exists r, w', l. split; [reflexivity|]. split; [exact Hc|].
  split; [exact Hr|]. reflexivity.
Defined.

Lemma planned_steps_are_carried_out_witness :
  activeSessions Scenario.running !! "s1" = Some Scenario.refined_session /\
  exists sid res w' plan l,
    startCollaborativeGeneration Scenario.echo Scenario.clock
      Scenario.duration_text "s1" Scenario.running
    = (Returns (Complete sid res), w') /\
    generateProcessSteps Scenario.refined_session Scenario.running
    = (Returns plan, Scenario.running) /\
    calls w' = calls Scenario.running ++ l /\
    Forall2 planned plan l.
Proof.
  assert (H1 : activeSessions Scenario.running !! "s1"
               = Some Scenario.refined_session) by reflexivity.
  split; [exact H1|].
  destruct (startCollaborativeGeneration Scenario.echo Scenario.clock
              Scenario.duration_text "s1" Scenario.running)
    as [[[sid qs|sid res|e]|e] w'] eqn:E;
    try (vm_compute in E; discriminate).
  destruct (planned_steps_are_carried_out _ _ _ _ _ _ _ _ _ H1 E)
    as (plan & l & H).
  exists sid, res, w', plan, l. split; [reflexivity|exact H].
Defined.

Lemma refined_prompt_drives_the_pipeline_witness :
  exists sid res w' cA cR refined c0 rest,
    startRefinementProcess Scenario.satisfied Scenario.clock
      Scenario.number_text Scenario.duration_text "s3" "haiku" Scenario.chosen
      2 None Scenario.ready = (Returns (Complete sid res), w') /\
    calls w' = calls Scenario.ready ++ cA :: cR :: c0 :: rest /\
    c_outcome cR = Returns refined /\
    c_model c0 = Str "gpt-4.1" /\
    c_prompt c0 = Str refined /\
    r_originalPrompt res = "haiku" /\
    r_refinedPrompt res = Str refined.
Proof.
  destruct (startRefinementProcess Scenario.satisfied Scenario.clock
              Scenario.number_text Scenario.duration_text "s3" "haiku"
              Scenario.chosen 2 None Scenario.ready)
    as [[[sid qs|sid res|e]|e] w'] eqn:E;
    try (vm_compute in E; discriminate).
  destruct (refined_prompt_drives_the_pipeline _ _ _ _ _ _ _ _ _ _ _ _ _ E)
    as (cA & cR & refined & c0 & rest & Hc & _ & _ & Ho & _ & Hm & Hp & _
        & Horig & Href & _).
  exists sid, res, w', cA, cR, refined, c0, rest.
  split; [reflexivity|]. split; [exact Hc|]. split; [exact Ho|].
  split; [exact Hm|]. split; [exact Hp|]. split; [exact Horig|exact Href].
Defined.

Lemma clarified_prompt_drives_the_pipeline_witness :
  activeSessions Scenario.waiting !! "s2" = Some Scenario.waiting_session /\
  pendingClarifications Scenario.waiting_session = Some Scenario.two_questions /\
  exists sid res w' cR refined c0 rest,
    submitClarification Scenario.echo Scenario.clock Scenario.duration_text
        Scenario.member_text
      "s2" Scenario.good_answers None Scenario.waiting
    = (Returns (Complete sid res), w') /\
    validateClarificationAnswers Scenario.two_questions Scenario.good_answers
    = Returns [] /\
    calls w' = calls Scenario.waiting ++ cR :: c0 :: rest /\
    c_model cR = Str "claude-sonnet-4" /\
    c_outcome cR = Returns refined /\
    c_prompt c0 = Str refined /\
    r_originalPrompt res = "haiku" /\
    r_refinedPrompt res = Str refined.
Proof.
  assert (H1 : activeSessions Scenario.waiting !! "s2"
               = Some Scenario.waiting_session) by reflexivity.
  assert (H2 : pendingClarifications Scenario.waiting_session
               = Some Scenario.two_questions) by reflexivity.
  split; [exact H1|]. split; [exact H2|].
  destruct (submitClarification Scenario.echo Scenario.clock
              Scenario.duration_text Scenario.member_text "s2" Scenario.good_answers None
              Scenario.waiting)
    as [[[sid qs|sid res|e]|e] w'] eqn:E;
    try (vm_compute in E; discriminate).
  destruct (clarified_prompt_drives_the_pipeline Scenario.echo Scenario.clock
              Scenario.duration_text Scenario.member_text "s2" Scenario.waiting_session
              Scenario.two_questions Scenario.good_answers None
              Scenario.waiting sid res w' H1 H2 E)
    as (Hv & cR & refined & c0 & rest & Hc & _ & Hm & Ho & _ & _ & Hp & Horig
        & Href).
  exists sid, res, w', cR, refined, c0, rest.
  split; [reflexivity|]. split; [exact Hv|]. split; [exact Hc|].
  split; [exact Hm|]. split; [exact Ho|]. split; [exact Hp|].
  split; [exact Horig|exact Href].
Defined.

Lemma failed_refinement_keeps_the_session_witness :
  activeSessions Scenario.waiting !! "s2" = Some Scenario.waiting_session /\
  id Scenario.waiting_session = "s2" /\
  pendingClarifications Scenario.waiting_session = Some Scenario.two_questions /\
  validateClarificationAnswers Scenario.two_questions Scenario.good_answers
  = Returns [] /\
  exists r w' c,
    submitClarification Fixture.refusing Scenario.clock Scenario.duration_text
        Scenario.member_text
      "s2" Scenario.good_answers None Scenario.waiting = (Returns r, w') /\
    calls w' = calls Scenario.waiting ++ [c] /\
    r = Failure "Anthropic API error: overloaded" /\
    activeSessions w' = activeSessions Scenario.waiting.
Proof.
  assert (H1 : activeSessions Scenario.waiting !! "s2"
               = Some Scenario.waiting_session) by reflexivity.
  assert (H2 : id Scenario.waiting_session = "s2") by reflexivity.
  assert (H3 : pendingClarifications Scenario.waiting_session
               = Some Scenario.two_questions) by reflexivity.
  assert (H4 : validateClarificationAnswers Scenario.two_questions
                 Scenario.good_answers = Returns []) by (vm_compute; reflexivity).
  split; [exact H1|]. split; [exact H2|]. split; [exact H3|].
  split; [exact H4|].
  destruct (submitClarification Fixture.refusing Scenario.clock
              Scenario.duration_text Scenario.member_text "s2" Scenario.good_answers None
              Scenario.waiting) as [[r|e] w'] eqn:E;
    [|vm_compute in E; discriminate].
  destruct (failed_refinement_keeps_the_session Fixture.refusing Scenario.clock
              Scenario.duration_text Scenario.member_text "s2" Scenario.waiting_session
              Scenario.two_questions Scenario.good_answers None
              Scenario.waiting r w' H1 H2 H3 H4 E)
    as (c & rest & Hc & _ & H).
  assert (Ho : c_outcome c = Throws "Anthropic API error: overloaded").
  { vm_compute in E. injection E as _ Ew. subst w'.
    vm_compute in Hc. injection Hc as <- _. reflexivity. }
  rewrite Ho in H. destruct H as (-> & -> & Hs).
  exists (Failure "Anthropic API error: overloaded"), w', c.
  split; [reflexivity|]. split; [exact Hc|]. split; [reflexivity|exact Hs].
Defined.
